(** * A shallow embedding of [sudoku.py]

    The solver works on two NumPy arrays that are mutated in place: the
    [board] (shape 9x9, integers) and the [working] array (shape 9x9x10,
    booleans, entry [i,j,n] meaning "digit [n] is still possible at row
    [i], column [j]").  Arrays are modelled as nested lists read through
    total accessors; an in-place slice assignment becomes the pointwise
    redefinition of the selected entries.  Code that can raise
    ([flatnonzero(...)[0]] on an empty result) lives in a small
    state-and-error monad. *)

From stdpp Require Import base numbers list gmap.
From Stdlib Require Import List Lia ZifyNat.
Import ListNotations.

Local Open Scope nat_scope.

(** ** Arrays of fixed shape *)

Definition Board := list (list nat).
Definition Working := list (list (list bool)).

Definition bget (b : Board) (i j : nat) : nat := nth j (nth i b []) 0.
Definition get (w : Working) (i j n : nat) : bool :=
  nth n (nth j (nth i w []) []) false.

Definition tab2 (f : nat -> nat -> nat) : Board :=
  map (fun i => map (f i) (seq 0 9)) (seq 0 9).
Definition tab3 (f : nat -> nat -> nat -> bool) : Working :=
  map (fun i => map (fun j => map (f i j) (seq 0 10)) (seq 0 9)) (seq 0 9).

(** Index expressions of NumPy: an integer, [:], [lo:hi], a tuple of
    integers.  A subscript made of one selector per axis selects the product
    of the three index sets. *)
Definition sel := nat -> bool.
Definition at_ (k : nat) : sel := fun k' => k' =? k.
Definition every : sel := fun _ => true.
Definition slice (lo hi : nat) : sel := fun k => (lo <=? k) && (k <? hi).
Definition among (l : list nat) : sel := fun k => existsb (Nat.eqb k) l.

(** [working[si, sj, sn] = v] *)
Definition assign (si sj sn : sel) (v : bool) (w : Working) : Working :=
  tab3 (fun i j n => if si i && sj j && sn n then v else get w i j n).

(** [board[i, j] = n] *)
Definition bset (b : Board) (i j n : nat) : Board :=
  tab2 (fun i' j' => if (i' =? i) && (j' =? j) then n else bget b i' j').

(** Counting the entries of an index list that satisfy a test: the model of
    [.sum()] over a boolean array, and of [len(x.nonzero()[0])]. *)
Definition cnt {X} (l : list X) (p : X -> bool) : nat := length (List.filter p l).

Definition idx2 (d1 d2 : nat) : list (nat * nat) := list_prod (seq 0 d1) (seq 0 d2).
Definition idx3 (d1 d2 d3 : nat) : list (nat * nat * nat) :=
  list_prod (idx2 d1 d2) (seq 0 d3).

(** [a.nonzero()] of a 2-d or 3-d boolean array, as the row-major list of
    index tuples that the source's loops iterate over. *)
Definition nonzero2 (d1 d2 : nat) (p : nat -> nat -> bool) : list (nat * nat) :=
  List.filter (fun c => p c.1 c.2) (idx2 d1 d2).
Definition nonzero3 (d1 d2 d3 : nat) (p : nat -> nat -> nat -> bool)
  : list (nat * nat * nat) :=
  List.filter (fun c => p c.1.1 c.1.2 c.2) (idx3 d1 d2 d3).

(** [working.sum()] *)
Definition wsum (w : Working) : nat :=
  cnt (idx3 9 9 10) (fun c => get w c.1.1 c.1.2 c.2).

(** [working.sum(2)[i,j]]: the number of candidates of a cell, and the list
    [flatnonzero(working[i,j,:])] of them. *)
Definition ncand (w : Working) (i j : nat) : nat := cnt (seq 0 10) (get w i j).
Definition candidates (w : Working) (i j : nat) : list nat :=
  List.filter (get w i j) (seq 0 10).

(** ** The monad: state with exceptions

    A computation returns the final state in every case, also when it
    raises: the arrays are mutated in place, so the caller's objects keep
    the writes made before the exception. *)

Inductive error := IndexError | OutOfFuel.
Inductive res (A : Type) := Ok (a : A) | Err (e : error).
Arguments Ok {A} a.
Arguments Err {A} e.

Definition M (S A : Type) : Type := S -> S * res A.

Definition ret {S A} (a : A) : M S A := fun s => (s, Ok a).
Definition bind {S A B} (m : M S A) (k : A -> M S B) : M S B :=
  fun s => match m s with
           | (s', Ok a) => k a s'
           | (s', Err e) => (s', Err e)
           end.
Definition raise {S A} (e : error) : M S A := fun s => (s, Err e).
Definition get_state {S} : M S S := fun s => (s, Ok s).
Definition modify {S} (f : S -> S) : M S unit := fun s => (f s, Ok tt).

Notation "x <- c1 ;; c2" := (bind c1 (fun x => c2))
  (at level 100, c1 at next level, right associativity).
Notation "c1 ;; c2" := (bind c1 (fun _ => c2))
  (at level 100, right associativity).

Fixpoint for_each {S X} (l : list X) (body : X -> M S unit) : M S unit :=
  match l with
  | [] => ret tt
  | x :: l' => body x ;; for_each l' body
  end.

(** [v[0]] for the list [v]: raises [IndexError] when [v] is empty. *)
Definition first {S X} (v : list X) : M S X :=
  match v with
  | x :: _ => ret x
  | [] => raise IndexError
  end.

(** [flatnonzero(v)[0]] for a vector of length [k] given by its test. *)
Definition first_nonzero {S} (k : nat) (p : nat -> bool) : M S nat :=
  first (List.filter p (seq 0 k)).

(** ** The solver state *)

Inductive pass_result := Found | NotFound | Crashed.

(** The trace is ghost state: it records the set_board_value calls (with the
    working array they were issued on), the finder passes and the calls of
    reduce_working_space, newest first. *)
Inductive event :=
| EAssign (w : Working) (i j n : nat)
| EPass (axis : nat) (r : pass_result)
| EReduce (r : res bool).

Record St := mkSt { board : Board; working : Working; trace : list event }.

Definition init_working (b : Board) : Working :=
  let row_has i n := existsb (fun j => bget b i j =? n) (seq 0 9) in
  let col_has j n := existsb (fun i => bget b i j =? n) (seq 0 9) in
  let block_has x y n :=
    existsb (fun c => bget b (3 * x + c.1) (3 * y + c.2) =? n) (idx2 3 3) in
  tab3 (fun i j n =>
          (bget b i j =? 0) && (1 <=? n) && (n <=? 9)
          && negb (row_has i n) && negb (col_has j n)
          && negb (block_has (i / 3) (j / 3) n)).

Definition set_board_value (i j n : nat) (st : St) : St :=
  let b := bset (board st) i j n in
  let w := assign (at_ i) every (at_ n) false (working st) in
  let w := assign every (at_ j) (at_ n) false w in
  let w := assign (at_ i) (at_ j) every false w in
  let x := i / 3 * 3 in
  let y := j / 3 * 3 in
  let w := assign (slice x (x + 3)) (slice y (y + 3)) (at_ n) false w in
  mkSt b w (trace st).

(** ** SimpleFinder *)

Definition emit (e : event) : M St unit :=
  modify (fun st => mkSt (board st) (working st) (e :: trace st)).

(** A call [set_board_value(board, working, i, j, n)], entered in the trace. *)
Definition assign_cell (i j n : nat) : M St unit :=
  st <- get_state ;;
  emit (EAssign (working st) i j n) ;;
  modify (set_board_value i j n).

(** [working.sum(axis)[a,b]] for [axis] 0, 1, 2. *)
Definition line_count (w : Working) (axis a b : nat) : nat :=
  match axis with
  | 0 => cnt (seq 0 9) (fun i => get w i a b)
  | 1 => cnt (seq 0 9) (fun j => get w a j b)
  | _ => cnt (seq 0 10) (fun n => get w a b n)
  end.

(** The body of the loop [for a, b in zip(found)]. *)
Definition fsv_body (axis : nat) (ab : nat * nat) : M St unit :=
  let a := ab.1 in
  let b := ab.2 in
  st <- get_state ;;
  let w := working st in
  match axis with
  | 0 => i <- first_nonzero 9 (fun i => get w i a b) ;; assign_cell i a b
  | 1 => j <- first_nonzero 9 (fun j => get w a j b) ;; assign_cell a j b
  | _ => n <- first_nonzero 10 (fun n => get w a b n) ;; assign_cell a b n
  end.

Definition find_simple_values (axis : nat) : M St bool :=
  st <- get_state ;;
  let w0 := working st in
  let found := nonzero2 9 (if axis =? 2 then 9 else 10)
                 (fun a b => line_count w0 axis a b =? 1) in
  if length found =? 0 then ret false
  else for_each found (fsv_body axis) ;; ret true.

(** [working_blocks[x,y,xi,xj,n]], the strided view (270, 30, 90, 10, 1) of
    the (90, 10, 1)-strided array: entry [3x+xi, 3y+xj, n]. *)
Definition block_get (w : Working) (x y xi xj n : nat) : bool :=
  get w (3 * x + xi) (3 * y + xj) n.

(** [working_blocks[x,y,:,:,n].nonzero()] *)
Definition block_positions (w : Working) (x y n : nat) : list (nat * nat) :=
  nonzero2 3 3 (fun xi xj => block_get w x y xi xj n).

Definition fsvb_body (xyn : nat * nat * nat) : M St unit :=
  let x := xyn.1.1 in
  let y := xyn.1.2 in
  let n := xyn.2 in
  st <- get_state ;;
  for_each (block_positions (working st) x y n)
    (fun ij => assign_cell (ij.1 + x * 3) (ij.2 + y * 3) n).

Definition find_simple_values_in_block : M St bool :=
  st <- get_state ;;
  let w0 := working st in
  let found := nonzero3 3 3 10
                 (fun x y n => cnt (idx2 3 3) (fun c => block_get w0 x y c.1 c.2 n) =? 1) in
  if length found =? 0 then ret false
  else for_each found fsvb_body ;; ret true.

(** ** Reducer *)

(** Method 1.  [working_block_rows] and [working_block_cols] are results of
    [.any(...)], hence copies: they keep the values the array had when they
    were computed. *)
Definition wr_method_1 : M Working unit :=
  w0 <- get_state ;;
  let working_block_rows x j n := existsb (fun xi => get w0 (3 * x + xi) j n) (seq 0 3) in
  for_each (nonzero2 9 10 (fun j n => cnt (seq 0 3) (fun x => working_block_rows x j n) =? 1))
    (fun jn =>
       let j := jn.1 in
       let n := jn.2 in
       x0 <- first_nonzero 3 (fun x => working_block_rows x j n) ;;
       let x := x0 * 3 in
       let y := j / 3 * 3 in
       let ys := List.filter (fun y' => negb (y' =? j)) (seq y 3) in
       modify (assign (slice x (x + 3)) (among ys) (at_ n) false)) ;;
  w1 <- get_state ;;
  let working_block_cols i y n := existsb (fun yj => get w1 i (3 * y + yj) n) (seq 0 3) in
  for_each (nonzero2 9 10 (fun i n => cnt (seq 0 3) (fun y => working_block_cols i y n) =? 1))
    (fun i_n =>
       let i := i_n.1 in
       let n := i_n.2 in
       y0 <- first_nonzero 3 (fun y => working_block_cols i y n) ;;
       let x := i / 3 * 3 in
       let y := y0 * 3 in
       let xs := List.filter (fun x' => negb (x' =? i)) (seq x 3) in
       modify (assign (among xs) (slice y (y + 3)) (at_ n) false)).

(** Method 2.  [working_blocks] is a view: [f] is read from the array as it
    is when the loop reaches the entry, while [found] was computed before
    the loop. *)
Definition wr_method_2 : M Working unit :=
  w0 <- get_state ;;
  for_each (nonzero3 3 3 10 (fun x y n =>
              cnt (seq 0 3) (fun xi =>
                negb (cnt (seq 0 3) (fun xj => block_get w0 x y xi xj n) =? 0)) =? 1))
    (fun xyn =>
       let x := xyn.1.1 in
       let y := xyn.1.2 in
       let n := xyn.2 in
       w <- get_state ;;
       f0 <- first (map fst (block_positions w x y n)) ;;
       let i := f0 + 3 * x in
       let js := List.filter (fun j => negb (j / 3 =? y)) (seq 0 9) in
       modify (assign (at_ i) (among js) (at_ n) false)) ;;
  w1 <- get_state ;;
  for_each (nonzero3 3 3 10 (fun x y n =>
              cnt (seq 0 3) (fun xj =>
                negb (cnt (seq 0 3) (fun xi => block_get w1 x y xi xj n) =? 0)) =? 1))
    (fun xyn =>
       let x := xyn.1.1 in
       let y := xyn.1.2 in
       let n := xyn.2 in
       w <- get_state ;;
       f0 <- first (map snd (block_positions w x y n)) ;;
       let is_ := List.filter (fun i => negb (i / 3 =? x)) (seq 0 9) in
       let j := f0 + 3 * y in
       modify (assign (among is_) (at_ j) (at_ n) false)).

(** Method 3: one partner [(i2,j2)] of the inner loop. *)
Definition readd (i j i2 j2 n m : nat) (w : Working) : Working :=
  assign (at_ i2) (at_ j2) (among [n; m]) true
    (assign (at_ i) (at_ j) (among [n; m]) true w).

Definition pair_step (i j n m : nat) (w : Working) (c2 : nat * nat) : Working :=
  let i2 := c2.1 in
  let j2 := c2.2 in
  let x := i / 3 in
  let y := j / 3 in
  let same_block := (x =? i2 / 3) && (y =? j2 / 3) in
  let w1 := if same_block
            then assign (slice (x * 3) (x * 3 + 3)) (slice (y * 3) (y * 3 + 3))
                   (among [n; m]) false w
            else w in
  if i =? i2 then readd i j i2 j2 n m (assign (at_ i) every (among [n; m]) false w1)
  else if j =? j2 then readd i j i2 j2 n m (assign every (at_ j) (among [n; m]) false w1)
  else if negb same_block then w1
  else readd i j i2 j2 n m w1.

(** The loop over [found]; the dictionary [pairs] maps a pair of digits to
    the cells recorded for it.  The result says whether the loop stopped to
    restart ("the data has changed significantly"). *)
Fixpoint m3_scan (found : list (nat * nat)) (pairs : gmap (nat * nat) (list (nat * nat)))
    (w : Working) : Working * bool :=
  match found with
  | [] => (w, false)
  | ij :: rest =>
      match candidates w ij.1 ij.2 with
      | [n; m] =>
          let p := default [] (pairs !! (n, m)) in
          let w' := fold_left (pair_step ij.1 ij.2 n m) p w in
          m3_scan rest (<[(n, m) := p ++ [ij]]> pairs) w'
      | _ => (w, true)
      end
  end.

(** The restart is a recursive call; [fuel] bounds the depth. *)
Fixpoint wr_method_3_rec (fuel : nat) (w : Working) : Working * res unit :=
  match fuel with
  | 0 => (w, Err OutOfFuel)
  | S fuel' =>
      let r := m3_scan (nonzero2 9 9 (fun i j => ncand w i j =? 2)) ∅ w in
      if r.2 then wr_method_3_rec fuel' r.1 else (r.1, Ok tt)
  end.

Definition wr_method_3 : M Working unit :=
  fun w => wr_method_3_rec (S (wsum w)) w.

(** [itertools.combinations(l, k)] *)
Fixpoint combinations {A} (l : list A) (k : nat) {struct l} : list (list A) :=
  match k, l with
  | 0, _ => [[]]
  | S _, [] => []
  | S k', x :: l' => map (cons x) (combinations l' k') ++ combinations l' k
  end.

(** [working[tuple(meshgrid(i, j, vals))] = False].  [meshgrid] turns the empty
    tuple into an empty array of floats, which NumPy refuses as an index. *)
Definition mesh_clear (is_ js vals : list nat) : M Working unit :=
  if (length is_ =? 0) || (length js =? 0)
  then raise IndexError
  else modify (assign (among is_) (among js) (among vals) false).

Definition wr_method_4 (N : nat) : M Working unit :=
  w0 <- get_state ;;
  let data i j := (0 <? ncand w0 i j) && (ncand w0 i j <=? N) in
  for_each (seq 0 9) (fun i =>
    let cells := List.filter (fun j => data i j) (seq 0 9) in
    if length cells <? N then ret tt
    else for_each (combinations cells N) (fun c =>
      w <- get_state ;;
      let vals := List.filter (fun v => existsb (fun j => get w i j v) c) (seq 0 10) in
      if length vals =? N
      then mesh_clear [i] (List.filter (fun j => negb (among c j)) (seq 0 9)) vals
      else ret tt)) ;;
  for_each (seq 0 9) (fun j =>
    let cells := List.filter (fun i => data i j) (seq 0 9) in
    if length cells <? N then ret tt
    else for_each (combinations cells N) (fun c =>
      w <- get_state ;;
      let vals := List.filter (fun v => existsb (fun i => get w i j v) c) (seq 0 10) in
      if length vals =? N
      then mesh_clear (List.filter (fun i => negb (among c i)) (seq 0 9)) [j] vals
      else ret tt)).

(** [working.sum(2).max()] *)
Definition max_ncand (w : Working) : nat :=
  list_max (map (fun c => ncand w c.1 c.2) (idx2 9 9)).

(** The loop [for N in range(3, max+1)]: true when some [N] reduced the sum. *)
Fixpoint escalate (Ns : list nat) (old_rem : nat) : M Working bool :=
  match Ns with
  | [] => ret false
  | N :: rest =>
      wr_method_4 N ;;
      w <- get_state ;;
      if wsum w =? old_rem then escalate rest old_rem else ret true
  end.

Fixpoint rws_loop (fuel : nat) (looped : bool) (rem : nat) {struct fuel} : M Working bool :=
  if rem =? 0 then ret looped
  else
    match fuel with
    | 0 => raise OutOfFuel
    | S fuel' =>
        wr_method_1 ;; wr_method_2 ;; wr_method_3 ;;
        w <- get_state ;;
        if wsum w =? rem then
          if negb looped then
            progress <- escalate (seq 3 (max_ncand w + 1 - 3)) rem ;;
            if progress then w' <- get_state ;; rws_loop fuel' true (wsum w')
            else ret looped
          else ret looped
        else rws_loop fuel' true (wsum w)
    end.

Definition reduce_working_space : M Working bool :=
  w <- get_state ;; rws_loop (wsum w) false (wsum w).

(** ** SolverLoop *)

Inductive outcome := Solved | Stuck | Raised | Timeout.

Definition on_working {A} (m : M Working A) : M St A :=
  fun st => let r := m (working st) in (mkSt (board st) r.1 (trace st), r.2).

Definition logged_pass (axis : nat) : M St bool :=
  fun st =>
    let r := (if axis =? 3 then find_simple_values_in_block
              else find_simple_values axis) st in
    let e := match r.2 with
             | Ok true => Found
             | Ok false => NotFound
             | Err _ => Crashed
             end in
    (mkSt (board r.1) (working r.1) (EPass axis e :: trace r.1), r.2).

Definition logged_reduce : M St bool :=
  fun st =>
    let r := on_working reduce_working_space st in
    (mkSt (board r.1) (working r.1) (EReduce r.2 :: trace r.1), r.2).

(** The [for axis in range(4)] loop: [Some nothing_found] when the while
    loop goes on (the for loop ended or hit [break]), [None] for
    [return board]. *)
Fixpoint axes_loop (axes : list nat) (nothing_found : nat) : M St (option nat) :=
  match axes with
  | [] => ret (Some nothing_found)
  | axis :: rest =>
      ok <- logged_pass axis ;;
      if ok then axes_loop rest nothing_found
      else
        let nothing_found := nothing_found + 1 in
        if nothing_found =? 4 then
          progress <- logged_reduce ;;
          if progress then ret (Some 0) else ret None
        else axes_loop rest nothing_found
  end.

Fixpoint solve_loop (fuel : nat) (nothing_found : nat) (st : St) : St * outcome :=
  if wsum (working st) =? 0 then (st, Solved)
  else
    match fuel with
    | 0 => (st, Timeout)
    | S fuel' =>
        match axes_loop [0; 1; 2; 3] nothing_found st with
        | (st', Ok (Some nf)) => solve_loop fuel' nf st'
        | (st', Ok None) => (st', Stuck)
        | (st', Err IndexError) => (st', Raised)
        | (st', Err OutOfFuel) => (st', Timeout)
        end
    end.

Definition solve_sudoku (b : Board) : St * outcome :=
  let w := init_working b in
  solve_loop (wsum w) 0 (mkSt b w []).

(** * Verification *)

Arguments get : simpl never.
Arguments bget : simpl never.
Arguments tab2 : simpl never.
Arguments tab3 : simpl never.
Arguments assign : simpl never.
Arguments bset : simpl never.
Arguments idx2 : simpl never.
Arguments idx3 : simpl never.
Arguments nonzero2 : simpl never.
Arguments nonzero3 : simpl never.
Arguments cnt : simpl never.
Arguments wsum : simpl never.
Arguments ncand : simpl never.
Arguments candidates : simpl never.

(** ** Arrays *)

Lemma nth_map_seq {A} (f : nat -> A) (k i : nat) (d : A) :
  nth i (map f (seq 0 k)) d = if i <? k then f i else d.
Proof.
  destruct (Nat.ltb_spec i k) as [Hlt | Hge].
  - rewrite (nth_indep _ d (f 0)) by (rewrite length_map, length_seq; lia).
    rewrite (map_nth f (seq 0 k) 0 i), seq_nth; auto.
  - apply nth_overflow. rewrite length_map, length_seq. lia.
Qed.

Lemma get_tab3 f i j n :
  get (tab3 f) i j n = (i <? 9) && (j <? 9) && (n <? 10) && f i j n.
Proof.
  unfold get, tab3. rewrite nth_map_seq.
  destruct (i <? 9); cbv iota; [| by destruct j, n].
  rewrite nth_map_seq. destruct (j <? 9); cbv iota; [| by destruct n].
  rewrite nth_map_seq. by destruct (n <? 10).
Qed.

Lemma bget_tab2 f i j :
  bget (tab2 f) i j = if (i <? 9) && (j <? 9) then f i j else 0.
Proof.
  unfold bget, tab2. rewrite nth_map_seq.
  destruct (i <? 9); cbv iota; [| by destruct j].
  rewrite nth_map_seq. by destruct (j <? 9).
Qed.

Lemma get_assign si sj sn v w i j n :
  get (assign si sj sn v w) i j n =
  (i <? 9) && (j <? 9) && (n <? 10)
  && (if si i && sj j && sn n then v else get w i j n).
Proof. apply get_tab3. Qed.

Lemma bget_bset b i j n i' j' :
  bget (bset b i j n) i' j' =
  if (i' <? 9) && (j' <? 9)
  then (if (i' =? i) && (j' =? j) then n else bget b i' j') else 0.
Proof. apply bget_tab2. Qed.

(** Reading a cleared array: an entry that is set afterwards was set before
    and was not selected. *)
Lemma get_clear si sj sn w i j n :
  get (assign si sj sn false w) i j n = true ->
  get w i j n = true /\ si i && sj j && sn n = false.
Proof.
  rewrite get_assign. destruct (si i && sj j && sn n).
  - rewrite andb_false_r. discriminate.
  - intros H. apply andb_true_iff in H. tauto.
Qed.

Lemma get_clear_in si sj sn w i j n :
  i < 9 -> j < 9 -> n < 10 ->
  get (assign si sj sn false w) i j n =
  negb (si i && sj j && sn n) && get w i j n.
Proof.
  intros Hi Hj Hn. rewrite get_assign.
  destruct (Nat.ltb_spec i 9), (Nat.ltb_spec j 9), (Nat.ltb_spec n 10); try lia.
  simpl. by destruct (si i && sj j && sn n).
Qed.

Lemma get_inb f i j n :
  get (tab3 f) i j n = true -> i < 9 /\ j < 9 /\ n < 10.
Proof.
  rewrite get_tab3. intros H.
  repeat (apply andb_true_iff in H; destruct H as [H ?]).
  repeat split; by apply Nat.ltb_lt.
Qed.

Lemma at_spec k k' : at_ k k' = true <-> k' = k.
Proof. unfold at_. apply Nat.eqb_eq. Qed.

Lemma slice_spec lo hi k : slice lo hi k = true <-> lo <= k < hi.
Proof.
  unfold slice. rewrite andb_true_iff, Nat.leb_le, Nat.ltb_lt. tauto.
Qed.

Lemma among_spec l k : among l k = true <-> In k l.
Proof.
  unfold among. rewrite existsb_exists. split.
  - intros (x & Hx & Heq). apply Nat.eqb_eq in Heq. by subst.
  - intros H. exists k. split; [done | apply Nat.eqb_refl].
Qed.

(** ** Counting *)

Lemma cnt_le {X} (l : list X) (p q : X -> bool) :
  (forall x, In x l -> p x = true -> q x = true) -> cnt l p <= cnt l q.
Proof.
  unfold cnt. induction l as [| a l IH]; intros H; simpl; [lia |].
  assert (IH' : length (List.filter p l) <= length (List.filter q l)).
  { apply IH. intros x Hx. apply H. by right. }
  destruct (p a) eqn:Hp.
  - rewrite (H a (or_introl eq_refl) Hp). simpl. lia.
  - destruct (q a); simpl; lia.
Qed.

Lemma cnt_lt {X} (l : list X) (p q : X -> bool) (a : X) :
  (forall x, In x l -> p x = true -> q x = true) ->
  In a l -> q a = true -> p a = false -> cnt l p < cnt l q.
Proof.
  unfold cnt. induction l as [| b l IH]; intros H Hin Hq Hp; simpl; [done |].
  assert (Hl : forall x, In x l -> p x = true -> q x = true).
  { intros x Hx. apply H. by right. }
  destruct Hin as [-> | Hin].
  - rewrite Hq, Hp. simpl. pose proof (cnt_le l p q Hl). unfold cnt in *. lia.
  - specialize (IH Hl Hin Hq Hp).
    destruct (p b) eqn:Hpb.
    + rewrite (H b (or_introl eq_refl) Hpb). simpl. lia.
    + destruct (q b); simpl; lia.
Qed.

Lemma cnt_zero {X} (l : list X) (p : X -> bool) x :
  cnt l p = 0 -> In x l -> p x = false.
Proof.
  unfold cnt. intros H Hin. destruct (p x) eqn:Hp; [| done].
  assert (Hf : In x (List.filter p l)) by (apply filter_In; done).
  destruct (List.filter p l); [done | discriminate].
Qed.

Lemma cnt_pos {X} (l : list X) (p : X -> bool) x :
  In x l -> p x = true -> 0 < cnt l p.
Proof.
  intros Hin Hp. destruct (cnt l p) eqn:Hc; [| lia].
  rewrite (cnt_zero l p x Hc Hin) in Hp. discriminate.
Qed.

Lemma cnt_ext {X} (l : list X) (p q : X -> bool) :
  (forall x, In x l -> p x = q x) -> cnt l p = cnt l q.
Proof.
  intros H. apply Nat.le_antisymm; apply cnt_le; intros x Hx; by rewrite H.
Qed.

(** With exactly one entry set, two set entries coincide. *)
Lemma cnt_one_unique {X} (l : list X) (p : X -> bool) x y :
  NoDup l -> cnt l p = 1 -> In x l -> In y l ->
  p x = true -> p y = true -> x = y.
Proof.
  unfold cnt. intros Hnd Hc Hx Hy Hpx Hpy.
  assert (Hnd' : NoDup (List.filter p l)) by (by apply NoDup_filter).
  assert (Hfx : In x (List.filter p l)) by (by apply filter_In).
  assert (Hfy : In y (List.filter p l)) by (by apply filter_In).
  destruct (List.filter p l) as [| a [| b r]]; simpl in *; try done.
  destruct Hfx as [<- | []], Hfy as [<- | []]. done.
Qed.

Lemma in_idx2 d1 d2 c : In c (idx2 d1 d2) <-> c.1 < d1 /\ c.2 < d2.
Proof.
  destruct c as [a b]. unfold idx2. rewrite in_prod_iff, !in_seq. simpl. lia.
Qed.

Lemma in_idx3 d1 d2 d3 c :
  In c (idx3 d1 d2 d3) <-> c.1.1 < d1 /\ c.1.2 < d2 /\ c.2 < d3.
Proof.
  destruct c as [[a b] n]. unfold idx3.
  rewrite in_prod_iff, in_idx2, in_seq. simpl. lia.
Qed.

Lemma NoDup_list_prod {A B} (l : list A) (l' : list B) :
  NoDup l -> NoDup l' -> NoDup (list_prod l l').
Proof.
  intros Hl Hl'. induction Hl as [| a l Ha Hl IH]; simpl; [constructor |].
  apply NoDup_app; [| done |].
  - apply Finite.Injective_map_NoDup; [| done]. intros x y Hxy. congruence.
  - intros [a' b'] Hin1 Hin2.
    apply in_map_iff in Hin1 as (y & Heq & _).
    apply in_prod_iff in Hin2 as [Hin2 _].
    inversion Heq; subst. by apply Ha.
Qed.

Lemma NoDup_idx2 d1 d2 : NoDup (idx2 d1 d2).
Proof. apply NoDup_list_prod; apply seq_NoDup. Qed.

Lemma NoDup_idx3 d1 d2 d3 : NoDup (idx3 d1 d2 d3).
Proof. apply NoDup_list_prod; [apply NoDup_idx2 | apply seq_NoDup]. Qed.

Lemma in_nonzero2 d1 d2 p c :
  In c (nonzero2 d1 d2 p) <-> c.1 < d1 /\ c.2 < d2 /\ p c.1 c.2 = true.
Proof. unfold nonzero2. rewrite filter_In, in_idx2. tauto. Qed.

Lemma in_nonzero3 d1 d2 d3 p c :
  In c (nonzero3 d1 d2 d3 p) <->
  c.1.1 < d1 /\ c.1.2 < d2 /\ c.2 < d3 /\ p c.1.1 c.1.2 c.2 = true.
Proof. unfold nonzero3. rewrite filter_In, in_idx3. tauto. Qed.

(** ** The order on working arrays *)

Definition le3 (w' w : Working) : Prop :=
  forall i j n, get w' i j n = true -> get w i j n = true.

Lemma le3_refl w : le3 w w.
Proof. by intros i j n. Qed.

Lemma le3_trans w1 w2 w3 : le3 w1 w2 -> le3 w2 w3 -> le3 w1 w3.
Proof. intros H12 H23 i j n H. by apply H23, H12. Qed.

Lemma le3_clear si sj sn w : le3 (assign si sj sn false w) w.
Proof. intros i j n H. by apply get_clear in H as [H _]. Qed.

Lemma le3_clear_trans si sj sn w w0 :
  le3 w w0 -> le3 (assign si sj sn false w) w0.
Proof. intros H. eapply le3_trans; [apply le3_clear | done]. Qed.

Lemma wsum_mono w' w : le3 w' w -> wsum w' <= wsum w.
Proof. intros H. apply cnt_le. intros c _. apply H. Qed.

Lemma wsum_strict w' w i j n :
  le3 w' w -> i < 9 -> j < 9 -> n < 10 ->
  get w i j n = true -> get w' i j n = false -> wsum w' < wsum w.
Proof.
  intros H Hi Hj Hn Hw Hw'. unfold wsum.
  apply (cnt_lt _ _ _ (i, j, n)); cbn [fst snd]; try done.
  - intros c _. apply H.
  - apply in_idx3. cbn [fst snd]. lia.
Qed.

Lemma wsum_zero w i j n :
  wsum w = 0 -> i < 9 -> j < 9 -> n < 10 -> get w i j n = false.
Proof.
  intros H Hi Hj Hn.
  apply (cnt_zero _ _ (i, j, n) H). apply in_idx3. cbn [fst snd]. lia.
Qed.

Lemma wsum_same w' w i j n :
  le3 w' w -> wsum w' = wsum w -> i < 9 -> j < 9 -> n < 10 ->
  get w' i j n = get w i j n.
Proof.
  intros Hle Heq Hi Hj Hn.
  destruct (get w i j n) eqn:Hw, (get w' i j n) eqn:Hw'; try done.
  - pose proof (wsum_strict w' w i j n Hle Hi Hj Hn Hw Hw'). lia.
  - apply Hle in Hw'. congruence.
Qed.

(** ** Weakest preconditions for the monad

    [wp m Q E s]: run from [s], [m] ends in a state satisfying [Q a] when it
    returns [a], and in a state satisfying [E e] when it raises [e]. *)

Definition wp {S A} (m : M S A) (Q : A -> S -> Prop) (E : error -> S -> Prop)
    (s : S) : Prop :=
  match m s with
  | (s', Ok a) => Q a s'
  | (s', Err e) => E e s'
  end.

Section WP.
Context {S : Type}.
Implicit Types (s : S) (E : error -> S -> Prop).

Lemma wp_ret {A} (a : A) (Q : A -> S -> Prop) E s : Q a s -> wp (ret a) Q E s.
Proof. done. Qed.

Lemma wp_raise {A} e (Q : A -> S -> Prop) E s : E e s -> wp (raise e) Q E s.
Proof. done. Qed.

Lemma wp_get_state (Q : S -> S -> Prop) E s : Q s s -> wp get_state Q E s.
Proof. done. Qed.

Lemma wp_modify f (Q : unit -> S -> Prop) E s : Q tt (f s) -> wp (modify f) Q E s.
Proof. done. Qed.

Lemma wp_bind {A B} (m : M S A) (k : A -> M S B) (Q : B -> S -> Prop) E s :
  wp m (fun a s' => wp (k a) Q E s') E s -> wp (bind m k) Q E s.
Proof. unfold wp, bind. by destruct (m s) as [s' [a | e]]. Qed.

Lemma wp_mono {A} (m : M S A) (Q Q' : A -> S -> Prop) E E' s :
  wp m Q E s ->
  (forall a s', Q a s' -> Q' a s') -> (forall e s', E e s' -> E' e s') ->
  wp m Q' E' s.
Proof. unfold wp. destruct (m s) as [s' [a | e]]; auto. Qed.

Lemma wp_first {X} (v : list X) (Q : X -> S -> Prop) E s :
  (forall x, head v = Some x -> Q x s) -> (v = [] -> E IndexError s) ->
  wp (first v) Q E s.
Proof. destruct v as [| x v]; intros HQ HE; [by apply HE | by apply HQ]. Qed.

Lemma wp_for_each {X} (I : S -> Prop) (l : list X) (body : X -> M S unit)
    (Q : unit -> S -> Prop) E s :
  I s ->
  (forall x s', In x l -> I s' -> wp (body x) (fun _ => I) E s') ->
  (forall s', I s' -> Q tt s') ->
  wp (for_each l body) Q E s.
Proof.
  intros HI Hbody HQ. revert s HI.
  induction l as [| x l IH]; intros s HI; simpl.
  - by apply wp_ret, HQ.
  - apply wp_bind. eapply wp_mono.
    + apply Hbody; [by left | done].
    + intros [] s' HI'. apply IH; [| done].
      intros y s'' Hy. apply Hbody. by right.
    + done.
Qed.

Lemma wp_elim {A} (m : M S A) (Q : A -> S -> Prop) E s :
  wp m Q E s ->
  match (m s).2 with Ok a => Q a (m s).1 | Err e => E e (m s).1 end.
Proof. unfold wp. by destruct (m s) as [s' [a | e]]. Qed.

(** An invariant that holds in every final state, and the only exception
    is [IndexError]. *)
Definition keeps {A} (I : S -> Prop) (m : M S A) : Prop :=
  forall s, I s -> wp m (fun _ => I) (fun e s' => e = IndexError /\ I s') s.

Lemma keeps_ret {A} I (a : A) : keeps I (ret a).
Proof. by intros s HI. Qed.

Lemma keeps_index_error {A} I : keeps (A := A) I (raise IndexError).
Proof. by intros s HI. Qed.

Lemma keeps_get_state I : keeps I get_state.
Proof. by intros s HI. Qed.

Lemma keeps_modify I f : (forall s, I s -> I (f s)) -> keeps I (modify f).
Proof. intros H s HI. by apply H. Qed.

Lemma keeps_bind {A B} I (m : M S A) (k : A -> M S B) :
  keeps I m -> (forall a, keeps I (k a)) -> keeps I (bind m k).
Proof.
  intros Hm Hk s HI. apply wp_bind. eapply wp_mono; [by apply Hm | |]; cbv beta.
  - intros a s' HI'. by apply Hk.
  - done.
Qed.

Lemma keeps_first {X} I (v : list X) : keeps I (first v).
Proof. intros s HI. by apply wp_first. Qed.

Lemma keeps_for_each {X} I (l : list X) (body : X -> M S unit) :
  (forall x, In x l -> keeps I (body x)) -> keeps I (for_each l body).
Proof.
  intros H s HI. apply (wp_for_each I); [done | | done].
  intros x s' Hx HI'. by apply H.
Qed.

Lemma keeps_if {A} I (c : bool) (m1 m2 : M S A) :
  keeps I m1 -> keeps I m2 -> keeps I (if c then m1 else m2).
Proof. by destruct c. Qed.

Lemma keeps_wp {A} I (m : M S A) (Q : A -> S -> Prop) E s :
  keeps I m -> I s ->
  (forall a s', I s' -> Q a s') -> (forall s', I s' -> E IndexError s') ->
  wp m Q E s.
Proof.
  intros Hk HI HQ HE. eapply wp_mono; [by apply Hk | |]; cbv beta.
  - intros a s'. apply HQ.
  - intros e s' [-> HI']. by apply HE.
Qed.
End WP.

(** Steps through a computation that only reads, clears and loops. *)
Ltac keeps_step :=
  lazymatch goal with
  | |- keeps _ (bind _ _) => apply keeps_bind; [| intros ?]
  | |- keeps _ (ret _) => apply keeps_ret
  | |- keeps _ (raise IndexError) => apply keeps_index_error
  | |- keeps _ get_state => apply keeps_get_state
  | |- keeps _ (first _) => apply keeps_first
  | |- keeps _ (first_nonzero _ _) => apply keeps_first
  | |- keeps _ (for_each _ _) => apply keeps_for_each; intros ? _
  | |- keeps _ (if _ then _ else _) => apply keeps_if
  | |- keeps _ (modify _) => apply keeps_modify; intros ? ?
  end.

(** ** Monotonicity of Assigner and Reducer *)

Definition below (w0 : Working) : Working -> Prop := fun w => le3 w w0.

Lemma set_board_value_le3 i j n st :
  le3 (working (set_board_value i j n st)) (working st).
Proof.
  unfold set_board_value; cbn [working]. repeat apply le3_clear_trans.
  apply le3_refl.
Qed.

Lemma wr_method_1_below w0 : keeps (below w0) wr_method_1.
Proof.
  unfold wr_method_1. repeat keeps_step; cbv zeta; repeat keeps_step;
    by apply le3_clear_trans.
Qed.

Lemma wr_method_2_below w0 : keeps (below w0) wr_method_2.
Proof.
  unfold wr_method_2. repeat keeps_step; cbv zeta; repeat keeps_step;
    by apply le3_clear_trans.
Qed.

Lemma mesh_clear_below w0 is_ js vals : keeps (below w0) (mesh_clear is_ js vals).
Proof. unfold mesh_clear. repeat keeps_step. by apply le3_clear_trans. Qed.

Lemma wr_method_4_below w0 N : keeps (below w0) (wr_method_4 N).
Proof.
  unfold wr_method_4. repeat keeps_step; cbv zeta; repeat keeps_step;
    apply mesh_clear_below.
Qed.

(** Method 3 writes [True], but only into entries that were set when the
    call started: the two digits of a recorded cell were its candidates when
    it was recorded. *)

Lemma get_set_inv si sj sn w i j n :
  get (assign si sj sn true w) i j n = true ->
  si i && sj j && sn n = true \/ get w i j n = true.
Proof.
  rewrite get_assign. destruct (si i && sj j && sn n); [by left |].
  intros H. apply andb_true_iff in H. tauto.
Qed.

Lemma among_pair n m k : among [n; m] k = true <-> k = n \/ k = m.
Proof. rewrite among_spec. simpl. intuition congruence. Qed.

Lemma readd_below w0 i j i2 j2 n m w :
  below w0 w ->
  get w0 i j n = true -> get w0 i j m = true ->
  get w0 i2 j2 n = true -> get w0 i2 j2 m = true ->
  below w0 (readd i j i2 j2 n m w).
Proof.
  intros Hw Hn Hm Hn2 Hm2 a b k H. unfold readd in H.
  apply get_set_inv in H as [H | H].
  - apply andb_true_iff in H as [H Hk]. apply andb_true_iff in H as [Ha Hb].
    apply at_spec in Ha, Hb. apply among_pair in Hk. by destruct Hk; subst.
  - apply get_set_inv in H as [H | H]; [| by apply Hw].
    apply andb_true_iff in H as [H Hk]. apply andb_true_iff in H as [Ha Hb].
    apply at_spec in Ha, Hb. apply among_pair in Hk. by destruct Hk; subst.
Qed.

Lemma pair_step_below w0 i j n m w c2 :
  below w0 w ->
  get w0 i j n = true -> get w0 i j m = true ->
  get w0 c2.1 c2.2 n = true -> get w0 c2.1 c2.2 m = true ->
  below w0 (pair_step i j n m w c2).
Proof.
  intros Hw Hn Hm Hn2 Hm2. unfold pair_step.
  set (sb := (i / 3 =? c2.1 / 3) && (j / 3 =? c2.2 / 3)).
  assert (Hw1 : below w0 (if sb
      then assign (slice (i / 3 * 3) (i / 3 * 3 + 3))
             (slice (j / 3 * 3) (j / 3 * 3 + 3)) (among [n; m]) false w
      else w)).
  { destruct sb; [by apply le3_clear_trans | done]. }
  destruct (i =? c2.1); [apply readd_below; try done; by apply le3_clear_trans |].
  destruct (j =? c2.2); [apply readd_below; try done; by apply le3_clear_trans |].
  destruct (negb sb); [done | by apply readd_below].
Qed.

Lemma fold_pair_step_below w0 i j n m p w :
  below w0 w ->
  get w0 i j n = true -> get w0 i j m = true ->
  (forall c, In c p -> get w0 c.1 c.2 n = true /\ get w0 c.1 c.2 m = true) ->
  below w0 (fold_left (pair_step i j n m) p w).
Proof.
  intros Hw Hn Hm. revert w Hw.
  induction p as [| c p IH]; intros w Hw Hp; simpl; [done |].
  apply IH.
  - destruct (Hp c) as [? ?]; [by left |]. by apply pair_step_below.
  - intros c' Hc'. apply Hp. by right.
Qed.

Lemma candidates_in w i j n : In n (candidates w i j) <-> n < 10 /\ get w i j n = true.
Proof. unfold candidates. rewrite filter_In, in_seq. intuition lia. Qed.

Definition pairs_ok (w0 : Working) (pairs : gmap (nat * nat) (list (nat * nat))) : Prop :=
  forall k p c, pairs !! k = Some p -> In c p ->
                get w0 c.1 c.2 k.1 = true /\ get w0 c.1 c.2 k.2 = true.

Lemma m3_scan_below w0 found pairs w :
  below w0 w -> pairs_ok w0 pairs -> below w0 (m3_scan found pairs w).1.
Proof.
  revert pairs w. induction found as [| ij found IH]; intros pairs w Hw Hp; simpl; [done |].
  destruct (candidates w ij.1 ij.2) as [| n [| m [| ? ?]]] eqn:Hc; try done.
  assert (Hn : get w0 ij.1 ij.2 n = true).
  { apply Hw. apply (candidates_in w ij.1 ij.2 n). rewrite Hc. by left. }
  assert (Hm : get w0 ij.1 ij.2 m = true).
  { apply Hw. apply (candidates_in w ij.1 ij.2 m). rewrite Hc. right. by left. }
  assert (Hold : forall c, In c (default [] (pairs !! (n, m))) ->
                   get w0 c.1 c.2 n = true /\ get w0 c.1 c.2 m = true).
  { intros c Hin. destruct (pairs !! (n, m)) as [p |] eqn:Hl; [| done].
    apply (Hp (n, m) p c Hl Hin). }
  apply IH.
  - by apply fold_pair_step_below.
  - intros k p c Hl Hin. destruct (decide (k = (n, m))) as [-> | Hne].
    + rewrite lookup_insert_eq in Hl. inversion Hl; subst.
      apply in_app_iff in Hin as [Hin | [<- | []]]; [by apply Hold | done].
    + rewrite lookup_insert_ne in Hl by done. by apply (Hp k p c).
Qed.

Lemma m3_scan_restart found pairs w :
  (m3_scan found pairs w).2 = true ->
  exists ij, In ij found /\
    length (candidates (m3_scan found pairs w).1 ij.1 ij.2) <> 2.
Proof.
  revert pairs w. induction found as [| ij found IH]; intros pairs w; simpl; [done |].
  destruct (candidates w ij.1 ij.2) as [| n [| m [| ? ?]]] eqn:Hc; simpl;
    try (intros _; exists ij; split; [by left | by rewrite Hc]).
  intros H. destruct (IH _ _ H) as (c & Hin & Hlen).
  exists c. split; [by right | done].
Qed.

Lemma cnt_lt_witness {X} (l : list X) (p q : X -> bool) :
  cnt l p <> cnt l q -> exists x, In x l /\ p x <> q x.
Proof.
  intros H. induction l as [| a l IH]; [done |].
  destruct (Bool.bool_dec (p a) (q a)) as [Heq | Hne].
  - destruct IH as (x & Hx & Hpq).
    + intros Hc. apply H. unfold cnt in *. simpl. rewrite Heq.
      destruct (q a); simpl; lia.
    + exists x. split; [by right | done].
  - exists a. split; [by left | done].
Qed.

Lemma ncand_length w i j : ncand w i j = length (candidates w i j).
Proof. reflexivity. Qed.

(** A restart happens on a strictly smaller array. *)
Lemma m3_scan_restart_smaller w found r :
  (forall ij, In ij found -> ij.1 < 9 /\ ij.2 < 9 /\ ncand w ij.1 ij.2 = 2) ->
  r = m3_scan found ∅ w ->
  le3 r.1 w /\ (r.2 = true -> wsum r.1 < wsum w).
Proof.
  intros Hfound Hr.
  assert (Hle : le3 r.1 w).
  { rewrite Hr. apply (m3_scan_below w); [apply le3_refl | done]. }
  assert (Hres : r.2 = true ->
            exists ij, In ij found /\ length (candidates r.1 ij.1 ij.2) <> 2).
  { rewrite Hr. apply m3_scan_restart. }
  clear Hr. split; [done |]. intros Hr2.
  destruct (Hres Hr2) as ([i j] & Hin & Hlen).
  destruct (Hfound _ Hin) as (Hi & Hj & Hc). cbn [fst snd] in *.
  rewrite <- ncand_length in Hlen.
  destruct (cnt_lt_witness (seq 0 10) (get r.1 i j) (get w i j)) as (n & Hn & Hne).
  { change (ncand r.1 i j <> ncand w i j). congruence. }
  apply in_seq in Hn.
  destruct (get r.1 i j n) eqn:H1.
  - apply Hle in H1. congruence.
  - apply (wsum_strict _ _ i j n); [exact Hle | lia | lia | lia | | exact H1].
    by destruct (get w i j n).
Qed.

Lemma wr_method_3_rec_spec fuel w :
  wsum w < fuel ->
  le3 (wr_method_3_rec fuel w).1 w /\ (wr_method_3_rec fuel w).2 = Ok tt.
Proof.
  revert w. induction fuel as [| fuel IH]; intros w Hf; [lia |].
  cbn [wr_method_3_rec].
  destruct (m3_scan_restart_smaller w (nonzero2 9 9 (fun i j => ncand w i j =? 2))
              _ (fun ij H => conj (proj1 (proj1 (in_nonzero2 _ _ _ _) H))
                   (conj (proj1 (proj2 (proj1 (in_nonzero2 _ _ _ _) H)))
                      (proj1 (Nat.eqb_eq _ _)
                         (proj2 (proj2 (proj1 (in_nonzero2 _ _ _ _) H))))))
              eq_refl) as [Hle Hlt].
  destruct (m3_scan _ ∅ w) as [w' [|]]; cbn [fst snd] in *; [| done].
  destruct (IH w') as [Hle' Hok]; [specialize (Hlt eq_refl); lia |].
  split; [by eapply le3_trans | done].
Qed.

(** Method 3 always returns, and below what it started from. *)
Lemma wr_method_3_spec w :
  le3 (wr_method_3 w).1 w /\ (wr_method_3 w).2 = Ok tt.
Proof. apply wr_method_3_rec_spec. lia. Qed.

Lemma wr_method_3_below w0 : keeps (below w0) wr_method_3.
Proof.
  intros w Hw. unfold wp. destruct (wr_method_3_spec w) as [Hle Hok].
  destruct (wr_method_3 w) as [w' r]; simpl in *; subst.
  by eapply le3_trans.
Qed.

Lemma keeps_and {S A} (I J : S -> Prop) (m : M S A) :
  keeps I m -> keeps J m -> keeps (fun s => I s /\ J s) m.
Proof.
  intros HI HJ s [Hi Hj]. specialize (HI s Hi). specialize (HJ s Hj).
  unfold wp in *. destruct (m s) as [s' [a | e]]; tauto.
Qed.

Lemma wp_bind_keeps {S A B} (J : S -> Prop) (m : M S A) (k : A -> M S B)
    (Q : B -> S -> Prop) (E : error -> S -> Prop) s :
  keeps J m -> J s ->
  (forall a s', J s' -> wp (k a) Q E s') ->
  (forall s', J s' -> E IndexError s') ->
  wp (bind m k) Q E s.
Proof. intros Hk HJ HQ HE. apply wp_bind. by apply (keeps_wp J). Qed.

(** The loops of reduce_working_space, for any invariant of the four
    methods. *)
Section Reduce.
Variable I : Working -> Prop.
Hypothesis I_method_1 : keeps I wr_method_1.
Hypothesis I_method_2 : keeps I wr_method_2.
Hypothesis I_method_3 : keeps I wr_method_3.
Hypothesis I_method_4 : forall N, keeps I (wr_method_4 N).

Lemma escalate_spec Ns old_rem w :
  I w ->
  wp (escalate Ns old_rem)
     (fun r w' => I w' /\ le3 w' w /\ (r = true -> wsum w' <> old_rem))
     (fun e w' => e = IndexError /\ I w' /\ le3 w' w) w.
Proof.
  revert w. induction Ns as [| N Ns IH]; intros w HI; simpl.
  - apply wp_ret. split; [done | split; [apply le3_refl | done]].
  - apply wp_bind.
    apply (keeps_wp (fun w' => I w' /\ below w w')).
    + apply keeps_and; [apply I_method_4 | apply wr_method_4_below].
    + split; [done | apply le3_refl].
    + intros [] w1 [HI1 Hle1]. apply wp_bind, wp_get_state.
      destruct (wsum w1 =? old_rem) eqn:Hs.
      * eapply wp_mono; [by apply IH | |]; cbv beta.
        -- intros r w2 (HI2 & Hle2 & Hr). split; [done |].
           split; [by eapply le3_trans | done].
        -- intros e w2 (-> & HI2 & Hle2). split; [done |].
           split; [done | by eapply le3_trans].
      * apply wp_ret. apply Nat.eqb_neq in Hs. done.
    + intros w1 [HI1 Hle1]. done.
Qed.

Lemma rws_loop_spec fuel looped rem w :
  I w -> wsum w = rem -> rem <= fuel ->
  wp (rws_loop fuel looped rem)
     (fun r w' => I w' /\ le3 w' w /\
                  (looped = false -> r = true -> wsum w' < wsum w))
     (fun e w' => e = IndexError /\ I w' /\ le3 w' w) w.
Proof.
  revert looped rem w.
  induction fuel as [| fuel IH]; intros looped rem w HI Hrem Hfuel.
  - assert (rem = 0) as -> by lia. simpl. apply wp_ret.
    split; [done | split; [apply le3_refl | congruence]].
  - simpl. destruct (rem =? 0) eqn:Hz.
    { apply wp_ret. split; [done | split; [apply le3_refl | congruence]]. }
    apply Nat.eqb_neq in Hz.
    set (J := fun w' => I w' /\ below w w').
    assert (HJ : J w) by (split; [done | apply le3_refl]).
    apply (wp_bind_keeps J); [by apply keeps_and, wr_method_1_below | done | | done].
    intros [] wa HJa.
    apply (wp_bind_keeps J); [by apply keeps_and, wr_method_2_below | done | | done].
    intros [] wb HJb.
    apply (wp_bind_keeps J); [by apply keeps_and, wr_method_3_below | done | | done].
    intros [] w1 [HI1 Hle1]. apply wp_bind, wp_get_state.
    pose proof (wsum_mono _ _ Hle1) as Hs1.
    destruct (wsum w1 =? rem) eqn:Hs.
    + destruct looped; simpl.
      { apply wp_ret. done. }
      apply wp_bind. eapply wp_mono; [by apply escalate_spec | |]; cbv beta.
      * intros progress w2 (HI2 & Hle2 & Hp).
        pose proof (wsum_mono _ _ Hle2) as Hs2. apply Nat.eqb_eq in Hs.
        destruct progress.
        -- apply wp_bind, wp_get_state. specialize (Hp eq_refl).
           eapply wp_mono; [apply IH; [done | done | lia] | |]; cbv beta.
           ++ intros r w3 (HI3 & Hle3 & _).
              pose proof (wsum_mono _ _ Hle3) as Hs3.
              split; [done |]. split; [| intros; lia].
              eapply le3_trans; [done |]. by eapply le3_trans.
           ++ intros e w3 (-> & HI3 & Hle3). split; [done |]. split; [done |].
              eapply le3_trans; [done |]. by eapply le3_trans.
        -- apply wp_ret. split; [done |]. split; [by eapply le3_trans | done].
      * intros e w2 (-> & HI2 & Hle2). split; [done |].
        split; [done | by eapply le3_trans].
    + apply Nat.eqb_neq in Hs.
      eapply wp_mono; [apply IH; [done | done | lia] | |]; cbv beta.
      * intros r w3 (HI3 & Hle3 & _).
        pose proof (wsum_mono _ _ Hle3) as Hs3.
        split; [done |]. split; [by eapply le3_trans | intros; lia].
      * intros e w3 (-> & HI3 & Hle3). split; [done |].
        split; [done | by eapply le3_trans].
Qed.

Lemma reduce_working_space_spec w :
  I w ->
  wp reduce_working_space
     (fun r w' => I w' /\ le3 w' w /\ (r = true -> wsum w' < wsum w))
     (fun e w' => e = IndexError /\ I w' /\ le3 w' w) w.
Proof.
  intros HI. unfold reduce_working_space. apply wp_bind, wp_get_state.
  eapply wp_mono; [by apply rws_loop_spec | |]; cbv beta.
  - intros r w' (HI' & Hle & Hr). auto.
  - done.
Qed.
End Reduce.

Lemma keeps_trivial {A} (m : M Working A) :
  (forall w0, keeps (below w0) m) -> keeps (fun _ => True) m.
Proof.
  intros H w _. specialize (H w w (le3_refl w)).
  unfold wp in *. destruct (m w) as [w' [a | e]]; tauto.
Qed.

Lemma reduce_working_space_below w :
  wp reduce_working_space
     (fun r w' => le3 w' w /\ (r = true -> wsum w' < wsum w))
     (fun e w' => e = IndexError /\ le3 w' w) w.
Proof.
  eapply wp_mono.
  - apply (reduce_working_space_spec (fun _ => True)); try done;
      intros; apply keeps_trivial; intros;
      auto using wr_method_1_below, wr_method_2_below, wr_method_3_below,
        wr_method_4_below.
  - cbv beta. tauto.
  - cbv beta. tauto.
Qed.

(** ** Assigner *)

(** Decides goals made of the selectors [at_], [every], [slice] and linear
    arithmetic. *)
Ltac sel_lia :=
  unfold at_, every, slice in *;
  repeat match goal with
         | H : context [?a =? ?b] |- _ => destruct (Nat.eqb_spec a b)
         | H : context [?a <=? ?b] |- _ => destruct (Nat.leb_spec a b)
         | H : context [?a <? ?b] |- _ => destruct (Nat.ltb_spec a b)
         | |- context [?a =? ?b] => destruct (Nat.eqb_spec a b)
         | |- context [?a <=? ?b] => destruct (Nat.leb_spec a b)
         | |- context [?a <? ?b] => destruct (Nat.ltb_spec a b)
         end;
  cbn [andb orb negb] in *; try done; try lia.

(** The working array after set_board_value, entry by entry. *)
Lemma get_set_board_value i j n st a b k :
  get (working (set_board_value i j n st)) a b k = true <->
  get (working st) a b k = true /\ a < 9 /\ b < 9 /\ k < 10 /\
  ~ (a = i /\ k = n) /\ ~ (b = j /\ k = n) /\ ~ (a = i /\ b = j) /\
  ~ (a / 3 = i / 3 /\ b / 3 = j / 3 /\ k = n).
Proof.
  unfold set_board_value; cbn [working]. split.
  - intros H. pose proof (get_inb _ _ _ _ H) as (Ha & Hb & Hk).
    apply get_clear in H as [H H4]. apply get_clear in H as [H H3].
    apply get_clear in H as [H H2]. apply get_clear in H as [H H1].
    split; [done |]. repeat split; try done; intros ?; sel_lia.
  - intros (H & Ha & Hb & Hk & H1 & H2 & H3 & H4).
    rewrite !get_clear_in, H by done. sel_lia.
Qed.

Lemma board_set_board_value i j n st a b :
  bget (board (set_board_value i j n st)) a b =
  if (a <? 9) && (b <? 9)
  then (if (a =? i) && (b =? j) then n else bget (board st) a b) else 0.
Proof. unfold set_board_value; cbn [board]. apply bget_bset. Qed.

(** ** SimpleFinder

    A pass looks at 27 x 9 (or 81) groups of entries of the working array:
    a digit along a column, a digit along a row, the digits of a cell, a
    digit inside a block. *)

Inductive unit_kind :=
| ColDigit (j n : nat)
| RowDigit (i n : nat)
| CellAll (i j : nat)
| BlockDigit (x y n : nat).

Definition entries (u : unit_kind) : list (nat * nat * nat) :=
  match u with
  | ColDigit j n => map (fun i => (i, j, n)) (seq 0 9)
  | RowDigit i n => map (fun j => (i, j, n)) (seq 0 9)
  | CellAll i j => map (fun n => (i, j, n)) (seq 0 10)
  | BlockDigit x y n => map (fun c => (c.1 + x * 3, c.2 + y * 3, n)) (idx2 3 3)
  end.

Definition unit_inb (u : unit_kind) : Prop :=
  match u with
  | ColDigit j n => j < 9 /\ n < 10
  | RowDigit i n => i < 9 /\ n < 10
  | CellAll i j => i < 9 /\ j < 9
  | BlockDigit x y n => x < 3 /\ y < 3 /\ n < 10
  end.

Definition get3 (w : Working) (e : nat * nat * nat) : bool := get w e.1.1 e.1.2 e.2.

(** [e] is the one entry of the group that is set. *)
Definition sole (w : Working) (u : unit_kind) (e : nat * nat * nat) : Prop :=
  In e (entries u) /\ get3 w e = true /\
  forall e', In e' (entries u) -> get3 w e' = true -> e' = e.

(** The state after the call [set_board_value(board, working, i, j, n)]. *)
Definition do_assign (i j n : nat) (st : St) : St :=
  set_board_value i j n
    (mkSt (board st) (working st) (EAssign (working st) i j n :: trace st)).

Lemma assign_cell_run i j n st : assign_cell i j n st = (do_assign i j n st, Ok tt).
Proof. reflexivity. Qed.

Lemma working_do_assign i j n st :
  working (do_assign i j n st) = working (set_board_value i j n st).
Proof. reflexivity. Qed.

Lemma board_do_assign i j n st :
  board (do_assign i j n st) = board (set_board_value i j n st).
Proof. reflexivity. Qed.

Lemma trace_do_assign i j n st :
  trace (do_assign i j n st) = EAssign (working st) i j n :: trace st.
Proof. reflexivity. Qed.

Lemma cnt_map {X Y} (f : X -> Y) (l : list X) (p : Y -> bool) :
  cnt (map f l) p = cnt l (fun x => p (f x)).
Proof.
  unfold cnt. induction l as [| x l IH]; simpl; [done |].
  destruct (p (f x)); simpl; by rewrite IH.
Qed.

Lemma entries_inb u e :
  unit_inb u -> In e (entries u) -> e.1.1 < 9 /\ e.1.2 < 9 /\ e.2 < 10.
Proof.
  destruct u; cbn [entries unit_inb]; intros Hu Hin;
    apply in_map_iff in Hin as (c & <- & Hc);
    try apply in_seq in Hc; try apply in_idx2 in Hc; cbn [fst snd]; lia.
Qed.

Lemma NoDup_entries u : NoDup (entries u).
Proof.
  destruct u; cbn [entries]; apply Finite.Injective_map_NoDup;
    try apply seq_NoDup; try apply NoDup_idx2;
    intros a b Hab; try congruence.
  destruct a, b; cbn [fst snd] in *. f_equal; injection Hab; lia.
Qed.

Lemma sole_of_cnt w u e :
  cnt (entries u) (get3 w) = 1 -> In e (entries u) -> get3 w e = true -> sole w u e.
Proof.
  intros Hc Hin He. split; [done |]. split; [done |]. intros e' Hin' He'.
  by apply (cnt_one_unique (entries u) (get3 w)); try apply NoDup_entries.
Qed.

(** A pass keeps every property that set_board_value keeps when it is
    called on a candidate that is still set and that was the only one of
    its group when the pass started. *)
Section Finder.
Variable I : St -> Prop.
Variable w0 : Working.
Hypothesis I_assign : forall st u i j n,
  I st -> le3 (working st) w0 -> unit_inb u -> sole w0 u (i, j, n) ->
  get (working st) i j n = true -> I (do_assign i j n st).

Definition finder_inv (st : St) : Prop := I st /\ le3 (working st) w0.
Definition finder_err (e : error) (st : St) : Prop := e = IndexError /\ finder_inv st.

Lemma assign_cell_spec st u i j n :
  finder_inv st -> unit_inb u -> cnt (entries u) (get3 w0) = 1 ->
  In (i, j, n) (entries u) -> get (working st) i j n = true ->
  wp (assign_cell i j n)
     (fun _ st' => finder_inv st' /\ wsum (working st') < wsum w0) finder_err st.
Proof.
  intros [HI Hle] Hu Hc Hin Hget. unfold wp. rewrite assign_cell_run.
  destruct (entries_inb u _ Hu Hin) as (Hi & Hj & Hn). cbn [fst snd] in Hi, Hj, Hn.
  assert (Hle' : le3 (working (do_assign i j n st)) (working st)).
  { rewrite working_do_assign. apply set_board_value_le3. }
  split; [split |].
  - apply (I_assign st u); try done. apply sole_of_cnt; try done. by apply Hle.
  - by eapply le3_trans.
  - apply Nat.lt_le_trans with (wsum (working st)); [| by apply wsum_mono].
    apply (wsum_strict _ _ i j n); try done.
    rewrite working_do_assign.
    destruct (get (working (set_board_value i j n st)) i j n) eqn:Hg; [| done].
    apply get_set_board_value in Hg. tauto.
Qed.

Lemma fsv_body_spec axis ab st :
  axis <= 2 -> ab.1 < 9 -> ab.2 < (if axis =? 2 then 9 else 10) ->
  line_count w0 axis ab.1 ab.2 = 1 ->
  finder_inv st ->
  wp (fsv_body axis ab)
     (fun _ st' => finder_inv st' /\ wsum (working st') < wsum w0) finder_err st.
Proof.
  destruct ab as [a b]. cbn [fst snd]. intros Hax Ha Hb Hc Hinv.
  unfold fsv_body. apply wp_bind, wp_get_state. cbv zeta. cbn [fst snd].
  destruct axis as [| [| axis]]; cbn [line_count Nat.eqb] in Hb, Hc.
  - apply wp_bind, wp_first; [| done]. intros i Hi.
    apply head_Some_elem_of, list_elem_of_In, filter_In in Hi as [Hi Hg].
    apply in_seq in Hi.
    apply (assign_cell_spec st (ColDigit a b)); cbn [entries unit_inb]; try done.
    + by rewrite cnt_map.
    + apply in_map_iff. exists i. split; [done | apply in_seq; lia].
  - apply wp_bind, wp_first; [| done]. intros j Hj.
    apply head_Some_elem_of, list_elem_of_In, filter_In in Hj as [Hj Hg].
    apply in_seq in Hj.
    apply (assign_cell_spec st (RowDigit a b)); cbn [entries unit_inb]; try done.
    + by rewrite cnt_map.
    + apply in_map_iff. exists j. split; [done | apply in_seq; lia].
  - assert (axis = 0) as -> by lia. cbn [Nat.eqb] in Hb.
    apply wp_bind, wp_first; [| done]. intros n Hn.
    apply head_Some_elem_of, list_elem_of_In, filter_In in Hn as [Hn Hg].
    apply in_seq in Hn.
    apply (assign_cell_spec st (CellAll a b)); cbn [entries unit_inb]; try done.
    + by rewrite cnt_map.
    + apply in_map_iff. exists n. split; [done | apply in_seq; lia].
Qed.

Lemma block_cnt w x y n :
  cnt (idx2 3 3) (fun c => block_get w x y c.1 c.2 n)
  = cnt (entries (BlockDigit x y n)) (get3 w).
Proof.
  cbn [entries]. rewrite cnt_map. apply cnt_ext. intros c _.
  unfold block_get, get3. cbn [fst snd]. f_equal; lia.
Qed.

Lemma fsvb_body_spec xyn st :
  xyn.1.1 < 3 -> xyn.1.2 < 3 -> xyn.2 < 10 ->
  cnt (idx2 3 3) (fun c => block_get w0 xyn.1.1 xyn.1.2 c.1 c.2 xyn.2) = 1 ->
  finder_inv st ->
  working st = w0 \/ wsum (working st) < wsum w0 ->
  wp (fsvb_body xyn)
     (fun _ st' => finder_inv st' /\ wsum (working st') < wsum w0) finder_err st.
Proof.
  destruct xyn as [[x y] n]. cbn [fst snd]. intros Hx Hy Hn Hc Hinv Hfresh.
  unfold fsvb_body. apply wp_bind, wp_get_state. cbv zeta. cbn [fst snd].
  rewrite block_cnt in Hc.
  assert (Hlen : length (block_positions (working st) x y n)
                 = cnt (entries (BlockDigit x y n)) (get3 (working st))).
  { rewrite <- block_cnt. reflexivity. }
  assert (Hle1 : length (block_positions (working st) x y n) <= 1).
  { rewrite Hlen, <- Hc. apply cnt_le. intros e _. apply Hinv. }
  assert (Hmem : forall c, In c (block_positions (working st) x y n) ->
            In (c.1 + x * 3, c.2 + y * 3, n) (entries (BlockDigit x y n)) /\
            get (working st) (c.1 + x * 3) (c.2 + y * 3) n = true).
  { intros c Hin. apply in_nonzero2 in Hin as (H1 & H2 & Hg). split.
    - cbn [entries]. apply in_map_iff. exists c. split; [done |]. by apply in_idx2.
    - unfold block_get in Hg. rewrite <- Hg. f_equal; lia. }
  destruct (block_positions (working st) x y n) as [| c [| c' l]];
    cbn [length] in Hle1; [| | lia].
  - cbn [for_each]. apply wp_ret. split; [done |].
    destruct Hfresh as [Heq | Hlt]; [| done].
    rewrite Heq in Hlen. cbn [length] in Hlen. lia.
  - cbn [for_each]. destruct (Hmem c) as [Hin Hg]; [by left |].
    apply wp_bind. eapply wp_mono.
    + by apply (assign_cell_spec st (BlockDigit x y n)).
    + intros [] st' H. by apply wp_ret.
    + done.
Qed.

Lemma find_simple_values_spec axis st0 :
  axis <= 2 -> working st0 = w0 -> I st0 ->
  wp (find_simple_values axis)
     (fun r st' => finder_inv st' /\ (r = true -> wsum (working st') < wsum w0))
     finder_err st0.
Proof.
  intros Hax Hw HI. unfold find_simple_values.
  apply wp_bind, wp_get_state. cbv zeta. rewrite Hw.
  assert (Hinv : finder_inv st0) by (split; [done | rewrite Hw; apply le3_refl]).
  set (found := nonzero2 _ _ _).
  assert (Hf : forall ab, In ab found ->
            ab.1 < 9 /\ ab.2 < (if axis =? 2 then 9 else 10) /\
            line_count w0 axis ab.1 ab.2 = 1).
  { intros ab Hin. apply in_nonzero2 in Hin as (H1 & H2 & H3).
    apply Nat.eqb_eq in H3. done. }
  clearbody found. destruct found as [| ab rest]; cbn [length Nat.eqb for_each];
    [by apply wp_ret |].
  apply wp_bind, wp_bind.
  destruct (Hf ab) as (H1 & H2 & H3); [by left |].
  eapply wp_mono; [by apply fsv_body_spec | | done].
  intros [] st1 Hst1.
  apply (wp_for_each (fun st => finder_inv st /\ wsum (working st) < wsum w0));
    [done | |].
  - intros x st' Hx [Hinv' Hlt].
    destruct (Hf x) as (H1' & H2' & H3'); [by right |].
    by apply fsv_body_spec.
  - intros st' [Hinv' Hlt]. by apply wp_ret.
Qed.

Lemma find_simple_values_in_block_spec st0 :
  working st0 = w0 -> I st0 ->
  wp find_simple_values_in_block
     (fun r st' => finder_inv st' /\ (r = true -> wsum (working st') < wsum w0))
     finder_err st0.
Proof.
  intros Hw HI. unfold find_simple_values_in_block.
  apply wp_bind, wp_get_state. cbv zeta. rewrite Hw.
  assert (Hinv : finder_inv st0) by (split; [done | rewrite Hw; apply le3_refl]).
  set (found := nonzero3 _ _ _ _).
  assert (Hf : forall c, In c found ->
            c.1.1 < 3 /\ c.1.2 < 3 /\ c.2 < 10 /\
            cnt (idx2 3 3) (fun d => block_get w0 c.1.1 c.1.2 d.1 d.2 c.2) = 1).
  { intros c Hin. apply in_nonzero3 in Hin as (H1 & H2 & H3 & H4).
    apply Nat.eqb_eq in H4. done. }
  clearbody found. destruct found as [| c rest]; cbn [length Nat.eqb for_each];
    [by apply wp_ret |].
  apply wp_bind, wp_bind.
  destruct (Hf c) as (H1 & H2 & H3 & H4); [by left |].
  eapply wp_mono; [apply fsvb_body_spec; try done; by left | | done].
  intros [] st1 Hst1.
  apply (wp_for_each (fun st => finder_inv st /\ wsum (working st) < wsum w0));
    [done | |].
  - intros x st' Hx [Hinv' Hlt].
    destruct (Hf x) as (H1' & H2' & H3' & H4'); [by right |].
    apply fsvb_body_spec; try done. by right.
  - intros st' [Hinv' Hlt]. by apply wp_ret.
Qed.
End Finder.

(** ** SolverLoop *)

Definition is_control (e : event) : Prop :=
  match e with EAssign _ _ _ _ => False | _ => True end.

Definition log (e : event) (st : St) : St :=
  mkSt (board st) (working st) (e :: trace st).

Lemma keeps_down_closed {A} (P : Working -> Prop) (m : M Working A) :
  (forall w w', P w -> le3 w' w -> P w') ->
  (forall w0, keeps (below w0) m) -> keeps P m.
Proof.
  intros Hdown Hm w HP. specialize (Hm w w (le3_refl w)).
  unfold wp in *. destruct (m w) as [w' [a | e]].
  - by apply (Hdown w).
  - destruct Hm as [-> Hle]. split; [done | by apply (Hdown w)].
Qed.

(** The solver loop keeps every property [I] of the state that the calls of
    set_board_value made by the finders keep, that the four reducer methods
    keep, and that does not depend on the pass and reducer entries of the
    trace; it halts before its fuel, the initial sum, runs out. *)
Section Solve.
Variable I : St -> Prop.
Hypothesis I_assign : forall w0 st u i j n,
  I st -> le3 (working st) w0 -> unit_inb u -> sole w0 u (i, j, n) ->
  get (working st) i j n = true -> I (do_assign i j n st).
Hypothesis I_method_1 : forall b tr, keeps (fun w => I (mkSt b w tr)) wr_method_1.
Hypothesis I_method_2 : forall b tr, keeps (fun w => I (mkSt b w tr)) wr_method_2.
Hypothesis I_method_3 : forall b tr, keeps (fun w => I (mkSt b w tr)) wr_method_3.
Hypothesis I_method_4 : forall b tr N, keeps (fun w => I (mkSt b w tr)) (wr_method_4 N).
Hypothesis I_log : forall e st, is_control e -> I st -> I (log e st).

Definition step_post (st : St) (r : bool) (st' : St) : Prop :=
  I st' /\ le3 (working st') (working st) /\
  (r = true -> wsum (working st') < wsum (working st)).
Definition step_err (st : St) (e : error) (st' : St) : Prop :=
  e = IndexError /\ I st' /\ le3 (working st') (working st).

Lemma logged_pass_spec axis st :
  axis <= 3 -> I st -> wp (logged_pass axis) (step_post st) (step_err st) st.
Proof.
  intros Hax HI.
  assert (H : wp (if axis =? 3 then find_simple_values_in_block
                  else find_simple_values axis)
                (fun r st' => finder_inv I (working st) st' /\
                              (r = true -> wsum (working st') < wsum (working st)))
                (finder_err I (working st)) st).
  { destruct (Nat.eqb_spec axis 3).
    - apply find_simple_values_in_block_spec; try done. apply I_assign.
    - apply find_simple_values_spec; try done; [apply I_assign | lia]. }
  unfold wp, logged_pass in *.
  destruct ((if axis =? 3 then find_simple_values_in_block
             else find_simple_values axis) st) as [st' [r | e]]; cbn [fst snd].
  - destruct H as [[HI' Hle] Hr]. split; [| done].
    by apply (I_log (EPass axis _) st').
  - destruct H as [-> [HI' Hle]]. split; [done |]. split; [| done].
    by apply (I_log (EPass axis _) st').
Qed.

Lemma logged_reduce_spec st :
  I st -> wp logged_reduce (step_post st) (step_err st) st.
Proof.
  intros HI.
  pose proof (reduce_working_space_spec
                (fun w => I (mkSt (board st) w (trace st)))
                (I_method_1 _ _) (I_method_2 _ _) (I_method_3 _ _)
                (I_method_4 _ _) (working st)) as H.
  unfold wp, logged_reduce, on_working in *.
  destruct (reduce_working_space (working st)) as [w' [r | e]]; cbn [fst snd].
  - destruct H as (HI' & Hle & Hr); [by destruct st |]. split; [| done].
    by apply (I_log (EReduce _) (mkSt (board st) w' (trace st))).
  - destruct H as (-> & HI' & Hle); [by destruct st |].
    split; [done |]. split; [| done].
    by apply (I_log (EReduce _) (mkSt (board st) w' (trace st))).
Qed.

Definition axes_post (axes : list nat) (nf : nat) (st : St)
    (r : option nat) (st' : St) : Prop :=
  I st' /\ le3 (working st') (working st) /\
  match r with
  | Some nf' => nf' < 4 /\
      (wsum (working st') < wsum (working st) \/ nf' = nf + length axes)
  | None => True
  end.

Lemma axes_loop_spec axes nf st :
  (forall a, In a axes -> a <= 3) -> nf + length axes <= 7 -> nf < 4 -> I st ->
  wp (axes_loop axes nf) (axes_post axes nf st) (step_err st) st.
Proof.
  revert nf st. induction axes as [| axis axes IH]; intros nf st Hax Hlen Hnf HI.
  - cbn [axes_loop]. apply wp_ret. split; [done |]. split; [apply le3_refl |].
    cbn [length]. lia.
  - cbn [axes_loop]. apply wp_bind.
    eapply wp_mono; [apply logged_pass_spec; [apply Hax; by left | done] | | done].
    intros ok st1 (HI1 & Hle1 & Hok). cbn [length] in Hlen.
    pose proof (wsum_mono _ _ Hle1) as Hs1.
    assert (Hax' : forall a, In a axes -> a <= 3) by (intros a Ha; apply Hax; by right).
    destruct ok.
    + specialize (Hok eq_refl).
      eapply wp_mono; [apply (IH nf st1); try done; lia | |].
      * intros r st2 (HI2 & Hle2 & Hr). split; [done |].
        split; [by eapply le3_trans |].
        pose proof (wsum_mono _ _ Hle2) as Hs2.
        destruct r as [nf' |]; [| done]. split; [tauto | left; lia].
      * intros e st2 (-> & HI2 & Hle2). split; [done |].
        split; [done | by eapply le3_trans].
    + destruct (Nat.eqb_spec (nf + 1) 4) as [H4 | H4].
      * apply wp_bind.
        eapply wp_mono; [by apply logged_reduce_spec | |].
        -- intros progress st2 (HI2 & Hle2 & Hp).
           destruct progress; apply wp_ret.
           ++ split; [done |]. split; [by eapply le3_trans |].
              split; [lia | left]. specialize (Hp eq_refl). lia.
           ++ split; [done |]. split; [by eapply le3_trans | done].
        -- intros e st2 (-> & HI2 & Hle2). split; [done |].
           split; [done | by eapply le3_trans].
      * eapply wp_mono; [apply (IH (nf + 1) st1); try done; lia | |].
        -- intros r st2 (HI2 & Hle2 & Hr). split; [done |].
           split; [by eapply le3_trans |].
           pose proof (wsum_mono _ _ Hle2) as Hs2.
           destruct r as [nf' |]; [| done]. cbn [length].
           split; [tauto | lia].
        -- intros e st2 (-> & HI2 & Hle2). split; [done |].
           split; [done | by eapply le3_trans].
Qed.

Lemma solve_loop_spec fuel nf st :
  nf < 4 -> I st -> wsum (working st) <= fuel ->
  I (solve_loop fuel nf st).1 /\
  le3 (working (solve_loop fuel nf st).1) (working st) /\
  (solve_loop fuel nf st).2 <> Timeout /\
  ((solve_loop fuel nf st).2 = Solved -> wsum (working (solve_loop fuel nf st).1) = 0).
Proof.
  revert nf st. induction fuel as [| fuel IH]; intros nf st Hnf HI Hfuel.
  - cbn [solve_loop]. assert (wsum (working st) = 0) as -> by lia.
    cbn [Nat.eqb fst snd]. repeat split; try done; try apply le3_refl; lia.
  - cbn [solve_loop]. destruct (Nat.eqb_spec (wsum (working st)) 0) as [Hz | Hz].
    { cbn [fst snd]. repeat split; try done; try apply le3_refl. }
    assert (H : wp (axes_loop [0; 1; 2; 3] nf) (axes_post [0; 1; 2; 3] nf st)
                  (step_err st) st).
    { apply axes_loop_spec; try done; [| cbn [length]; lia].
      intros a Ha. cbn [In] in Ha. lia. }
    unfold wp, axes_post, step_err in H. cbn [length] in H.
    destruct (axes_loop [0; 1; 2; 3] nf st) as [st' [[nf' |] | e]].
    + destruct H as (HI' & Hle & Hnf' & Hs).
      assert (Hlt : wsum (working st') < wsum (working st)) by lia.
      destruct (IH nf' st') as (HI2 & Hle2 & Ht & Hsol); try done; [lia |].
      split; [done |]. split; [by eapply le3_trans | done].
    + destruct H as (HI' & Hle & _). done.
    + destruct H as (-> & HI' & Hle). done.
Qed.
End Solve.

(** ** Properties of every run *)

Lemma keeps_methods_down_closed (P : Working -> Prop) :
  (forall w w', P w -> le3 w' w -> P w') ->
  keeps P wr_method_1 /\ keeps P wr_method_2 /\ keeps P wr_method_3 /\
  forall N, keeps P (wr_method_4 N).
Proof.
  intros Hdown. repeat split; try intros N; apply keeps_down_closed;
    auto using wr_method_1_below, wr_method_2_below, wr_method_3_below,
      wr_method_4_below.
Qed.

(** The loop halts: the fuel of solve_sudoku, the initial sum of the working
    array, is never used up, and Solved is only reported with sum zero. *)
Lemma solve_sudoku_halts b :
  (solve_sudoku b).2 <> Timeout /\
  ((solve_sudoku b).2 = Solved -> wsum (working (solve_sudoku b).1) = 0) /\
  le3 (working (solve_sudoku b).1) (init_working b).
Proof.
  unfold solve_sudoku. cbv zeta.
  destruct (keeps_methods_down_closed (fun _ => True)) as (H1 & H2 & H3 & H4); [done |].
  destruct (solve_loop_spec (fun _ => True)) with
    (fuel := wsum (init_working b)) (nf := 0) (st := mkSt b (init_working b) [])
    as (_ & Hle & Ht & Hs); try done; cbn [working]; lia || tauto.
Qed.

(** Candidates sit on blank cells only, and the cells given in [b0] keep
    their value. *)
Definition blank_cand (b : Board) (w : Working) : Prop :=
  forall i j n, get w i j n = true -> bget b i j = 0.

Definition givens_kept (b0 : Board) (st : St) : Prop :=
  blank_cand (board st) (working st) /\
  (forall i j, i < 9 -> j < 9 -> bget b0 i j <> 0 -> bget (board st) i j = bget b0 i j) /\
  (forall w i j n, In (EAssign w i j n) (trace st) -> bget b0 i j = 0).

Lemma get_init_working b i j n :
  get (init_working b) i j n = true <->
  i < 9 /\ j < 9 /\ 1 <= n <= 9 /\ bget b i j = 0 /\
  (forall j', j' < 9 -> bget b i j' <> n) /\
  (forall i', i' < 9 -> bget b i' j <> n) /\
  (forall i' j', i' < 9 -> j' < 9 -> i' / 3 = i / 3 -> j' / 3 = j / 3 ->
                 bget b i' j' <> n).
Proof.
  unfold init_working. rewrite get_tab3. rewrite !andb_true_iff, !negb_true_iff.
  rewrite !Nat.ltb_lt, !Nat.leb_le, Nat.eqb_eq.
  rewrite <- !not_true_iff_false, !existsb_exists.
  split.
  - intros (((Hi & Hj) & Hn) & (((((Hb & Hn1) & Hn9) & Hr) & Hc) & Hk)).
    repeat split; try done; try lia.
    + intros j' Hj' Heq. apply Hr. exists j'. rewrite in_seq, Nat.eqb_eq. lia.
    + intros i' Hi' Heq. apply Hc. exists i'. rewrite in_seq, Nat.eqb_eq. lia.
    + intros i' j' Hi' Hj' Hbi Hbj Heq. apply Hk.
      exists (i' mod 3, j' mod 3). rewrite in_idx2, Nat.eqb_eq. cbn [fst snd].
      split; [lia |]. rewrite <- Heq. f_equal; lia.
  - intros (Hi & Hj & Hn & Hb & Hr & Hc & Hk).
    repeat split; try done; try lia.
    + intros (j' & Hj' & Heq). apply in_seq in Hj'. apply Nat.eqb_eq in Heq.
      apply (Hr j'); [lia | done].
    + intros (i' & Hi' & Heq). apply in_seq in Hi'. apply Nat.eqb_eq in Heq.
      apply (Hc i'); [lia | done].
    + intros (c & Hc' & Heq). apply in_idx2 in Hc'. apply Nat.eqb_eq in Heq.
      apply (Hk (3 * (i / 3) + c.1) (3 * (j / 3) + c.2)); try done; lia.
Qed.

Lemma blank_cand_down b w w' : blank_cand b w -> le3 w' w -> blank_cand b w'.
Proof. intros H Hle i j n Hg. by apply (H i j n), Hle. Qed.

Lemma givens_kept_assign b0 st u w0 i j n :
  givens_kept b0 st -> unit_inb u -> sole w0 u (i, j, n) ->
  get (working st) i j n = true -> givens_kept b0 (do_assign i j n st).
Proof.
  intros (Hbc & Hg & Hcalls) Hu [Hin _] Hget.
  destruct (entries_inb u _ Hu Hin) as (Hi & Hj & Hn). cbn [fst snd] in Hi, Hj, Hn.
  pose proof (Hbc i j n Hget) as Hblank.
  assert (Hb0 : bget b0 i j = 0).
  { destruct (Nat.eq_dec (bget b0 i j) 0) as [H0 | H0]; [done |].
    rewrite (Hg i j) in Hblank by done. done. }
  split; [| split].
  - intros a b k Hk. rewrite working_do_assign in Hk.
    apply get_set_board_value in Hk as (Hk & Ha & Hb & _ & _ & _ & Hne & _).
    rewrite board_do_assign, board_set_board_value.
    destruct (Nat.ltb_spec a 9), (Nat.ltb_spec b 9); try lia. cbn [andb].
    destruct (Nat.eqb_spec a i), (Nat.eqb_spec b j); cbn [andb]; try tauto;
      by apply (Hbc a b k).
  - intros a b Ha Hb Hne.
    rewrite board_do_assign, board_set_board_value.
    destruct (Nat.ltb_spec a 9), (Nat.ltb_spec b 9); try lia. cbn [andb].
    destruct (Nat.eqb_spec a i), (Nat.eqb_spec b j); cbn [andb]; subst;
      try by apply Hg.
    done.
  - intros w a b k Hev. rewrite trace_do_assign in Hev.
    destruct Hev as [Heq | Hev]; [| by apply (Hcalls w a b k)].
    by inversion Heq; subst.
Qed.

Lemma givens_kept_down b0 bb tr w w' :
  givens_kept b0 (mkSt bb w tr) -> le3 w' w -> givens_kept b0 (mkSt bb w' tr).
Proof.
  intros (H1 & H2 & H3) Hle. split; [by eapply blank_cand_down | done].
Qed.

Lemma solve_sudoku_givens_kept b : givens_kept b (solve_sudoku b).1.
Proof.
  unfold solve_sudoku. cbv zeta.
  apply (solve_loop_spec (givens_kept b)); try done; try lia;
    try (intros bb tr;
         apply (keeps_methods_down_closed (fun w => givens_kept b (mkSt bb w tr)));
         intros w w'; apply givens_kept_down).
  - intros w0 st u i j n H _ Hu Hs Hg. by apply (givens_kept_assign b st u w0).
  - intros e st He (H1 & H2 & H3). split; [done |]. split; [done |].
    intros w i j n [Heq | Hev]; [by subst | by apply (H3 w i j n)].
  - split; [| done]. intros i j n Hg. cbn [board working] in *.
    apply get_init_working in Hg. tauto.
Qed.

(** Every call of set_board_value in the trace was made on a candidate that
    was set. *)
Definition calls_live (st : St) : Prop :=
  forall w i j n, In (EAssign w i j n) (trace st) ->
                  i < 9 /\ j < 9 /\ n < 10 /\ get w i j n = true.

Lemma solve_sudoku_calls_live b : calls_live (solve_sudoku b).1.
Proof.
  unfold solve_sudoku. cbv zeta.
  apply (solve_loop_spec calls_live); try done; try lia;
    try (intros bb tr; by apply
           (keeps_methods_down_closed (fun w => calls_live (mkSt bb w tr)))).
  - intros w0 st u i j n H _ Hu [Hin _] Hg w a c k Hev.
    destruct (entries_inb u _ Hu Hin) as (Hi & Hj & Hn). cbn [fst snd] in Hi, Hj, Hn.
    rewrite trace_do_assign in Hev. destruct Hev as [Heq | Hev]; [| by apply H].
    by inversion Heq; subst.
  - intros e st He H w i j n [Heq | Hev]; [by subst | by apply H].
Qed.

Lemma set_board_value_strict i j n st :
  i < 9 -> j < 9 -> n < 10 -> get (working st) i j n = true ->
  wsum (working (set_board_value i j n st)) < wsum (working st).
Proof.
  intros Hi Hj Hn Hg.
  apply (wsum_strict _ _ i j n); try done; [apply set_board_value_le3 |].
  destruct (get (working (set_board_value i j n st)) i j n) eqn:Hg'; [| done].
  apply get_set_board_value in Hg'. tauto.
Qed.

(** ** The order of the passes *)

Definition is_ctl (e : event) : bool :=
  match e with EAssign _ _ _ _ => false | _ => true end.

(** The pass and reducer entries of a trace, newest first. *)
Definition ctl (st : St) : list event := List.filter is_ctl (trace st).

Definition pass_event (axis : nat) (r : res bool) : event :=
  EPass axis match r with Ok true => Found | Ok false => NotFound | Err _ => Crashed end.

(** Both finders only add set_board_value entries to the trace. *)
Lemma finder_ctl axis st :
  axis <= 3 ->
  ctl ((if axis =? 3 then find_simple_values_in_block
        else find_simple_values axis) st).1 = ctl st.
Proof.
  intros Hax.
  set (I := fun st' : St => ctl st' = ctl st).
  assert (HI : forall st' u i j n,
             I st' -> le3 (working st') (working st) -> unit_inb u ->
             sole (working st) u (i, j, n) ->
             get (working st') i j n = true -> I (do_assign i j n st')).
  { intros st' u i j n H _ _ _ _. unfold I, ctl in *.
    by rewrite trace_do_assign. }
  assert (H : wp (if axis =? 3 then find_simple_values_in_block
                  else find_simple_values axis)
                (fun _ st' => I st') (fun _ st' => I st') st).
  { destruct (Nat.eqb_spec axis 3) as [Heq | Hne].
    - eapply wp_mono.
      + by apply (find_simple_values_in_block_spec I (working st) HI).
      + intros r st' [[H _] _]. done.
      + intros err st' [_ [H _]]. done.
    - eapply wp_mono.
      + apply (find_simple_values_spec I (working st) HI); [lia | done | done].
      + intros r st' [[H _] _]. done.
      + intros err st' [_ [H _]]. done. }
  unfold wp in H.
  by destruct ((if axis =? 3 then find_simple_values_in_block
                else find_simple_values axis) st) as [st' [r | e]].
Qed.

Lemma logged_pass_ctl axis st :
  axis <= 3 ->
  ctl (logged_pass axis st).1 = pass_event axis (logged_pass axis st).2 :: ctl st.
Proof.
  intros Hax. unfold logged_pass. cbn [fst snd]. unfold ctl at 1. cbn [trace filter is_ctl].
  f_equal. by apply finder_ctl.
Qed.

Lemma logged_reduce_ctl st :
  ctl (logged_reduce st).1 = EReduce (logged_reduce st).2 :: ctl st.
Proof. reflexivity. Qed.

(** In a well-ordered history, newest first, the entry after a successful
    pass over [axis] is a pass over the next axis of the cycle 0, 1, 2, 3. *)
Fixpoint well_ordered (l : list event) : Prop :=
  match l with
  | e :: (e' :: _) as l' =>
      (forall a, e' = EPass a Found -> exists r, e = EPass (S a mod 4) r) /\
      well_ordered l'
  | _ => True
  end.

(** The next pass may be over axis [k]. *)
Definition ready (k : nat) (st : St) : Prop :=
  well_ordered (ctl st) /\
  forall a, head (ctl st) = Some (EPass a Found) -> S a mod 4 = k mod 4.

Lemma well_ordered_cons e l :
  well_ordered l ->
  (forall a, head l = Some (EPass a Found) -> exists r, e = EPass (S a mod 4) r) ->
  well_ordered (e :: l).
Proof.
  intros Hl He. destruct l as [| e' l]; [done |]. cbn [well_ordered]. split; [| done].
  intros a ->. by apply He.
Qed.

Lemma axes_loop_ready len k nf st :
  k + len = 4 -> ready k st ->
  ready 0 (axes_loop (seq k len) nf st).1.
Proof.
  revert k nf st. induction len as [| len IH]; intros k nf st Hk [Hwo Hhd].
  - cbn [seq axes_loop ret fst]. split; [done |]. intros a Ha.
    rewrite (Hhd a Ha). assert (k = 4) as -> by lia. done.
  - cbn [seq axes_loop]. unfold bind at 1.
    pose proof (logged_pass_ctl k st) as Hctl.
    assert (Hwo1 : well_ordered (ctl (logged_pass k st).1)).
    { rewrite Hctl by lia. apply well_ordered_cons; [done |].
      intros a Ha. rewrite (Hhd a Ha), (Nat.mod_small k) by lia.
      unfold pass_event. eauto. }
    destruct (logged_pass k st) as [st1 [ok | e]]; cbn [fst snd] in *.
    + destruct ok.
      * apply IH; [lia |]. split; [done |]. intros a Ha.
        rewrite Hctl in Ha by lia. cbn [pass_event head] in Ha.
        inversion Ha; subst. done.
      * destruct (nf + 1 =? 4).
        -- unfold bind. pose proof (logged_reduce_ctl st1) as Hr.
           destruct (logged_reduce st1) as [st2 [progress | e]]; cbn [fst snd] in *.
           ++ assert (Hr2 : ready 0 st2).
              { split; [| intros a Ha; rewrite Hr in Ha; done].
                rewrite Hr. apply well_ordered_cons; [done |].
                intros a Ha. rewrite Hctl in Ha by lia. done. }
              by destruct progress.
           ++ split; [| intros a Ha; rewrite Hr in Ha; done].
              rewrite Hr. apply well_ordered_cons; [done |].
              intros a Ha. rewrite Hctl in Ha by lia. done.
        -- apply IH; [lia |]. split; [done |]. intros a Ha.
           rewrite Hctl in Ha by lia. done.
    + split; [done |]. intros a Ha. rewrite Hctl in Ha by lia. done.
Qed.

Lemma solve_loop_ready fuel nf st :
  ready 0 st -> well_ordered (ctl (solve_loop fuel nf st).1).
Proof.
  revert nf st. induction fuel as [| fuel IH]; intros nf st Hr.
  - cbn [solve_loop]. destruct (wsum (working st) =? 0); apply Hr.
  - cbn [solve_loop]. destruct (wsum (working st) =? 0); [apply Hr |].
    pose proof (axes_loop_ready 4 0 nf st eq_refl Hr) as H.
    change (seq 0 4) with [0; 1; 2; 3] in H.
    destruct (axes_loop [0; 1; 2; 3] nf st) as [st' [[nf' |] | []]];
      cbn [fst snd] in *; try apply H.
    by apply IH.
Qed.

Lemma well_ordered_rev l l1 a e l2 :
  well_ordered l -> rev l = l1 ++ EPass a Found :: e :: l2 ->
  exists r, e = EPass (S a mod 4) r.
Proof.
  intros Hwo Hrev.
  assert (Hl : l = rev l2 ++ e :: EPass a Found :: rev l1).
  { rewrite <- (rev_involutive l), Hrev, rev_app_distr. cbn [rev].
    by rewrite <- !app_assoc. }
  subst l. clear Hrev. induction (rev l2) as [| x l IH].
  - cbn [app well_ordered] in Hwo. destruct Hwo as [H _]. by apply H.
  - apply IH. cbn [app] in Hwo. destruct (l ++ e :: EPass a Found :: rev l1) eqn:E.
    + by destruct l.
    + cbn [well_ordered] in Hwo. tauto.
Qed.

(** ** Method 3 on a lone naked pair *)

Lemma filter_none {X} (p : X -> bool) (l : list X) :
  (forall x, In x l -> p x = false) -> List.filter p l = [].
Proof.
  induction l as [| a l IH]; intros H; [done |]. cbn [List.filter].
  rewrite (H a) by (by left). apply IH. intros x Hx. apply H. by right.
Qed.

(** A test that holds on exactly two entries of a duplicate-free list
    selects these two, in the order of the list. *)
Lemma filter_two {X} (p : X -> bool) (l : list X) (c1 c2 : X) :
  NoDup l -> In c1 l -> In c2 l -> c1 <> c2 ->
  (forall x, In x l -> p x = true <-> x = c1 \/ x = c2) ->
  List.filter p l = [c1; c2] \/ List.filter p l = [c2; c1].
Proof.
  intros Hnd H1 H2 Hne Hp.
  assert (Hgen : forall a b, In a l -> In b l -> a <> b ->
            (forall x, In x l -> p x = true <-> x = a \/ x = b) ->
            forall l1 l2, l = l1 ++ a :: l2 -> In b l2 ->
            List.filter p l = [a; b]).
  { intros a b Ha Hb Hab Hpab l1 l2 Hl Hb2.
    apply in_split in Hb2 as (l3 & l4 & ->).
    rewrite Hl in Hnd.
    assert (Hpa : p a = true) by (apply Hpab; auto).
    assert (Hpb : p b = true) by (apply Hpab; auto).
    assert (Hfalse : forall x, In x l -> x <> a -> x <> b -> p x = false).
    { intros x Hx Hxa Hxb. apply not_true_is_false. intros Hpx.
      apply Hpab in Hpx; tauto. }
    apply NoDup_remove in Hnd as [Hnd Ha'].
    rewrite Hl. rewrite filter_app. cbn [List.filter]. rewrite Hpa.
    rewrite filter_app. cbn [List.filter]. rewrite Hpb.
    rewrite !filter_none; [done | | |].
    - intros x Hx. apply Hfalse.
      + rewrite Hl. apply in_or_app. right. right. apply in_or_app. right. by right.
      + intros ->. apply Ha'. apply in_or_app. right. apply in_or_app. right. by right.
      + intros ->. apply NoDup_app_remove_l in Hnd.
        apply NoDup_remove in Hnd as [_ Hb']. apply Hb'. apply in_or_app. by right.
    - intros x Hx. apply Hfalse.
      + rewrite Hl. apply in_or_app. right. right. apply in_or_app. by left.
      + intros ->. apply Ha'. apply in_or_app. right. apply in_or_app. by left.
      + intros ->. apply NoDup_app_remove_l in Hnd.
        apply NoDup_remove in Hnd as [_ Hb']. apply Hb'. apply in_or_app. by left.
    - intros x Hx. apply Hfalse.
      + rewrite Hl. apply in_or_app. by left.
      + intros ->. apply Ha'. apply in_or_app. by left.
      + intros ->. rewrite app_assoc in Hnd. apply NoDup_remove in Hnd as [_ Hb'].
        apply Hb'. apply in_or_app. left. apply in_or_app. by left. }
  destruct (in_split _ _ H1) as (l1 & l2 & Hl).
  assert (H2' := H2). rewrite Hl in H2'. apply in_app_or in H2' as [H2' | [H2' | H2']].
  - right. apply in_split in H2' as (l3 & l4 & ->).
    apply (Hgen c2 c1 H2 H1 (not_eq_sym Hne)) with (l1 := l3) (l2 := l4 ++ c1 :: l2).
    + intros x Hx. rewrite (Hp x Hx). tauto.
    + rewrite Hl. by rewrite <- app_assoc.
    + apply in_or_app. right. by left.
  - done.
  - left. by apply (Hgen c1 c2 H1 H2 Hne Hp l1 l2).
Qed.

Definition same_unit (c1 c2 : nat * nat) : Prop :=
  c1.1 = c2.1 \/ c1.2 = c2.2 \/ (c1.1 / 3 = c2.1 / 3 /\ c1.2 / 3 = c2.2 / 3).

(** [c] lies in a unit that holds both [c1] and [c2]. *)
Definition in_shared_unit (c c1 c2 : nat * nat) : Prop :=
  (c.1 = c1.1 /\ c.1 = c2.1) \/ (c.2 = c1.2 /\ c.2 = c2.2) \/
  (c.1 / 3 = c1.1 / 3 /\ c.1 / 3 = c2.1 / 3 /\ c.2 / 3 = c1.2 / 3 /\ c.2 / 3 = c2.2 / 3).

Lemma get_readd i j i2 j2 n m w a b k :
  a < 9 -> b < 9 -> k < 10 ->
  get (readd i j i2 j2 n m w) a b k =
  (((a =? i2) && (b =? j2)) || ((a =? i) && (b =? j))) && ((k =? n) || (k =? m))
  || get w a b k.
Proof.
  intros Ha Hb Hk. unfold readd. rewrite !get_assign.
  destruct (Nat.ltb_spec a 9), (Nat.ltb_spec b 9), (Nat.ltb_spec k 10); try lia.
  unfold at_, among. cbn [existsb andb orb].
  destruct (a =? i2), (b =? j2), (a =? i), (b =? j), (k =? n), (k =? m);
    cbn [andb orb]; try done; by destruct (get w a b k).
Qed.

Lemma slice_block i a : slice (i / 3 * 3) (i / 3 * 3 + 3) a = (a / 3 =? i / 3).
Proof.
  unfold slice.
  destruct (Nat.eqb_spec (a / 3) (i / 3)), (Nat.leb_spec (i / 3 * 3) a),
    (Nat.ltb_spec a (i / 3 * 3 + 3)); cbn [andb]; try done; lia.
Qed.

Lemma get_clear_false si sj sn w a b k :
  get w a b k = false -> get (assign si sj sn false w) a b k = false.
Proof.
  intros H. apply not_true_is_false. intros Hg. apply get_clear in Hg as [Hg _].
  congruence.
Qed.

Lemma get_clear_selected si sj sn w a b k :
  si a = true -> sj b = true -> sn k = true ->
  get (assign si sj sn false w) a b k = false.
Proof.
  intros H1 H2 H3. apply not_true_is_false. intros Hg.
  apply get_clear in Hg as [_ Hg]. rewrite H1, H2, H3 in Hg. done.
Qed.

Lemma get_clear_other si sj sn w a b k :
  a < 9 -> b < 9 -> k < 10 -> sn k = false ->
  get (assign si sj sn false w) a b k = get w a b k.
Proof.
  intros Ha Hb Hk Hs. rewrite get_clear_in by done.
  by rewrite Hs, !andb_false_r.
Qed.

(** The array of a partner step before the two cells get their digits
    back. *)
Definition pair_cleared (i j n m : nat) (w : Working) (c2 : nat * nat) : Working :=
  let w1 := if (i / 3 =? c2.1 / 3) && (j / 3 =? c2.2 / 3)
            then assign (slice (i / 3 * 3) (i / 3 * 3 + 3))
                   (slice (j / 3 * 3) (j / 3 * 3 + 3)) (among [n; m]) false w
            else w in
  if i =? c2.1 then assign (at_ i) every (among [n; m]) false w1
  else if j =? c2.2 then assign every (at_ j) (among [n; m]) false w1
  else w1.

Lemma pair_step_shared i j n m w c2 :
  same_unit (i, j) c2 ->
  pair_step i j n m w c2 = readd i j c2.1 c2.2 n m (pair_cleared i j n m w c2).
Proof.
  unfold same_unit, pair_step, pair_cleared. cbn [fst snd]. intros Hu.
  destruct (Nat.eqb_spec i c2.1); [done |].
  destruct (Nat.eqb_spec j c2.2); [done |].
  destruct (Nat.eqb_spec (i / 3) (c2.1 / 3)), (Nat.eqb_spec (j / 3) (c2.2 / 3));
    cbn [andb negb]; try done; tauto.
Qed.

Lemma pair_cleared_other i j n m w c2 a b k :
  a < 9 -> b < 9 -> k < 10 -> k <> n -> k <> m ->
  get (pair_cleared i j n m w c2) a b k = get w a b k.
Proof.
  intros Ha Hb Hk Hn Hm.
  assert (Hs : among [n; m] k = false).
  { apply not_true_is_false. rewrite among_pair. tauto. }
  unfold pair_cleared.
  destruct (_ && _), (i =? c2.1), (j =? c2.2); by rewrite ?get_clear_other.
Qed.

Lemma pair_cleared_shared i j n m w c2 a b k :
  (i, j) <> c2 -> in_shared_unit (a, b) (i, j) c2 -> k = n \/ k = m ->
  get (pair_cleared i j n m w c2) a b k = false.
Proof.
  destruct c2 as [i2 j2]. unfold in_shared_unit. cbn [fst snd].
  intros Hne Hsh Hk.
  assert (Hs : among [n; m] k = true) by (by apply among_pair).
  unfold pair_cleared. cbn [fst snd].
  destruct Hsh as [[-> ->] | [[-> ->] | (Ha & Ha2 & Hb & Hb2)]].
  - rewrite Nat.eqb_refl. apply get_clear_selected; try done. apply Nat.eqb_refl.
  - destruct (Nat.eqb_spec i i2) as [-> | _]; [done |].
    rewrite Nat.eqb_refl. apply get_clear_selected; try done. apply Nat.eqb_refl.
  - assert (Hw1 : get (assign (slice (i / 3 * 3) (i / 3 * 3 + 3))
                         (slice (j / 3 * 3) (j / 3 * 3 + 3)) (among [n; m]) false w)
                    a b k = false).
    { apply get_clear_selected; try done; rewrite slice_block; by apply Nat.eqb_eq. }
    assert (Hsb : (i / 3 =? i2 / 3) && (j / 3 =? j2 / 3) = true).
    { apply andb_true_iff. split; apply Nat.eqb_eq; congruence. }
    rewrite Hsb.
    destruct (i =? i2), (j =? j2); try done; by apply get_clear_false.
Qed.

Lemma candidates_pair w i j n m :
  candidates w i j = [n; m] ->
  n < 10 /\ m < 10 /\ get w i j n = true /\ get w i j m = true /\ ncand w i j = 2.
Proof.
  intros H.
  assert (Hn : In n (candidates w i j)) by (rewrite H; by left).
  assert (Hm : In m (candidates w i j)) by (rewrite H; right; by left).
  apply candidates_in in Hn, Hm.
  assert (Hc : ncand w i j = length (candidates w i j)) by reflexivity.
  rewrite H in Hc. tauto.
Qed.

Lemma wr_method_3_two w x y n m :
  nonzero2 9 9 (fun i j => ncand w i j =? 2) = [x; y] ->
  candidates w x.1 x.2 = [n; m] -> candidates w y.1 y.2 = [n; m] ->
  wr_method_3 w = (pair_step y.1 y.2 n m w x, Ok tt).
Proof.
  intros Hf Hx Hy. unfold wr_method_3. cbn [wr_method_3_rec]. rewrite Hf.
  cbn [m3_scan]. rewrite Hx. rewrite lookup_empty. cbn [default fold_left app].
  rewrite Hy. rewrite lookup_insert_eq. cbn [default fold_left fst snd]. done.
Qed.

Lemma pair_step_post w c c' n m :
  c.1 < 9 -> c.2 < 9 -> c'.1 < 9 -> c'.2 < 9 -> c <> c' -> same_unit c c' ->
  candidates w c.1 c.2 = [n; m] -> candidates w c'.1 c'.2 = [n; m] ->
  (forall d, d.1 < 9 -> d.2 < 9 -> d <> c -> d <> c' -> in_shared_unit d c c' ->
             get (pair_step c.1 c.2 n m w c') d.1 d.2 n = false /\
             get (pair_step c.1 c.2 n m w c') d.1 d.2 m = false) /\
  candidates (pair_step c.1 c.2 n m w c') c.1 c.2 = [n; m] /\
  candidates (pair_step c.1 c.2 n m w c') c'.1 c'.2 = [n; m].
Proof.
  destruct c as [i j], c' as [i2 j2]. cbn [fst snd].
  intros Hi Hj Hi2 Hj2 Hne Hu Hc Hc'.
  destruct (candidates_pair _ _ _ _ _ Hc) as (Hn & Hm & Hgn & Hgm & _).
  destruct (candidates_pair _ _ _ _ _ Hc') as (_ & _ & Hgn' & Hgm' & _).
  rewrite (pair_step_shared i j n m w (i2, j2) Hu). cbn [fst snd].
  assert (Hkeep : forall a b, a < 9 -> b < 9 ->
            get w a b n = true -> get w a b m = true ->
            (a = i /\ b = j) \/ (a = i2 /\ b = j2) ->
            candidates (readd i j i2 j2 n m (pair_cleared i j n m w (i2, j2))) a b
            = candidates w a b).
  { intros a b Ha Hb Han Ham Hab. unfold candidates. apply filter_ext_in.
    intros k Hk. apply in_seq in Hk. rewrite get_readd by (done || lia).
    destruct (Nat.eqb_spec k n) as [-> | Hkn].
    - rewrite Han.
      destruct Hab as [[-> ->] | [-> ->]]; rewrite !Nat.eqb_refl; cbn [andb orb];
        by rewrite ?orb_true_r.
    - destruct (Nat.eqb_spec k m) as [-> | Hkm].
      + rewrite Ham.
        destruct Hab as [[-> ->] | [-> ->]]; rewrite !Nat.eqb_refl; cbn [andb orb];
          by rewrite ?orb_true_r.
      + cbn [orb]. rewrite andb_false_r. cbn [orb].
        apply pair_cleared_other; done || lia. }
  split; [| split].
  - intros [a b]. cbn [fst snd]. intros Ha Hb Hd Hd' Hsh.
    assert (Hsel : (a =? i2) && (b =? j2) || (a =? i) && (b =? j) = false).
    { destruct (Nat.eqb_spec a i2), (Nat.eqb_spec b j2), (Nat.eqb_spec a i),
        (Nat.eqb_spec b j); cbn [andb orb]; try done; subst; tauto. }
    rewrite !get_readd, Hsel by done. cbn [andb orb].
    split; apply pair_cleared_shared; auto.
  - rewrite Hkeep; auto.
  - rewrite Hkeep; auto.
Qed.

(** ** Soundness with respect to a completion

    [s] is a complete grid: its entries are digits, two cells of one unit
    differ, and every unit holds every digit. *)

Record solution (s : Board) : Prop := {
  s_range : forall i j, i < 9 -> j < 9 -> 1 <= bget s i j <= 9;
  s_distinct : forall c c', c.1 < 9 -> c.2 < 9 -> c'.1 < 9 -> c'.2 < 9 ->
    c <> c' -> same_unit c c' -> bget s c.1 c.2 <> bget s c'.1 c'.2;
  s_col : forall j d, j < 9 -> 1 <= d <= 9 -> exists i, i < 9 /\ bget s i j = d;
  s_row : forall i d, i < 9 -> 1 <= d <= 9 -> exists j, j < 9 /\ bget s i j = d;
  s_block : forall x y d, x < 3 -> y < 3 -> 1 <= d <= 9 ->
    exists i j, i < 9 /\ j < 9 /\ i / 3 = x /\ j / 3 = y /\ bget s i j = d
}.

(** The board agrees with [s] where it is filled. *)
Definition agrees (s b : Board) : Prop :=
  forall i j, i < 9 -> j < 9 -> bget b i j <> 0 -> bget b i j = bget s i j.

(** Every blank cell still has its digit of [s] as a candidate. *)
Definition sound (s b : Board) (w : Working) : Prop :=
  forall i j, i < 9 -> j < 9 -> bget b i j = 0 -> get w i j (bget s i j) = true.

(** No candidate is a digit that the board already has in a unit of the
    cell. *)
Definition fresh (b : Board) (w : Working) : Prop :=
  forall i j n i' j', get w i j n = true -> i' < 9 -> j' < 9 ->
    same_unit (i, j) (i', j') -> (i, j) <> (i', j') -> bget b i' j' <> n.

(** Candidates are digits. *)
Definition ranged (w : Working) : Prop :=
  forall i j n, get w i j n = true -> 1 <= n <= 9.

Definition tidy (b : Board) (w : Working) : Prop :=
  blank_cand b w /\ fresh b w /\ ranged w.

Lemma tidy_down b w w' : tidy b w -> le3 w' w -> tidy b w'.
Proof.
  intros (HB & HF & HR) Hle. split; [by eapply blank_cand_down |]. split.
  - intros i j n i' j' Hg. apply HF. by apply Hle.
  - intros i j n Hg. apply (HR i j). by apply Hle.
Qed.

Lemma cnt_nonzero {X} (l : list X) (p : X -> bool) :
  negb (cnt l p =? 0) = true <-> exists x, In x l /\ p x = true.
Proof.
  rewrite negb_true_iff, Nat.eqb_neq. split.
  - intros H. unfold cnt in H.
    destruct (List.filter p l) as [| x r] eqn:E; [done |].
    exists x. apply filter_In. rewrite E. by left.
  - intros (x & Hx & Hp) H. pose proof (cnt_pos l p x Hx Hp). lia.
Qed.

Lemma combinations_spec {A} (l : list A) (k : nat) (c : list A) :
  In c (combinations l k) -> length c = k /\ incl c l /\ (NoDup l -> NoDup c).
Proof.
  revert k c. induction l as [| x l IH]; intros k c Hin.
  - destruct k; cbn [combinations] in Hin; [| done].
    destruct Hin as [<- | []]. split; [done |]. split; [by intros y |].
    intros _. constructor.
  - destruct k as [| k]; cbn [combinations] in Hin.
    + destruct Hin as [<- | []]. split; [done |]. split; [by intros y |].
      intros _. constructor.
    + apply in_app_or in Hin as [Hin | Hin].
      * apply in_map_iff in Hin as (c' & <- & Hc').
        destruct (IH k c' Hc') as (Hlen & Hincl & Hnd).
        split; [cbn [length]; lia |]. split.
        -- intros y [<- | Hy]; [by left | right; by apply Hincl].
        -- intros Hndl. apply NoDup_cons_iff in Hndl as [Hx Hndl].
           constructor; [| by apply Hnd]. intros Hx'. apply Hx. by apply Hincl.
      * destruct (IH (S k) c Hin) as (Hlen & Hincl & Hnd).
        split; [done |]. split.
        -- intros y Hy. right. by apply Hincl.
        -- intros Hndl. apply NoDup_cons_iff in Hndl as [_ Hndl]. by apply Hnd.
Qed.

Lemma NoDup_map_on {A B} (f : A -> B) (l : list A) :
  NoDup l -> (forall x y, In x l -> In y l -> f x = f y -> x = y) -> NoDup (map f l).
Proof.
  intros Hnd. induction Hnd as [| x l Hx Hnd IH]; intros Hinj; cbn [map]; constructor.
  - intros Hin. apply in_map_iff in Hin as (y & Hfy & Hy).
    assert (y = x) by (apply Hinj; [by right | by left | done]). by subst.
  - apply IH. intros a c Ha Hc. apply Hinj; by right.
Qed.

Lemma cnt_pos_inv {X} (l : list X) (p : X -> bool) :
  0 < cnt l p -> exists x, In x l /\ p x = true.
Proof.
  intros H. apply cnt_nonzero. apply negb_true_iff, Nat.eqb_neq. lia.
Qed.

Lemma same_unit_dec c1 c2 : {same_unit c1 c2} + {~ same_unit c1 c2}.
Proof.
  unfold same_unit.
  destruct (Nat.eq_dec c1.1 c2.1); [left; tauto |].
  destruct (Nat.eq_dec c1.2 c2.2); [left; tauto |].
  destruct (Nat.eq_dec (c1.1 / 3) (c2.1 / 3)); [| right; tauto].
  destruct (Nat.eq_dec (c1.2 / 3) (c2.2 / 3)); [left; tauto | right; tauto].
Qed.

Lemma pair_step_unshared i j n m w c2 :
  ~ same_unit (i, j) c2 -> pair_step i j n m w c2 = w.
Proof.
  unfold same_unit, pair_step. cbn [fst snd]. intros Hu.
  destruct (Nat.eqb_spec i c2.1); [tauto |].
  destruct (Nat.eqb_spec j c2.2); [tauto |].
  destruct (Nat.eqb_spec (i / 3) (c2.1 / 3)), (Nat.eqb_spec (j / 3) (c2.2 / 3));
    cbn [andb negb]; try done; tauto.
Qed.

Lemma pair_cleared_le3 i j n m w c2 : le3 (pair_cleared i j n m w c2) w.
Proof.
  unfold pair_cleared.
  destruct (_ && _), (i =? c2.1), (j =? c2.2);
    repeat apply le3_clear_trans; apply le3_refl.
Qed.

Lemma pair_cleared_unshared i j n m w c2 a b k :
  a < 9 -> b < 9 -> k < 10 -> ~ in_shared_unit (a, b) (i, j) c2 ->
  get (pair_cleared i j n m w c2) a b k = get w a b k.
Proof.
  destruct c2 as [i2 j2]. unfold in_shared_unit, pair_cleared. cbn [fst snd].
  intros Ha Hb Hk Hsh.
  assert (Hrow : (i =? i2) = true -> at_ i a = false).
  { intros H. apply Nat.eqb_eq in H. unfold at_. apply Nat.eqb_neq. lia. }
  assert (Hcol : (j =? j2) = true -> at_ j b = false).
  { intros H. apply Nat.eqb_eq in H. unfold at_. apply Nat.eqb_neq. lia. }
  assert (Hblk : (i / 3 =? i2 / 3) && (j / 3 =? j2 / 3) = true ->
            slice (i / 3 * 3) (i / 3 * 3 + 3) a
            && slice (j / 3 * 3) (j / 3 * 3 + 3) b = false).
  { intros H. apply andb_true_iff in H as [H1 H2]. apply Nat.eqb_eq in H1, H2.
    rewrite !slice_block. apply andb_false_iff.
    destruct (Nat.eqb_spec (a / 3) (i / 3)), (Nat.eqb_spec (b / 3) (j / 3));
      auto. lia. }
  destruct (_ && _) eqn:Eb, (i =? i2) eqn:Ei, (j =? j2) eqn:Ej;
    rewrite ?get_clear_in by done; cbn [every];
    rewrite ?Hrow, ?Hcol, ?Hblk by done; cbn [andb negb];
    rewrite ?andb_false_r, ?Hblk by done; done.
Qed.

(** What a partner step can set: what was set, and the two digits at the
    two cells. *)
Lemma pair_step_upper i j n m w c2 a b k :
  get (pair_step i j n m w c2) a b k = true ->
  get w a b k = true \/ ((k = n \/ k = m) /\ ((a, b) = (i, j) \/ (a, b) = c2)).
Proof.
  destruct (same_unit_dec (i, j) c2) as [Hu | Hu].
  - rewrite (pair_step_shared i j n m w c2 Hu). intros H.
    pose proof (get_inb _ _ _ _ H) as (Ha & Hb & Hk).
    rewrite get_readd in H by done.
    apply orb_true_iff in H as [H | H]; [right | left; by apply pair_cleared_le3 in H].
    apply andb_true_iff in H as [Hc Hd]. split.
    + apply orb_true_iff in Hd. rewrite !Nat.eqb_eq in Hd. done.
    + destruct c2 as [i2 j2]. cbn [fst snd] in Hc.
      apply orb_true_iff in Hc. rewrite !andb_true_iff, !Nat.eqb_eq in Hc.
      destruct Hc as [[-> ->] | [-> ->]]; auto.
  - rewrite (pair_step_unshared i j n m w c2 Hu). auto.
Qed.

Section Solution.
Variable s : Board.
Hypothesis Hs : solution s.

Section OnBoard.
Variable b : Board.
Hypothesis Hagree : agrees s b.

(** Where a candidate [n] is set, the cell of [s] that holds [n] in a unit
    of that cell is blank, and so has [n] as a candidate. *)
Lemma solution_cell_blank w i j n i' j' :
  tidy b w -> get w i j n = true -> i' < 9 -> j' < 9 ->
  same_unit (i, j) (i', j') -> bget s i' j' = n -> bget b i' j' = 0.
Proof.
  intros (HB & HF & _) Hg Hi' Hj' Hu Hsn.
  destruct (decide ((i, j) = (i', j'))) as [Heq | Hne].
  - inversion Heq; subst. by apply (HB i' j' (bget s i' j')).
  - destruct (Nat.eq_dec (bget b i' j') 0) as [H0 | H0]; [done |].
    exfalso. apply (HF i j n i' j'); try done.
    rewrite <- Hsn. by apply Hagree.
Qed.

Lemma solution_cell_live w0 w i j n i' j' :
  tidy b w0 -> sound s b w -> get w0 i j n = true -> i' < 9 -> j' < 9 ->
  same_unit (i, j) (i', j') -> bget s i' j' = n -> get w i' j' n = true.
Proof.
  intros Ht Hsound Hg Hi' Hj' Hu Hsn. rewrite <- Hsn. apply Hsound; try done.
  by apply (solution_cell_blank w0 i j n).
Qed.

(** Clearing entries that are not digits of [s] on blank cells keeps the
    array sound. *)
Lemma sound_clear si sj sn w :
  sound s b w ->
  (forall i j, i < 9 -> j < 9 -> bget b i j = 0 ->
               si i = true -> sj j = true -> sn (bget s i j) = true -> False) ->
  sound s b (assign si sj sn false w).
Proof.
  intros Hsound Hsel i j Hi Hj Hb.
  pose proof (s_range s Hs i j Hi Hj) as Hr.
  rewrite get_clear_in by (done || lia). rewrite (Hsound i j Hi Hj Hb), andb_true_r.
  apply negb_true_iff, not_true_is_false. intros H.
  apply andb_true_iff in H as [H H3]. apply andb_true_iff in H as [H1 H2].
  by apply (Hsel i j).
Qed.


(** *** The reducer *)

(** The invariant of the loops of a method: below the array [we] the method
    was entered with, and sound. *)
Definition sound_below (we : Working) (w : Working) : Prop :=
  le3 w we /\ sound s b w.
Definition sound_err (we : Working) (e : error) (w : Working) : Prop :=
  e = IndexError /\ sound_below we w.

Lemma band_any w x j n :
  existsb (fun xi => get w (3 * x + xi) j n) (seq 0 3) = true <->
  exists i, i / 3 = x /\ get w i j n = true.
Proof.
  rewrite existsb_exists. split.
  - intros (xi & Hxi & Hg). apply in_seq in Hxi. exists (3 * x + xi). split; [lia | done].
  - intros (i & Hi & Hg). exists (i mod 3). split; [apply in_seq; lia |].
    rewrite <- Hg. f_equal. lia.
Qed.

Lemma stack_any w i y n :
  existsb (fun yj => get w i (3 * y + yj) n) (seq 0 3) = true <->
  exists j, j / 3 = y /\ get w i j n = true.
Proof.
  rewrite existsb_exists. split.
  - intros (yj & Hyj & Hg). apply in_seq in Hyj. exists (3 * y + yj). split; [lia | done].
  - intros (j & Hj & Hg). exists (j mod 3). split; [apply in_seq; lia |].
    rewrite <- Hg. f_equal. lia.
Qed.

Lemma among_others y j j' :
  among (List.filter (fun y' => negb (y' =? j)) (seq (j / 3 * 3) 3)) j' = true ->
  y = j / 3 * 3 -> j' / 3 = j / 3 /\ j' <> j.
Proof.
  intros H _. apply among_spec, filter_In in H as [H1 H2]. apply in_seq in H1.
  apply negb_true_iff, Nat.eqb_neq in H2. lia.
Qed.

(** Method 1, first loop: digit [n] of column [j] lies in one band. *)
Lemma method_1_cols_sound we w j n :
  tidy b we -> sound_below we w -> j < 9 -> n < 10 ->
  cnt (seq 0 3) (fun x => existsb (fun xi => get we (3 * x + xi) j n) (seq 0 3)) = 1 ->
  wp (x0 <- first_nonzero 3 (fun x => existsb (fun xi => get we (3 * x + xi) j n) (seq 0 3)) ;;
      modify (assign (slice (x0 * 3) (x0 * 3 + 3))
                (among (List.filter (fun y' => negb (y' =? j)) (seq (j / 3 * 3) 3)))
                (at_ n) false))
     (fun _ => sound_below we) (sound_err we) w.
Proof.
  intros Ht [Hle Hsound] Hj Hn Hc. apply wp_bind, wp_first; [| done].
  intros x0 Hx0. apply head_Some_elem_of, list_elem_of_In, filter_In in Hx0 as [Hx0 Hany].
  apply wp_modify. split; [by apply le3_clear_trans |].
  apply sound_clear; [done |]. intros i' j' Hi' Hj' Hblank Hsi Hsj Hsn.
  apply slice_spec in Hsi. apply among_others with (y := j / 3 * 3) in Hsj as [Hbj Hne]; [| done].
  apply at_spec in Hsn.
  apply band_any in Hany as (i0 & Hi0 & Hg0).
  pose proof (s_range s Hs i' j' Hi' Hj') as Hr.
  destruct (s_col s Hs j n) as (r & Hr9 & Hsr); [done | lia |].
  assert (Hlive : get w r j n = true).
  { apply (solution_cell_live we w i0 j n); try done. right. by left. }
  assert (Hband : r / 3 = x0).
  { apply (cnt_one_unique (seq 0 3)
             (fun x => existsb (fun xi => get we (3 * x + xi) j n) (seq 0 3)));
      try done; try apply seq_NoDup; try (apply in_seq; lia).
    - apply band_any. exists r. split; [done | by apply Hle].
    - apply band_any. by exists i0. }
  apply (s_distinct s Hs (r, j) (i', j')); cbn [fst snd]; try done; try congruence.
  right. right. cbn [fst snd]. lia.
Qed.

(** Method 1, second loop: digit [n] of row [i] lies in one stack. *)
Lemma method_1_rows_sound we w i n :
  tidy b we -> sound_below we w -> i < 9 -> n < 10 ->
  cnt (seq 0 3) (fun y => existsb (fun yj => get we i (3 * y + yj) n) (seq 0 3)) = 1 ->
  wp (y0 <- first_nonzero 3 (fun y => existsb (fun yj => get we i (3 * y + yj) n) (seq 0 3)) ;;
      modify (assign (among (List.filter (fun x' => negb (x' =? i)) (seq (i / 3 * 3) 3)))
                (slice (y0 * 3) (y0 * 3 + 3)) (at_ n) false))
     (fun _ => sound_below we) (sound_err we) w.
Proof.
  intros Ht [Hle Hsound] Hi Hn Hc. apply wp_bind, wp_first; [| done].
  intros y0 Hy0. apply head_Some_elem_of, list_elem_of_In, filter_In in Hy0 as [Hy0 Hany].
  apply wp_modify. split; [by apply le3_clear_trans |].
  apply sound_clear; [done |]. intros i' j' Hi' Hj' Hblank Hsi Hsj Hsn.
  apply slice_spec in Hsj. apply among_others with (y := i / 3 * 3) in Hsi as [Hbi Hne]; [| done].
  apply at_spec in Hsn.
  apply stack_any in Hany as (j0 & Hj0 & Hg0).
  pose proof (s_range s Hs i' j' Hi' Hj') as Hr.
  destruct (s_row s Hs i n) as (q & Hq9 & Hsq); [done | lia |].
  assert (Hlive : get w i q n = true).
  { apply (solution_cell_live we w i j0 n); try done. by left. }
  assert (Hstack : q / 3 = y0).
  { apply (cnt_one_unique (seq 0 3)
             (fun y => existsb (fun yj => get we i (3 * y + yj) n) (seq 0 3)));
      try done; try apply seq_NoDup; try (apply in_seq; lia).
    - apply stack_any. exists q. split; [done | by apply Hle].
    - apply stack_any. by exists j0. }
  apply (s_distinct s Hs (i, q) (i', j')); cbn [fst snd]; try done; try congruence.
  right. right. cbn [fst snd]. lia.
Qed.

Lemma wr_method_1_sound we :
  tidy b we -> sound s b we ->
  wp wr_method_1 (fun _ => sound_below we) (sound_err we) we.
Proof.
  intros Ht Hsound. unfold wr_method_1.
  assert (H0 : sound_below we we) by (split; [apply le3_refl | done]).
  apply wp_bind, wp_get_state. cbv zeta. apply wp_bind.
  apply (wp_for_each (sound_below we)); [done | |].
  - intros [j n] w Hin Hw. apply in_nonzero2 in Hin as (Hj & Hn & Hc).
    apply Nat.eqb_eq in Hc. cbn [fst snd] in *.
    by apply method_1_cols_sound.
  - intros w1 [Hle1 Hs1]. apply wp_bind, wp_get_state.
    assert (Ht1 : tidy b w1) by (by eapply tidy_down).
    apply (wp_for_each (sound_below w1)); [split; [apply le3_refl | done] | |].
    + intros [i n] w Hin Hw. apply in_nonzero2 in Hin as (Hi & Hn & Hc).
      apply Nat.eqb_eq in Hc. cbn [fst snd] in *.
      eapply wp_mono; [by apply method_1_rows_sound | |]; cbv beta.
      * done.
      * intros e w' (-> & Hle' & Hs'). split; [done |].
        split; [by eapply le3_trans | done].
    + intros w2 [Hle2 Hs2]. split; [by eapply le3_trans | done].
Qed.


Lemma among_outside y j :
  among (List.filter (fun j' => negb (j' / 3 =? y)) (seq 0 9)) j = true -> j / 3 <> y.
Proof.
  intros H. apply among_spec, filter_In in H as [_ H]. by apply negb_true_iff, Nat.eqb_neq in H.
Qed.

Lemma block_position_live w x y n c :
  In c (block_positions w x y n) ->
  c.1 < 3 /\ c.2 < 3 /\ get w (3 * x + c.1) (3 * y + c.2) n = true.
Proof. intros H. by apply in_nonzero2 in H. Qed.

(** Method 2, first loop: digit [n] of block (x,y) lies in one row. *)
Lemma method_2_rows_sound we w x y n :
  tidy b we -> sound_below we w -> x < 3 -> y < 3 -> n < 10 ->
  cnt (seq 0 3) (fun xi =>
    negb (cnt (seq 0 3) (fun xj => block_get we x y xi xj n) =? 0)) = 1 ->
  wp (f0 <- first (map fst (block_positions w x y n)) ;;
      modify (assign (at_ (f0 + 3 * x))
                (among (List.filter (fun j => negb (j / 3 =? y)) (seq 0 9)))
                (at_ n) false))
     (fun _ => sound_below we) (sound_err we) w.
Proof.
  intros Ht [Hle Hsound] Hx Hy Hn Hc. apply wp_bind, wp_first; [| done].
  intros f0 Hf0. apply head_Some_elem_of, list_elem_of_In, in_map_iff in Hf0
    as (c & <- & Hcin).
  apply block_position_live in Hcin as (Hc1 & Hc2 & Hg).
  apply wp_modify. split; [by apply le3_clear_trans |].
  apply sound_clear; [done |]. intros i' j' Hi' Hj' Hblank Hsi Hsj Hsn.
  apply at_spec in Hsi, Hsn. apply among_outside in Hsj.
  pose proof (s_range s Hs i' j' Hi' Hj') as Hr.
  destruct (s_block s Hs x y n) as (r & q & Hr9 & Hq9 & Hrx & Hqy & Hsr); try done; [lia |].
  assert (Hlive : get w r q n = true).
  { apply (solution_cell_live we w (3 * x + c.1) (3 * y + c.2) n); try done.
    - by apply Hle.
    - right. right. cbn [fst snd]. lia. }
  assert (Hrow : r mod 3 = c.1).
  { apply (cnt_one_unique (seq 0 3) (fun xi =>
             negb (cnt (seq 0 3) (fun xj => block_get we x y xi xj n) =? 0)));
      try done; try apply seq_NoDup; try (apply in_seq; lia).
    - apply cnt_nonzero. exists (q mod 3). split; [apply in_seq; lia |].
      unfold block_get. apply Hle. rewrite <- Hlive. f_equal; lia.
    - apply cnt_nonzero. exists c.2. split; [apply in_seq; lia |].
      unfold block_get. by apply Hle. }
  apply (s_distinct s Hs (r, q) (i', j')); cbn [fst snd]; try done; try congruence.
  left. cbn [fst snd]. lia.
Qed.

(** Method 2, second loop: digit [n] of block (x,y) lies in one column. *)
Lemma method_2_cols_sound we w x y n :
  tidy b we -> sound_below we w -> x < 3 -> y < 3 -> n < 10 ->
  cnt (seq 0 3) (fun xj =>
    negb (cnt (seq 0 3) (fun xi => block_get we x y xi xj n) =? 0)) = 1 ->
  wp (f0 <- first (map snd (block_positions w x y n)) ;;
      modify (assign (among (List.filter (fun i => negb (i / 3 =? x)) (seq 0 9)))
                (at_ (f0 + 3 * y)) (at_ n) false))
     (fun _ => sound_below we) (sound_err we) w.
Proof.
  intros Ht [Hle Hsound] Hx Hy Hn Hc. apply wp_bind, wp_first; [| done].
  intros f0 Hf0. apply head_Some_elem_of, list_elem_of_In, in_map_iff in Hf0
    as (c & <- & Hcin).
  apply block_position_live in Hcin as (Hc1 & Hc2 & Hg).
  apply wp_modify. split; [by apply le3_clear_trans |].
  apply sound_clear; [done |]. intros i' j' Hi' Hj' Hblank Hsi Hsj Hsn.
  apply at_spec in Hsj, Hsn. apply among_outside in Hsi.
  pose proof (s_range s Hs i' j' Hi' Hj') as Hr.
  destruct (s_block s Hs x y n) as (r & q & Hr9 & Hq9 & Hrx & Hqy & Hsr); try done; [lia |].
  assert (Hlive : get w r q n = true).
  { apply (solution_cell_live we w (3 * x + c.1) (3 * y + c.2) n); try done.
    - by apply Hle.
    - right. right. cbn [fst snd]. lia. }
  assert (Hcol : q mod 3 = c.2).
  { apply (cnt_one_unique (seq 0 3) (fun xj =>
             negb (cnt (seq 0 3) (fun xi => block_get we x y xi xj n) =? 0)));
      try done; try apply seq_NoDup; try (apply in_seq; lia).
    - apply cnt_nonzero. exists (r mod 3). split; [apply in_seq; lia |].
      unfold block_get. apply Hle. rewrite <- Hlive. f_equal; lia.
    - apply cnt_nonzero. exists c.1. split; [apply in_seq; lia |].
      unfold block_get. by apply Hle. }
  apply (s_distinct s Hs (r, q) (i', j')); cbn [fst snd]; try done; try congruence.
  right. left. cbn [fst snd]. lia.
Qed.

Lemma wr_method_2_sound we :
  tidy b we -> sound s b we ->
  wp wr_method_2 (fun _ => sound_below we) (sound_err we) we.
Proof.
  intros Ht Hsound. unfold wr_method_2.
  assert (H0 : sound_below we we) by (split; [apply le3_refl | done]).
  apply wp_bind, wp_get_state. apply wp_bind.
  apply (wp_for_each (sound_below we)); [done | |].
  - intros [[x y] n] w Hin Hw. apply in_nonzero3 in Hin as (Hx & Hy & Hn & Hc).
    apply Nat.eqb_eq in Hc. cbn [fst snd] in *. cbv zeta.
    apply wp_bind, wp_get_state. by apply method_2_rows_sound.
  - intros w1 [Hle1 Hs1]. apply wp_bind, wp_get_state.
    assert (Ht1 : tidy b w1) by (by eapply tidy_down).
    apply (wp_for_each (sound_below w1)); [split; [apply le3_refl | done] | |].
    + intros [[x y] n] w Hin Hw. apply in_nonzero3 in Hin as (Hx & Hy & Hn & Hc).
      apply Nat.eqb_eq in Hc. cbn [fst snd] in *. cbv zeta.
      apply wp_bind, wp_get_state.
      eapply wp_mono; [by apply method_2_cols_sound | |]; cbv beta.
      * done.
      * intros e w' (-> & Hle' & Hs'). split; [done |].
        split; [by eapply le3_trans | done].
    + intros w2 [Hle2 Hs2]. split; [by eapply le3_trans | done].
Qed.


(** The cells [line q], for [q] in [c], lie in one unit and have, together,
    as many candidates as there are cells: no other cell of the unit has its
    digit of [s] among these candidates. *)
Lemma naked_subset_sound (line : nat -> nat * nat) we w c q' :
  tidy b we -> sound_below we w ->
  (forall q, In q c -> (line q).1 < 9 /\ (line q).2 < 9 /\
                       0 < ncand we (line q).1 (line q).2) ->
  NoDup c ->
  (forall q1 q2, line q1 = line q2 -> q1 = q2) ->
  (forall q1 q2, same_unit (line q1) (line q2)) ->
  length (List.filter (fun v => existsb (fun q => get w (line q).1 (line q).2 v) c)
            (seq 0 10)) = length c ->
  (line q').1 < 9 -> (line q').2 < 9 -> ~ In q' c ->
  In (bget s (line q').1 (line q').2)
     (List.filter (fun v => existsb (fun q => get w (line q).1 (line q).2 v) c)
        (seq 0 10)) ->
  False.
Proof.
  intros Ht [Hle Hsound] Hcells Hnd Hinj Hunit Hlen Hq1 Hq2 Hnotin Hin.
  set (vals := List.filter _ (seq 0 10)) in *.
  set (l := map (fun q => bget s (line q).1 (line q).2) c).
  assert (Hdistinct : forall q1 q2, In q1 c -> In q2 c ->
            bget s (line q1).1 (line q1).2 = bget s (line q2).1 (line q2).2 -> q1 = q2).
  { intros q1 q2 H1 H2 Heq. destruct (Nat.eq_dec q1 q2) as [| Hne]; [done |].
    exfalso. destruct (Hcells q1 H1) as (? & ? & _), (Hcells q2 H2) as (? & ? & _).
    apply (s_distinct s Hs (line q1) (line q2)); try done.
    intros Hl. by apply Hne, Hinj. }
  assert (Hl_nd : NoDup l) by (by apply NoDup_map_on).
  assert (Hl_in : incl l vals).
  { intros d Hd. apply in_map_iff in Hd as (q & <- & Hq).
    destruct (Hcells q Hq) as (H1 & H2 & Hpos).
    pose proof (s_range s Hs _ _ H1 H2) as Hr.
    apply filter_In. split; [apply in_seq; lia |].
    apply existsb_exists. exists q. split; [done |].
    apply Hsound; try done.
    apply cnt_pos_inv in Hpos as (d & _ & Hd). by apply (proj1 Ht _ _ d). }
  assert (Hback : incl vals l).
  { apply NoDup_length_incl; try done. unfold l. rewrite length_map. lia. }
  apply Hback, in_map_iff in Hin as (q & Heq & Hq).
  destruct (Hcells q Hq) as (H1 & H2 & _).
  apply (s_distinct s Hs (line q) (line q')); try done.
  intros Hl. apply Hinj in Hl. by subst.
Qed.

Lemma mesh_clear_sound we w is_ js vals :
  sound_below we w ->
  (forall i j, i < 9 -> j < 9 -> bget b i j = 0 ->
               In i is_ -> In j js -> In (bget s i j) vals -> False) ->
  wp (mesh_clear is_ js vals) (fun _ => sound_below we) (sound_err we) w.
Proof.
  intros [Hle Hsound] H. unfold mesh_clear.
  destruct (_ || _); [done |].
  apply wp_modify. split; [by apply le3_clear_trans |].
  apply sound_clear; [done |]. intros i j Hi Hj Hb H1 H2 H3.
  apply among_spec in H1, H2, H3. by apply (H i j).
Qed.

Lemma wr_method_4_sound we N :
  tidy b we -> sound s b we ->
  wp (wr_method_4 N) (fun _ => sound_below we) (sound_err we) we.
Proof.
  intros Ht Hsound. unfold wr_method_4.
  assert (H0 : sound_below we we) by (split; [apply le3_refl | done]).
  apply wp_bind, wp_get_state. cbv zeta. apply wp_bind.
  assert (Hdata : forall i j, (0 <? ncand we i j) && (ncand we i j <=? N) = true ->
            0 < ncand we i j).
  { intros i j H. apply andb_true_iff in H as [H _]. by apply Nat.ltb_lt. }
  apply (wp_for_each (sound_below we)); [done | |].
  - intros i w Hi Hw. apply in_seq in Hi.
    destruct (_ <? N); [by apply wp_ret |].
    apply (wp_for_each (sound_below we)); [done | | done].
    intros c w' Hc Hw'. apply combinations_spec in Hc as (Hlen & Hincl & Hnd).
    apply wp_bind, wp_get_state.
    destruct (Nat.eqb_spec (length (List.filter
                (fun v => existsb (fun j => get w' i j v) c) (seq 0 10))) N)
      as [HN | HN]; [| by apply wp_ret].
    apply mesh_clear_sound; [done |].
    intros i' j' Hi' Hj' Hb [<- | []] Hjs Hv.
    apply filter_In in Hjs as [_ Hjs]. apply negb_true_iff in Hjs.
    apply (naked_subset_sound (fun q => (i, q)) we w' c j'); cbn [fst snd];
      try done; try lia.
    + intros q Hq. apply Hincl, filter_In in Hq as [Hq Hd]. apply in_seq in Hq.
      split; [lia |]. split; [lia |]. by apply Hdata.
    + apply Hnd, NoDup_filter, seq_NoDup.
    + intros q1 q2 Heq. by inversion Heq.
    + intros q1 q2. by left.
    + intros Hin. apply among_spec in Hin. congruence.
  - intros w1 Hw1.
    apply (wp_for_each (sound_below we)); [done | | done].
    intros j w Hj Hw. apply in_seq in Hj.
    destruct (_ <? N); [by apply wp_ret |].
    apply (wp_for_each (sound_below we)); [done | | done].
    intros c w' Hc Hw'. apply combinations_spec in Hc as (Hlen & Hincl & Hnd).
    apply wp_bind, wp_get_state.
    destruct (Nat.eqb_spec (length (List.filter
                (fun v => existsb (fun i => get w' i j v) c) (seq 0 10))) N)
      as [HN | HN]; [| by apply wp_ret].
    apply mesh_clear_sound; [done |].
    intros i' j' Hi' Hj' Hb His [<- | []] Hv.
    apply filter_In in His as [_ His]. apply negb_true_iff in His.
    apply (naked_subset_sound (fun q => (q, j)) we w' c i'); cbn [fst snd];
      try done; try lia.
    + intros q Hq. apply Hincl, filter_In in Hq as [Hq Hd]. apply in_seq in Hq.
      split; [lia |]. split; [lia |]. by apply Hdata.
    + apply Hnd, NoDup_filter, seq_NoDup.
    + intros q1 q2 Heq. by inversion Heq.
    + intros q1 q2. right. by left.
    + intros Hin. apply among_spec in Hin. congruence.
Qed.


(** Method 3.  A recorded cell and the current cell have no candidate but
    the two digits of the pair, so [s] puts the two digits on these two
    cells when they share a unit. *)
Definition within (w : Working) (c : nat * nat) (n m : nat) : Prop :=
  forall d, get w c.1 c.2 d = true -> d = n \/ d = m.

Lemma in_shared_same c c1 c2 :
  in_shared_unit c c1 c2 -> same_unit c c1 /\ same_unit c c2.
Proof. unfold in_shared_unit, same_unit. intros H. split; lia. Qed.

Lemma pair_step_sound i j n m w c2 :
  sound s b w -> i < 9 -> j < 9 -> c2.1 < 9 -> c2.2 < 9 -> (i, j) <> c2 ->
  bget b i j = 0 -> bget b c2.1 c2.2 = 0 ->
  within w (i, j) n m -> within w c2 n m ->
  sound s b (pair_step i j n m w c2).
Proof.
  intros Hsound Hi Hj Hi2 Hj2 Hne Hb Hb2 Hw Hw2.
  destruct (same_unit_dec (i, j) c2) as [Hu | Hu];
    [| by rewrite pair_step_unshared].
  rewrite (pair_step_shared i j n m w c2 Hu).
  pose proof (Hw _ (Hsound i j Hi Hj Hb)) as Hs1. cbn [fst snd] in Hs1.
  pose proof (Hw2 _ (Hsound _ _ Hi2 Hj2 Hb2)) as Hs2.
  assert (Hd : bget s i j <> bget s c2.1 c2.2).
  { by apply (s_distinct s Hs (i, j) c2). }
  intros a c Ha Hc Hbac. pose proof (s_range s Hs a c Ha Hc) as Hr.
  rewrite get_readd by (done || lia).
  destruct (decide ((a, c) = (i, j))) as [Heq | Hne1].
  { inversion Heq; subst. rewrite !Nat.eqb_refl. cbn [andb orb].
    rewrite orb_true_r. cbn [andb].
    destruct Hs1 as [-> | ->]; rewrite Nat.eqb_refl; by rewrite ?orb_true_r. }
  destruct (decide ((a, c) = c2)) as [Heq | Hne2].
  { subst c2. cbn [fst snd] in *. rewrite !Nat.eqb_refl. cbn [andb orb].
    destruct Hs2 as [-> | ->]; rewrite Nat.eqb_refl; by rewrite ?orb_true_r. }
  apply orb_true_iff. right.
  destruct (decide (bget s a c = n \/ bget s a c = m)) as [Hnm | Hnm].
  - rewrite pair_cleared_unshared; try done; try lia; [by apply Hsound |].
    intros Hsh. apply in_shared_same in Hsh as [Hu1 Hu2].
    assert (Hcase : bget s a c = bget s i j \/ bget s a c = bget s c2.1 c2.2) by lia.
    destruct Hcase as [Hcase | Hcase].
    + by apply (s_distinct s Hs (a, c) (i, j)).
    + by apply (s_distinct s Hs (a, c) c2).
  - rewrite pair_cleared_other; try done; try lia. by apply Hsound.
Qed.

Lemma fold_pair_step_sound wt i j n m p w :
  tidy b wt -> le3 w wt -> sound s b w -> i < 9 -> j < 9 ->
  get wt i j n = true -> get wt i j m = true -> within w (i, j) n m ->
  (forall c, In c p ->
     c.1 < 9 /\ c.2 < 9 /\ c <> (i, j) /\ within w c n m /\
     get wt c.1 c.2 n = true /\ get wt c.1 c.2 m = true) ->
  sound s b (fold_left (pair_step i j n m) p w) /\
  le3 (fold_left (pair_step i j n m) p w) wt /\
  (forall a c d, get (fold_left (pair_step i j n m) p w) a c d = true ->
     get w a c d = true \/ ((d = n \/ d = m) /\ ((a, c) = (i, j) \/ In (a, c) p))).
Proof.
  intros Ht Hle Hsound Hi Hj Hn Hm. revert w Hle Hsound.
  induction p as [| c2 p IH]; intros w Hle Hsound Hw Hp; cbn [fold_left].
  { split; [done |]. split; [done |]. auto. }
  destruct (Hp c2) as (H1 & H2 & Hne & Hw2 & Hn2 & Hm2); [by left |].
  assert (Hupper : forall a c d, get (pair_step i j n m w c2) a c d = true ->
            get w a c d = true \/ ((d = n \/ d = m) /\ ((a, c) = (i, j) \/ (a, c) = c2)))
    by apply pair_step_upper.
  assert (Hkeep : forall c, within w c n m -> within (pair_step i j n m w c2) c n m).
  { intros [a c] H d Hd. cbn [fst snd] in Hd.
    apply Hupper in Hd as [Hd | [Hd _]]; [by apply (H d) | done]. }
  destruct (IH (pair_step i j n m w c2)) as (Hs' & Hle' & Hup').
  - by apply pair_step_below.
  - apply pair_step_sound; try done; try congruence.
    + by apply (proj1 Ht i j n).
    + by apply (proj1 Ht _ _ n).
  - by apply Hkeep.
  - intros c Hc. destruct (Hp c) as (? & ? & ? & ? & ? & ?); [by right |].
    repeat split; try done. by apply Hkeep.
  - split; [done |]. split; [done |]. intros a c d Hd.
    apply Hup' in Hd as [Hd | [Hd [Hd' | Hd']]].
    + apply Hupper in Hd as [Hd | [Hd [Hd' | Hd']]]; auto.
      right. split; [done |]. right. left. done.
    + auto.
    + right. split; [done |]. right. by right.
Qed.

(** The invariant of the dictionary [pairs]. *)
Definition pairs_sound (wt w : Working) (found : list (nat * nat))
    (pairs : gmap (nat * nat) (list (nat * nat))) : Prop :=
  (forall k p c, pairs !! k = Some p -> In c p ->
     c.1 < 9 /\ c.2 < 9 /\ within w c k.1 k.2 /\
     get wt c.1 c.2 k.1 = true /\ get wt c.1 c.2 k.2 = true /\ ~ In c found) /\
  (forall k k' p p' c, pairs !! k = Some p -> pairs !! k' = Some p' ->
     In c p -> In c p' -> k = k').

Lemma m3_scan_sound wt found pairs w :
  tidy b wt -> le3 w wt -> sound s b w -> NoDup found ->
  (forall c, In c found -> c.1 < 9 /\ c.2 < 9) ->
  pairs_sound wt w found pairs ->
  sound s b (m3_scan found pairs w).1.
Proof.
  intros Ht. revert pairs w.
  induction found as [| ij found IH]; intros pairs w Hle Hsound Hnd Hrange [HP1 HP2];
    cbn [m3_scan]; [done |].
  destruct (candidates w ij.1 ij.2) as [| n [| m [| ? ?]]] eqn:Hc; try done.
  destruct (candidates_pair _ _ _ _ _ Hc) as (Hn & Hm & Hgn & Hgm & _).
  destruct ij as [i j]. cbn [fst snd] in *.
  destruct (Hrange (i, j)) as [Hi Hj]; [by left |]. cbn [fst snd] in Hi, Hj.
  apply NoDup_cons_iff in Hnd as [Hnotin Hnd].
  assert (Hwithin : within w (i, j) n m).
  { intros d Hd. cbn [fst snd] in Hd.
    assert (Hin : In d (candidates w i j)).
    { apply candidates_in. split; [| done].
      destruct (Nat.lt_ge_cases d 10) as [| Hge]; [done |].
      apply Hle in Hd. pose proof (proj2 (proj2 Ht) _ _ _ Hd). lia. }
    rewrite Hc in Hin. cbn [In] in Hin. intuition. }
  set (p := default [] (pairs !! (n, m))).
  assert (Hp : forall c, In c p ->
            c.1 < 9 /\ c.2 < 9 /\ c <> (i, j) /\ within w c n m /\
            get wt c.1 c.2 n = true /\ get wt c.1 c.2 m = true).
  { intros c Hin. unfold p in Hin.
    destruct (pairs !! (n, m)) as [p0 |] eqn:Hl; [| done]. cbn [default] in Hin.
    destruct (HP1 (n, m) p0 c Hl Hin) as (H1 & H2 & H3 & H4 & H5 & H6).
    repeat split; try done. intros ->. apply H6. by left. }
  destruct (fold_pair_step_sound wt i j n m p w) as (Hs' & Hle' & Hup); try done;
    try by apply Hle.
  apply IH; try done.
  - intros c Hc'. apply Hrange. by right.
  - split.
    + intros k p' c Hl Hin.
      destruct (decide (k = (n, m))) as [-> | Hk].
      * rewrite lookup_insert_eq in Hl. inversion Hl; subst p'. cbn [fst snd].
        apply in_app_iff in Hin as [Hin | [<- | []]].
        -- destruct (Hp c Hin) as (H1 & H2 & H3 & H4 & H5 & H6).
           repeat split; try done.
           ++ intros d Hd. apply Hup in Hd as [Hd | [Hd _]]; [by apply H4 | done].
           ++ intros Hf. unfold p in Hin.
              destruct (pairs !! (n, m)) as [p0 |] eqn:Hl0; [| done].
              destruct (HP1 (n, m) p0 c Hl0 Hin) as (_ & _ & _ & _ & _ & H7).
              apply H7. by right.
        -- cbn [fst snd]. repeat split; try done; try by apply Hle.
           intros d Hd. apply Hup in Hd as [Hd | [Hd _]]; [by apply Hwithin | done].
      * rewrite lookup_insert_ne in Hl by done.
        destruct (HP1 k p' c Hl Hin) as (H1 & H2 & H3 & H4 & H5 & H6).
        repeat split; try done; [| intros Hf; apply H6; by right].
        intros d Hd. apply Hup in Hd as [Hd | [_ [Hd | Hd]]]; [by apply H3 | |].
        -- exfalso. apply H6. left. destruct c. cbn [fst snd] in Hd. by inversion Hd.
        -- exfalso. unfold p in Hd. destruct c as [a c]. cbn [fst snd] in Hd.
           destruct (pairs !! (n, m)) as [p0 |] eqn:Hl0; [| done].
           apply Hk. symmetry. by apply (HP2 (n, m) k p0 p' (a, c)).
    + intros k k' p1 p2 c Hl1 Hl2 Hin1 Hin2.
      assert (Hnew : forall k0 p0, pairs !! k0 = Some p0 -> In (i, j) p0 -> False).
      { intros k0 p0 Hl0 Hin0.
        destruct (HP1 k0 p0 (i, j) Hl0 Hin0) as (_ & _ & _ & _ & _ & H6).
        apply H6. by left. }
      assert (Hold : forall c0, In c0 p -> pairs !! (n, m) = Some p).
      { intros c0 Hc0. unfold p in *. by destruct (pairs !! (n, m)). }
      destruct (decide (k = (n, m))) as [-> | Hk1],
               (decide (k' = (n, m))) as [-> | Hk2]; try done.
      * rewrite lookup_insert_eq in Hl1. rewrite lookup_insert_ne in Hl2 by done.
        inversion Hl1; subst p1.
        apply in_app_iff in Hin1 as [Hin1 | [<- | []]].
        -- by apply (HP2 (n, m) k' p p2 c); [apply (Hold c) | | |].
        -- exfalso. by apply (Hnew k' p2).
      * rewrite lookup_insert_eq in Hl2. rewrite lookup_insert_ne in Hl1 by done.
        inversion Hl2; subst p2.
        apply in_app_iff in Hin2 as [Hin2 | [<- | []]].
        -- by apply (HP2 k (n, m) p1 p c); [| apply (Hold c) | |].
        -- exfalso. by apply (Hnew k p1).
      * rewrite lookup_insert_ne in Hl1, Hl2 by done.
        by apply (HP2 k k' p1 p2 c).
Qed.

Lemma wr_method_3_rec_sound wt fuel w :
  tidy b wt -> le3 w wt -> sound s b w ->
  sound s b (wr_method_3_rec fuel w).1.
Proof.
  intros Ht. revert w. induction fuel as [| fuel IH]; intros w Hle Hsound; [done |].
  cbn [wr_method_3_rec].
  set (found := nonzero2 9 9 (fun i j => ncand w i j =? 2)).
  assert (Hs' : sound s b (m3_scan found ∅ w).1).
  { apply (m3_scan_sound wt found ∅ w Ht Hle Hsound).
    - apply NoDup_filter, NoDup_idx2.
    - intros c Hc. apply in_nonzero2 in Hc. tauto.
    - split; intros *; by rewrite lookup_empty. }
  assert (Hle' : le3 (m3_scan found ∅ w).1 wt).
  { apply m3_scan_below; [done |]. intros k p c Hl. by rewrite lookup_empty in Hl. }
  destruct (m3_scan found ∅ w) as [w' [|]]; cbn [fst snd] in *; [| done].
  by apply IH.
Qed.

Lemma wr_method_3_sound we :
  tidy b we -> sound s b we ->
  wp wr_method_3 (fun _ => sound_below we) (sound_err we) we.
Proof.
  intros Ht Hsound. unfold wp.
  destruct (wr_method_3_spec we) as [Hle Hok].
  pose proof (wr_method_3_rec_sound we (S (wsum we)) we Ht (le3_refl we) Hsound) as Hs'.
  fold (wr_method_3 we) in Hs'.
  destruct (wr_method_3 we) as [w' r]. cbn [fst snd] in *. subst r. done.
Qed.

End OnBoard.

(** *** The finders *)

Definition consistent (st : St) : Prop :=
  agrees s (board st) /\ sound s (board st) (working st) /\
  tidy (board st) (working st).

(** The candidate a finder sets is the digit of [s]. *)
Lemma sole_is_solution st w0 u i j n :
  consistent st -> le3 (working st) w0 -> unit_inb u -> sole w0 u (i, j, n) ->
  get (working st) i j n = true -> bget s i j = n.
Proof.
  intros (HA & HS & HT) Hle Hu (Hin & Hg0 & Hsole) Hg.
  destruct (entries_inb u _ Hu Hin) as (Hi & Hj & Hn). cbn [fst snd] in Hi, Hj, Hn.
  assert (Hblank : bget (board st) i j = 0) by (by apply (proj1 HT i j n)).
  assert (Hdigit : 1 <= n <= 9) by (by apply (proj2 (proj2 HT) i j n)).
  assert (Hlive : forall i' j', i' < 9 -> j' < 9 -> same_unit (i, j) (i', j') ->
            bget s i' j' = n -> In (i', j', n) (entries u) -> (i', j') = (i, j)).
  { intros i' j' Hi' Hj' Hsu Hsn Hin'.
    assert (Hg' : get (working st) i' j' n = true)
      by (by apply (solution_cell_live (board st) HA (working st) (working st) i j n)).
    apply Hle in Hg'. specialize (Hsole (i', j', n) Hin' Hg'). by inversion Hsole. }
  destruct u as [j0 n0 | i0 n0 | i0 j0 | x y n0]; cbn [entries unit_inb] in *;
    apply in_map_iff in Hin as (c & Hc & Hcin).
  - inversion Hc; subst. destruct (s_col s Hs j n) as (r & Hr & Hsn); [lia | done |].
    assert (Heq : (r, j) = (i, j)).
    { apply Hlive; try done; [right; by left |].
      apply in_map_iff. exists r. split; [done | apply in_seq; lia]. }
    by inversion Heq; subst.
  - inversion Hc; subst. destruct (s_row s Hs i n) as (q & Hq & Hsn); [lia | done |].
    assert (Heq : (i, q) = (i, j)).
    { apply Hlive; try done; [by left |].
      apply in_map_iff. exists q. split; [done | apply in_seq; lia]. }
    by inversion Heq; subst.
  - inversion Hc; subst. pose proof (s_range s Hs i j Hi Hj) as Hr.
    assert (Heq : (i, j, bget s i j) = (i, j, n)).
    { apply Hsole.
      - apply in_map_iff. exists (bget s i j). split; [done | apply in_seq; lia].
      - apply Hle. by apply HS. }
    by inversion Heq.
  - inversion Hc; subst. apply in_idx2 in Hcin as [Hc1 Hc2].
    destruct (s_block s Hs x y n) as (r & q & Hr & Hq & Hrx & Hqy & Hsn); try done; try lia.
    assert (Heq : (r, q) = (c.1 + x * 3, c.2 + y * 3)).
    { apply Hlive; try done.
      - right. right. cbn [fst snd]. lia.
      - apply in_map_iff. exists (r mod 3, q mod 3). cbn [fst snd]. split.
        + assert (r mod 3 + x * 3 = r) as -> by lia.
          assert (q mod 3 + y * 3 = q) as -> by lia. done.
        + apply in_idx2. cbn [fst snd]. lia. }
    injection Heq as H1 H2. by rewrite <- H1, <- H2.
Qed.

(** set_board_value with the digit of [s] keeps the state consistent. *)
Lemma consistent_assign st i j :
  consistent st -> i < 9 -> j < 9 ->
  get (working st) i j (bget s i j) = true ->
  consistent (do_assign i j (bget s i j) st).
Proof.
  intros (HA & HS & HB & HF & HR) Hi Hj Hg.
  pose proof (HB i j _ Hg) as Hblank.
  assert (Hboard : forall a b, a < 9 -> b < 9 ->
            bget (board (do_assign i j (bget s i j) st)) a b =
            if (a =? i) && (b =? j) then bget s i j else bget (board st) a b).
  { intros a b Ha Hb. rewrite board_do_assign, board_set_board_value.
    destruct (Nat.ltb_spec a 9), (Nat.ltb_spec b 9); try lia. done. }
  split; [| split; [| split; [| split]]].
  - intros a b Ha Hb. rewrite Hboard by done.
    destruct (Nat.eqb_spec a i), (Nat.eqb_spec b j); cbn [andb]; subst; auto.
  - intros a b Ha Hb Hb0. rewrite Hboard in Hb0 by done.
    pose proof (s_range s Hs a b Ha Hb) as Hrange.
    assert (Hne : (a, b) <> (i, j) /\ bget (board st) a b = 0).
    { destruct (Nat.eqb_spec a i), (Nat.eqb_spec b j); cbn [andb] in Hb0;
        subst; (split; [congruence || lia | lia || done]). }
    destruct Hne as [Hne Hb0'].
    assert (Hd : forall (Hu : same_unit (a, b) (i, j)), bget s a b <> bget s i j).
    { intros Hu. by apply (s_distinct s Hs (a, b) (i, j)). }
    rewrite working_do_assign. apply get_set_board_value.
    split; [by apply HS |]. unfold same_unit in Hd. cbn [fst snd] in Hd.
    repeat split; try lia; intros Hcl; try (apply Hd; tauto).
    apply Hne. f_equal; tauto.
  - intros a b k Hk. rewrite working_do_assign in Hk.
    apply get_set_board_value in Hk as (Hk & Ha & Hb & _ & _ & _ & Hne & _).
    rewrite Hboard by done.
    destruct (Nat.eqb_spec a i), (Nat.eqb_spec b j); cbn [andb]; try tauto;
      by apply (HB a b k).
  - intros a b k a' b' Hk Ha' Hb' Hsu Hne. rewrite working_do_assign in Hk.
    apply get_set_board_value in Hk as (Hk & Ha & Hb & _ & H1 & H2 & H3 & H4).
    rewrite Hboard by done.
    destruct (Nat.eqb_spec a' i) as [-> | Hai], (Nat.eqb_spec b' j) as [-> | Hbj];
      cbn [andb]; try by apply (HF a b k).
    intros <-. unfold same_unit in Hsu. cbn [fst snd] in Hsu. tauto.
  - intros a b k Hk. rewrite working_do_assign in Hk.
    apply get_set_board_value in Hk as (Hk & _). by apply (HR a b k).
Qed.


(** *** The whole run *)

Lemma consistent_method bb tr {A} (m : M Working A) :
  (forall we, agrees s bb -> tidy bb we -> sound s bb we ->
     wp m (fun _ => sound_below bb we) (sound_err bb we) we) ->
  keeps (fun w => consistent (mkSt bb w tr)) m.
Proof.
  intros Hm w (HA & HS & HT). cbn [board working] in *.
  specialize (Hm w HA HT HS). unfold wp in *.
  destruct (m w) as [w' [a | e]].
  - destruct Hm as [Hle Hs']. split; [done |]. split; [done |]. by eapply tidy_down.
  - destruct Hm as (-> & Hle & Hs'). split; [done |].
    split; [done |]. split; [done |]. by eapply tidy_down.
Qed.

Lemma consistent_init b :
  agrees s b -> consistent (mkSt b (init_working b) []).
Proof.
  intros HA. split; [done |]. cbn [board working]. split; [| split; [| split]].
  - intros i j Hi Hj Hb. pose proof (s_range s Hs i j Hi Hj) as Hr.
    apply get_init_working. repeat split; try done; try lia.
    + intros j' Hj' Heq.
      apply (s_distinct s Hs (i, j') (i, j)); cbn [fst snd]; try done.
      * intros Hc. inversion Hc; subst. lia.
      * by left.
      * rewrite <- Heq. symmetry. apply HA; try done. lia.
    + intros i' Hi' Heq.
      apply (s_distinct s Hs (i', j) (i, j)); cbn [fst snd]; try done.
      * intros Hc. inversion Hc; subst. lia.
      * right. by left.
      * rewrite <- Heq. symmetry. apply HA; try done. lia.
    + intros i' j' Hi' Hj' Hbi Hbj Heq.
      apply (s_distinct s Hs (i', j') (i, j)); cbn [fst snd]; try done.
      * intros Hc. inversion Hc; subst. lia.
      * right. right. done.
      * rewrite <- Heq. symmetry. apply HA; try done. lia.
  - intros i j n Hg. apply get_init_working in Hg. tauto.
  - intros i j n i' j' Hg Hi' Hj' Hu _.
    apply get_init_working in Hg as (Hi & Hj & Hn & Hb & Hrow & Hcol & Hblk).
    unfold same_unit in Hu. cbn [fst snd] in Hu.
    destruct Hu as [<- | [<- | [Hbi Hbj]]]; [by apply Hrow | by apply Hcol |].
    by apply Hblk.
  - intros i j n Hg. apply get_init_working in Hg. tauto.
Qed.

(** With an input that [s] completes, every state of the run is consistent
    with [s]. *)
Lemma solve_sudoku_consistent b :
  agrees s b -> consistent (solve_sudoku b).1.
Proof.
  intros HA. unfold solve_sudoku. cbv zeta.
  apply (solve_loop_spec consistent).
  - intros w0 st u i j n Hc Hle Hu Hsole Hg.
    pose proof (sole_is_solution st w0 u i j n Hc Hle Hu Hsole Hg) as <-.
    destruct Hsole as (Hin & _).
    destruct (entries_inb u _ Hu Hin) as (Hi & Hj & _). cbn [fst snd] in Hi, Hj.
    by apply consistent_assign.
  - intros bb tr. apply consistent_method. intros we HA'. by apply wr_method_1_sound.
  - intros bb tr. apply consistent_method. intros we HA'. by apply wr_method_2_sound.
  - intros bb tr. apply consistent_method. intros we HA'. by apply wr_method_3_sound.
  - intros bb tr N. apply consistent_method. intros we HA'. by apply wr_method_4_sound.
  - intros e st _ H. exact H.
  - lia.
  - by apply consistent_init.
  - cbn [working]. lia.
Qed.

(** A run that ends in Solved has put [s] on the board. *)
Lemma solved_is_solution b i j :
  agrees s b -> (solve_sudoku b).2 = Solved -> i < 9 -> j < 9 ->
  bget (board (solve_sudoku b).1) i j = bget s i j.
Proof.
  intros HA Hsolved Hi Hj.
  destruct (solve_sudoku_consistent b HA) as (HA' & HS' & _).
  destruct (solve_sudoku_halts b) as (_ & Hz & _). specialize (Hz Hsolved).
  destruct (Nat.eq_dec (bget (board (solve_sudoku b).1) i j) 0) as [H0 | H0];
    [| by apply HA'].
  pose proof (HS' i j Hi Hj H0) as Hg.
  pose proof (s_range s Hs i j Hi Hj) as Hr.
  rewrite (wsum_zero _ i j (bget s i j)) in Hg by (done || lia). done.
Qed.

End Solution.

(** ** Complete boards *)

Definition row_cells (i : nat) : list (nat * nat) := map (fun j => (i, j)) (seq 0 9).
Definition col_cells (j : nat) : list (nat * nat) := map (fun i => (i, j)) (seq 0 9).
Definition block_cells (x y : nat) : list (nat * nat) :=
  map (fun c => (3 * x + c.1, 3 * y + c.2)) (idx2 3 3).

(** The 27 units: rows, columns and 3x3 blocks. *)
Definition units : list (list (nat * nat)) :=
  map row_cells (seq 0 9) ++ map col_cells (seq 0 9)
  ++ map (fun c => block_cells c.1 c.2) (idx2 3 3).

Definition values (b : Board) (u : list (nat * nat)) : list nat :=
  map (fun c => bget b c.1 c.2) u.

(** Every row, column and block holds each digit 1 to 9 exactly once. *)
Definition complete (b : Board) : Prop :=
  forall u, In u units -> forall d, 1 <= d <= 9 ->
    count_occ Nat.eq_dec (values b u) d = 1.

Definition completeb (b : Board) : bool :=
  forallb (fun u => forallb (fun d => count_occ Nat.eq_dec (values b u) d =? 1) (seq 1 9))
    units.

Lemma completeb_spec b : completeb b = true <-> complete b.
Proof.
  unfold completeb, complete. rewrite forallb_forall. split.
  - intros H u Hu d Hd. specialize (H u Hu). rewrite forallb_forall in H.
    apply Nat.eqb_eq, H, in_seq. lia.
  - intros H u Hu. apply forallb_forall. intros d Hd. apply in_seq in Hd.
    apply Nat.eqb_eq, H; [done | lia].
Qed.

Definition agreesb (s b : Board) : bool :=
  forallb (fun c => (bget b c.1 c.2 =? 0) || (bget b c.1 c.2 =? bget s c.1 c.2))
    (idx2 9 9).

Lemma agreesb_spec s b : agreesb s b = true <-> agrees s b.
Proof.
  unfold agreesb, agrees. rewrite forallb_forall. split.
  - intros H i j Hi Hj Hne. specialize (H (i, j)). cbn [fst snd] in H.
    rewrite in_idx2 in H. cbn [fst snd] in H. specialize (H (conj Hi Hj)).
    apply orb_true_iff in H as [H | H]; apply Nat.eqb_eq in H; [done | done].
  - intros H [i j] Hc. apply in_idx2 in Hc as [Hi Hj]. cbn [fst snd] in *.
    destruct (Nat.eqb_spec (bget b i j) 0) as [| Hne]; [done |].
    cbn [orb]. apply Nat.eqb_eq. by apply H.
Qed.

Lemma in_units_cells u c : In u units -> In c u -> c.1 < 9 /\ c.2 < 9.
Proof.
  unfold units. rewrite !in_app_iff, !in_map_iff.
  intros [(i & <- & Hi) | [(j & <- & Hj) | (xy & <- & Hxy)]] Hc;
    apply in_map_iff in Hc as (q & <- & Hq); cbn [fst snd];
    try apply in_seq in Hi; try apply in_seq in Hj; try apply in_seq in Hq;
    try apply in_idx2 in Hxy; try apply in_idx2 in Hq; lia.
Qed.

Lemma length_units u : In u units -> length u = 9.
Proof.
  unfold units. rewrite !in_app_iff, !in_map_iff.
  intros [(i & <- & Hi) | [(j & <- & Hj) | (xy & <- & Hxy)]];
    unfold row_cells, col_cells, block_cells; by rewrite length_map.
Qed.

(** Two cells of the grid that share a unit lie in one of the 27 units. *)
Lemma same_unit_in_units c c' :
  c.1 < 9 -> c.2 < 9 -> c'.1 < 9 -> c'.2 < 9 -> same_unit c c' ->
  exists u, In u units /\ In c u /\ In c' u.
Proof.
  destruct c as [i j], c' as [i' j']. unfold same_unit. cbn [fst snd].
  intros Hi Hj Hi' Hj' [<- | [<- | [Hbi Hbj]]].
  - exists (row_cells i). split; [| split].
    + unfold units. apply in_or_app. left. apply in_map, in_seq. lia.
    + apply in_map_iff. exists j. split; [done | apply in_seq; lia].
    + apply in_map_iff. exists j'. split; [done | apply in_seq; lia].
  - exists (col_cells j). split; [| split].
    + unfold units. apply in_or_app. right. apply in_or_app. left.
      apply in_map, in_seq. lia.
    + apply in_map_iff. exists i. split; [done | apply in_seq; lia].
    + apply in_map_iff. exists i'. split; [done | apply in_seq; lia].
  - exists (block_cells (i / 3) (j / 3)). split; [| split].
    + unfold units. apply in_or_app. right. apply in_or_app. right.
      apply in_map_iff. exists (i / 3, j / 3). split; [done |].
      apply in_idx2. cbn [fst snd]. lia.
    + apply in_map_iff. exists (i mod 3, j mod 3). cbn [fst snd]. split.
      * f_equal; lia.
      * apply in_idx2. cbn [fst snd]. lia.
    + apply in_map_iff. exists (i' mod 3, j' mod 3). cbn [fst snd]. split.
      * f_equal; lia.
      * apply in_idx2. cbn [fst snd]. lia.
Qed.

Lemma NoDup_map_eq {A B} (f : A -> B) (l : list A) x y :
  NoDup (map f l) -> In x l -> In y l -> f x = f y -> x = y.
Proof.
  induction l as [| a l IH]; [done |]. cbn [map]. intros Hnd Hx Hy Heq.
  apply NoDup_cons_iff in Hnd as [Ha Hnd].
  destruct Hx as [-> | Hx], Hy as [-> | Hy]; try done.
  - exfalso. apply Ha. rewrite Heq. by apply in_map.
  - exfalso. apply Ha. rewrite <- Heq. by apply in_map.
  - by apply IH.
Qed.

(** The values of a unit of a complete board are the nine digits, without
    repetition. *)
Lemma complete_unit b u :
  complete b -> In u units ->
  NoDup (values b u) /\ (forall d, In d (values b u) <-> 1 <= d <= 9).
Proof.
  intros Hc Hu.
  assert (Hlen : length (values b u) = 9).
  { unfold values. rewrite length_map. by apply length_units. }
  assert (Hincl : incl (seq 1 9) (values b u)).
  { intros d Hd. apply in_seq in Hd.
    apply (count_occ_In Nat.eq_dec). rewrite (Hc u Hu d); lia. }
  assert (Hnd : NoDup (seq 1 9)) by apply seq_NoDup.
  split.
  - apply (NoDup_incl_NoDup (l := seq 1 9)); try done. rewrite Hlen, length_seq. lia.
  - intros d. split.
    + intros Hd.
      assert (Hback : incl (values b u) (seq 1 9)).
      { apply NoDup_length_incl; try done. rewrite Hlen, length_seq. lia. }
      apply Hback, in_seq in Hd. lia.
    + intros Hd. apply Hincl, in_seq. lia.
Qed.

Lemma complete_solution s : complete s -> solution s.
Proof.
  intros Hc.
  assert (Hrow : forall i, i < 9 -> In (row_cells i) units).
  { intros i Hi. unfold units. apply in_or_app. left. apply in_map, in_seq. lia. }
  assert (Hcol : forall j, j < 9 -> In (col_cells j) units).
  { intros j Hj. unfold units. apply in_or_app. right. apply in_or_app. left.
    apply in_map, in_seq. lia. }
  assert (Hblk : forall x y, x < 3 -> y < 3 -> In (block_cells x y) units).
  { intros x y Hx Hy. unfold units. apply in_or_app. right. apply in_or_app. right.
    apply in_map_iff. exists (x, y). split; [done | by apply in_idx2]. }
  split.
  - intros i j Hi Hj. apply (complete_unit s (row_cells i) Hc (Hrow i Hi)).
    apply in_map_iff. exists (i, j). split; [done |].
    apply in_map_iff. exists j. split; [done | apply in_seq; lia].
  - intros c c' H1 H2 H3 H4 Hne Hu Heq.
    destruct (same_unit_in_units c c' H1 H2 H3 H4 Hu) as (u & Hin & Hcu & Hcu').
    apply Hne. apply (NoDup_map_eq (fun c => bget s c.1 c.2) u); try done.
    by apply (complete_unit s u Hc Hin).
  - intros j d Hj Hd.
    apply (complete_unit s (col_cells j) Hc (Hcol j Hj)) in Hd.
    apply in_map_iff in Hd as (c & Hv & Hin).
    apply in_map_iff in Hin as (i & <- & Hi). apply in_seq in Hi.
    exists i. split; [lia | done].
  - intros i d Hi Hd.
    apply (complete_unit s (row_cells i) Hc (Hrow i Hi)) in Hd.
    apply in_map_iff in Hd as (c & Hv & Hin).
    apply in_map_iff in Hin as (j & <- & Hj). apply in_seq in Hj.
    exists j. split; [lia | done].
  - intros x y d Hx Hy Hd.
    apply (complete_unit s (block_cells x y) Hc (Hblk x y Hx Hy)) in Hd.
    apply in_map_iff in Hd as (c & Hv & Hin).
    apply in_map_iff in Hin as (q & <- & Hq). apply in_idx2 in Hq.
    cbn [fst snd] in Hv.
    exists (3 * x + q.1), (3 * y + q.2). repeat split; try lia; done.
Qed.

(** A board that holds the values of a complete board on the grid is
    complete. *)
Lemma complete_ext s b :
  complete s -> (forall i j, i < 9 -> j < 9 -> bget b i j = bget s i j) -> complete b.
Proof.
  intros Hc Heq u Hu d Hd.
  assert (Hv : values b u = values s u).
  { unfold values. apply map_ext_in. intros c Hcu.
    destruct (in_units_cells u c Hu Hcu). by apply Heq. }
  rewrite Hv. by apply Hc.
Qed.

(** * The claims *)

(** ** Boards used as concrete inputs *)

(** Row 0 lacks only its first cell; nothing else is given. *)
Definition board_row0 : Board :=
  [0; 2; 3; 4; 5; 6; 7; 8; 9] :: repeat (repeat 0 9) 8.

(** Columns 0 and 1 are filled below row 0, with no digit 1 and no repeated
    digit in any row, column or block. *)
Definition board_two_columns : Board :=
  [[0; 0; 0; 0; 0; 0; 0; 0; 0];
   [2; 5; 0; 0; 0; 0; 0; 0; 0];
   [3; 6; 0; 0; 0; 0; 0; 0; 0];
   [4; 7; 0; 0; 0; 0; 0; 0; 0];
   [5; 8; 0; 0; 0; 0; 0; 0; 0];
   [6; 9; 0; 0; 0; 0; 0; 0; 0];
   [7; 2; 0; 0; 0; 0; 0; 0; 0];
   [8; 3; 0; 0; 0; 0; 0; 0; 0];
   [9; 4; 0; 0; 0; 0; 0; 0; 0]].

(** The pass and reducer entries of a trace, oldest first. *)
Definition control_events (st : St) : list event := rev (ctl st).

(** ** C2 *)

Definition only_clears {A} (m : M Working A) : Prop :=
  forall w, le3 (m w).1 w /\ wsum (m w).1 <= wsum w /\ (m w).2 <> Err OutOfFuel.

Lemma keeps_only_clears {A} (m : M Working A) :
  (forall w0, keeps (below w0) m) -> only_clears m.
Proof.
  intros H w. specialize (H w w (le3_refl w)). unfold wp in H.
  destruct (m w) as [w' [a | e]]; cbn [fst snd].
  - split; [done |]. split; [by apply wsum_mono | done].
  - destruct H as [-> H]. split; [done |]. split; [by apply wsum_mono | done].
Qed.

(** C2.  Every call of set_board_value, of each of the methods 1 to 4 and of
    reduce_working_space, on any board and working array, leaves a working
    array in which every set entry was set before the call; so the sum after
    the call is at most the sum before it.  (The calls of the reducer always
    end: they return or raise IndexError.) *)
Theorem candidate_count_monotone :
  (forall i j n st,
      le3 (working (set_board_value i j n st)) (working st) /\
      wsum (working (set_board_value i j n st)) <= wsum (working st)) /\
  only_clears wr_method_1 /\ only_clears wr_method_2 /\
  only_clears wr_method_3 /\ (forall N, only_clears (wr_method_4 N)) /\
  only_clears reduce_working_space.
Proof.
  split; [| split; [| split; [| split; [| split]]]].
  - intros i j n st. split; [apply set_board_value_le3 |].
    apply wsum_mono, set_board_value_le3.
  - apply keeps_only_clears, wr_method_1_below.
  - apply keeps_only_clears, wr_method_2_below.
  - apply keeps_only_clears, wr_method_3_below.
  - intros N. apply keeps_only_clears. intros w0. apply wr_method_4_below.
  - intros w. pose proof (reduce_working_space_below w) as H. unfold wp in H.
    destruct (reduce_working_space w) as [w' [r | e]]; cbn [fst snd].
    + destruct H as [H _]. split; [done |]. split; [by apply wsum_mono | done].
    + destruct H as [-> H]. split; [done |]. split; [by apply wsum_mono | done].
Qed.

(** ** C3 *)

(** C3.  After set_board_value(board, working, i, j, n), for a cell (i,j) of
    the grid and a digit n from 1 to 9: the board holds n at (i,j); candidate
    n is cleared in every cell of row i, of column j and of the block of
    (i,j); and no candidate is left at (i,j). *)
Theorem set_board_value_post st i j n :
  i < 9 -> j < 9 -> 1 <= n <= 9 ->
  bget (board (set_board_value i j n st)) i j = n /\
  (forall j', get (working (set_board_value i j n st)) i j' n = false) /\
  (forall i', get (working (set_board_value i j n st)) i' j n = false) /\
  (forall i' j', i' / 3 = i / 3 -> j' / 3 = j / 3 ->
                 get (working (set_board_value i j n st)) i' j' n = false) /\
  (forall n', get (working (set_board_value i j n st)) i j n' = false).
Proof.
  intros Hi Hj Hn. split.
  - rewrite board_set_board_value.
    destruct (Nat.ltb_spec i 9), (Nat.ltb_spec j 9); try lia.
    by rewrite !Nat.eqb_refl.
  - repeat split; intros; apply not_true_is_false; intros Hg;
      apply get_set_board_value in Hg; tauto.
Qed.

Lemma set_board_value_post_witness :
  bget (board (set_board_value 4 7 5 (mkSt board_row0 (init_working board_row0) []))) 4 7 = 5.
Proof.
  apply (set_board_value_post (mkSt board_row0 (init_working board_row0) []) 4 7 5);
    lia.
Defined.

(** ** C1 and C10 *)

(** C10.  On [board_two_columns] the first pass (axis 0) finds digit 1 alone
    in column 0 and alone in column 1, both at row 0.  Setting (0,0) to 1
    clears candidate 1 along row 0, so the entry for column 1 has no set
    candidate left when flatnonzero(...)[0] is indexed: IndexError. *)
Theorem find_simple_values_stale_snapshot :
  nonzero2 9 10 (fun a b => line_count (init_working board_two_columns) 0 a b =? 1)
    = [(0, 1); (1, 1)] /\
  (find_simple_values 0 (mkSt board_two_columns (init_working board_two_columns) [])).2
    = Err IndexError.
Proof. split; vm_compute; reflexivity. Qed.

(** C1.  On [board_two_columns] solve_sudoku ends neither in Solved nor in
    Stuck: the exception of the first pass ends the run, with 414 candidates
    left in the working array. *)
Theorem solve_sudoku_raises :
  (solve_sudoku board_two_columns).2 = Raised /\
  wsum (working (solve_sudoku board_two_columns).1) = 414 /\
  control_events (solve_sudoku board_two_columns).1 = [EPass 0 Crashed].
Proof. repeat split; vm_compute; reflexivity. Qed.

(** ** C6 *)

(** The reducer is only called when the four passes before the call all
    failed. *)
Definition reducer_after_four_failures (l : list event) : Prop :=
  forall l1 r l2, l = l1 ++ EReduce r :: l2 ->
    exists l0 a1 a2 a3 a4,
      l1 = l0 ++ [EPass a1 NotFound; EPass a2 NotFound;
                  EPass a3 NotFound; EPass a4 NotFound].

Lemma control_events_row0 :
  control_events (solve_sudoku board_row0).1 =
  [EPass 0 NotFound; EPass 1 Found; EPass 2 NotFound; EPass 3 NotFound;
   EPass 0 NotFound; EReduce (Ok false)].
Proof. vm_compute. reflexivity. Qed.

(** C6.  On [board_row0] the pass over axis 1 sets cell (0,0); the passes
    over axes 2, 3 and 0 then fail and the reducer is called, although only
    three passes failed since the last assignment: nothing_found is not
    reset by a successful pass. *)
Theorem reducer_called_after_three_failures :
  ~ reducer_after_four_failures (control_events (solve_sudoku board_row0).1).
Proof.
  rewrite control_events_row0. intros H.
  destruct (H [EPass 0 NotFound; EPass 1 Found; EPass 2 NotFound;
               EPass 3 NotFound; EPass 0 NotFound] (Ok false) [] eq_refl)
    as (l0 & a1 & a2 & a3 & a4 & Heq).
  assert (Hrev := f_equal (@rev event) Heq).
  rewrite rev_app_distr in Hrev. cbn [rev app] in Hrev. done.
Qed.

(** ** C7 *)

(** The claim: a successful pass is followed by a pass over the same axis. *)
Definition retries_same_axis (l : list event) : Prop :=
  forall l1 a e l2, l = l1 ++ EPass a Found :: e :: l2 -> exists r, e = EPass a r.

Lemma successful_pass_not_retried :
  ~ retries_same_axis (control_events (solve_sudoku board_row0).1).
Proof.
  rewrite control_events_row0. intros H.
  destruct (H [EPass 0 NotFound] 1 (EPass 2 NotFound)
              [EPass 3 NotFound; EPass 0 NotFound; EReduce (Ok false)] eq_refl)
    as [r Hr].
  done.
Qed.

(** C7, amended.  In every run, the entry that follows a successful pass
    over an axis is a pass over the next axis of the cycle 0, 1, 2, 3, 0:
    the for loop goes on to its next axis. *)
Theorem successful_pass_moves_on b l1 a e l2 :
  control_events (solve_sudoku b).1 = l1 ++ EPass a Found :: e :: l2 ->
  exists r, e = EPass (S a mod 4) r.
Proof.
  apply well_ordered_rev. unfold solve_sudoku. cbv zeta.
  apply solve_loop_ready. split; [done |]. intros a' Ha. done.
Qed.

Lemma successful_pass_moves_on_witness :
  exists r, EPass 2 NotFound = EPass (2 mod 4) r.
Proof.
  apply (successful_pass_moves_on board_row0 [EPass 0 NotFound] 1 (EPass 2 NotFound)
           [EPass 3 NotFound; EPass 0 NotFound; EReduce (Ok false)]).
  vm_compute. reflexivity.
Defined.

(** ** C8 *)

(** C8.  A cell that is not blank in the input grid holds the same value in
    the board solve_sudoku leaves, however the run ends, and no call of
    set_board_value made during the run is on such a cell. *)
Theorem givens_never_overwritten b i j :
  i < 9 -> j < 9 -> bget b i j <> 0 ->
  bget (board (solve_sudoku b).1) i j = bget b i j /\
  forall w n, ~ In (EAssign w i j n) (trace (solve_sudoku b).1).
Proof.
  intros Hi Hj Hne. destruct (solve_sudoku_givens_kept b) as (_ & Hk & Hc).
  split; [by apply Hk |]. intros w n Hin. by apply Hne, (Hc w i j n).
Qed.

Lemma givens_never_overwritten_witness :
  bget (board (solve_sudoku board_row0).1) 0 3 = bget board_row0 0 3 /\
  forall w n, ~ In (EAssign w 0 3 n) (trace (solve_sudoku board_row0).1).
Proof.
  apply (givens_never_overwritten board_row0 0 3); [lia | lia |].
  vm_compute. discriminate.
Defined.

(** ** C9 *)

(** C9.  Every call of set_board_value made during a run of solve_sudoku
    lowers the sum of the working array by at least 1: [w] is the working
    array the call is made on, and the call is made for a digit that is
    still a candidate of the cell. *)
Theorem set_board_value_strict_in_run b w i j n st :
  In (EAssign w i j n) (trace (solve_sudoku b).1) -> working st = w ->
  wsum (working (set_board_value i j n st)) + 1 <= wsum (working st).
Proof.
  intros Hin <-.
  destruct (solve_sudoku_calls_live b _ i j n Hin) as (Hi & Hj & Hn & Hg).
  pose proof (set_board_value_strict i j n st Hi Hj Hn Hg). lia.
Qed.

Lemma set_board_value_strict_in_run_witness :
  wsum (working (set_board_value 0 0 1 (mkSt board_row0 (init_working board_row0) [])))
    + 1 <= wsum (working (mkSt board_row0 (init_working board_row0) [])).
Proof.
  apply (set_board_value_strict_in_run board_row0 (init_working board_row0) 0 0 1
           (mkSt board_row0 (init_working board_row0) [])).
  - vm_compute. do 5 right. left. reflexivity.
  - reflexivity.
Defined.

(** ** C4 *)

(** Cells (0,0) and (0,5) of row 0 have candidates {1,2}; cells (1,1) and
    (2,2), in the block of (0,0), have {1,3}; every other cell has all nine
    digits. *)
Definition working_two_pairs : Working :=
  tab3 (fun i j n =>
          if ((i =? 0) && (j =? 0)) || ((i =? 0) && (j =? 5)) then among [1; 2] n
          else if ((i =? 1) && (j =? 1)) || ((i =? 2) && (j =? 2)) then among [1; 3] n
          else (1 <=? n) && (n <=? 9)).

(** Method 3 on [working_two_pairs]: the pair {1,3} of the block takes
    candidate 1 away from (0,0), a defining cell of the pair {1,2} of row 0. *)
Lemma method_3_alters_defining_cell :
  candidates working_two_pairs 0 0 = [1; 2] /\
  candidates working_two_pairs 0 5 = [1; 2] /\
  (wr_method_3 working_two_pairs).2 = Ok tt /\
  candidates (wr_method_3 working_two_pairs).1 0 0 = [2].
Proof. repeat split; vm_compute; reflexivity. Qed.

(** Row 0 has the pair {5,6} at (0,0), (0,1), the pair {1,2} at (0,5),
    (0,6), the candidates {5,7} at (0,2) and {1,3,5,6} at (0,3), (0,4);
    every other cell has all nine digits.  The two pairs have no digit in
    common. *)
Definition working_restart : Working :=
  tab3 (fun i j n =>
          if negb (i =? 0) then (1 <=? n) && (n <=? 9)
          else if (j =? 0) || (j =? 1) then among [5; 6] n
          else if j =? 2 then among [5; 7] n
          else if (j =? 3) || (j =? 4) then among [1; 3; 5; 6] n
          else if (j =? 5) || (j =? 6) then among [1; 2] n
          else (1 <=? n) && (n <=? 9)).

(** Method 3 on [working_restart]: clearing 5 and 6 for the first pair
    changes the listed cell (0,2), the call restarts, (0,3) and (0,4) are
    now a pair {1,3}, and its clearing takes candidate 1 from both cells of
    the pair {1,2}. *)
Lemma method_3_restart_breaks_pair :
  candidates working_restart 0 5 = [1; 2] /\
  candidates working_restart 0 6 = [1; 2] /\
  (wr_method_3 working_restart).2 = Ok tt /\
  candidates (wr_method_3 working_restart).1 0 5 = [2] /\
  candidates (wr_method_3 working_restart).1 0 6 = [2].
Proof. repeat split; vm_compute; reflexivity. Qed.

(** The pair {1,2} at (0,0), (0,5), a second pair {5,6} at (8,7), (8,8)
    and a single cell (4,4) with the candidates {1,7}; every other cell
    has all nine digits. *)
Definition working_apart : Working :=
  tab3 (fun i j n =>
          if (i =? 0) && ((j =? 0) || (j =? 5)) then among [1; 2] n
          else if (i =? 8) && ((j =? 7) || (j =? 8)) then among [5; 6] n
          else if (i =? 4) && (j =? 4) then among [1; 7] n
          else (1 <=? n) && (n <=? 9)).

(** A naked pair: two cells of the grid that share a unit and have the
    same two candidates [n], [m]. *)
Definition naked_pair (w : Working) (a b : nat * nat) (n m : nat) : Prop :=
  a.1 < 9 /\ a.2 < 9 /\ b.1 < 9 /\ b.2 < 9 /\ a <> b /\ same_unit a b /\
  candidates w a.1 a.2 = [n; m] /\ candidates w b.1 b.2 = [n; m].

(** No clearing for a naked pair touches a cell that Method 3 lists: a
    cell with exactly two candidates that lies in a unit holding both cells
    of a naked pair, and is not one of them, has none of the pair's
    digits. *)
Definition undisturbed (w : Working) : Prop :=
  forall a b n m d, naked_pair w a b n m ->
    d.1 < 9 -> d.2 < 9 -> d <> a -> d <> b -> in_shared_unit d a b ->
    ncand w d.1 d.2 = 2 ->
    get w d.1 d.2 n = false /\ get w d.1 d.2 m = false.

Definition same_unitb (c1 c2 : nat * nat) : bool :=
  (c1.1 =? c2.1) || (c1.2 =? c2.2)
  || ((c1.1 / 3 =? c2.1 / 3) && (c1.2 / 3 =? c2.2 / 3)).

Definition in_shared_unitb (c c1 c2 : nat * nat) : bool :=
  ((c.1 =? c1.1) && (c.1 =? c2.1)) || ((c.2 =? c1.2) && (c.2 =? c2.2))
  || ((c.1 / 3 =? c1.1 / 3) && (c.1 / 3 =? c2.1 / 3)
      && (c.2 / 3 =? c1.2 / 3) && (c.2 / 3 =? c2.2 / 3)).

Definition cell_eqb (c1 c2 : nat * nat) : bool := (c1.1 =? c2.1) && (c1.2 =? c2.2).

(** The cells with exactly two candidates, as Method 3 lists them. *)
Definition two_cells (w : Working) : list (nat * nat) :=
  nonzero2 9 9 (fun i j => ncand w i j =? 2).

Definition undisturbedb (w : Working) : bool :=
  forallb (fun a =>
    forallb (fun b =>
      negb (negb (cell_eqb a b) && same_unitb a b
            && bool_decide (candidates w a.1 a.2 = candidates w b.1 b.2))
      || forallb (fun d =>
           cell_eqb d a || cell_eqb d b || negb (in_shared_unitb d a b)
           || forallb (fun k => negb (get w d.1 d.2 k)) (candidates w a.1 a.2))
           (two_cells w))
      (two_cells w))
    (two_cells w).

(** The naked pairs of the grid, each in both orders. *)
Definition naked_pairs (w : Working) : list ((nat * nat) * (nat * nat)) :=
  List.filter
    (fun ab => negb (cell_eqb ab.1 ab.2) && same_unitb ab.1 ab.2
               && bool_decide (candidates w ab.1.1 ab.1.2 = candidates w ab.2.1 ab.2.2))
    (list_prod (two_cells w) (two_cells w)).

(** The pair {1,2} at (0,0), (0,5) is the only naked pair; (0,1) and (0,2)
    have {1,2,8,9}, (0,7) has {1,4}, (1,1) has {1,3,8}, (2,0) has {5,8} and
    (2,2) has {1,3}; every other cell has all nine digits. *)
Definition working_cascade : Working :=
  tab3 (fun i j n =>
          if (i =? 0) && ((j =? 0) || (j =? 5)) then among [1; 2] n
          else if (i =? 0) && ((j =? 1) || (j =? 2)) then among [1; 2; 8; 9] n
          else if (i =? 0) && (j =? 7) then among [1; 4] n
          else if (i =? 1) && (j =? 1) then among [1; 3; 8] n
          else if (i =? 2) && (j =? 2) then among [1; 3] n
          else if (i =? 2) && (j =? 0) then among [5; 8] n
          else (1 <=? n) && (n <=? 9)).

(** Method 3 on [working_cascade]: the clearing for the pair {1,2} changes
    the listed cell (0,7) and leaves (0,1), (0,2) as a pair {8,9}; after
    the restart the clearing for {8,9} changes the listed cell (2,0) and
    leaves (1,1) with {1,3}; after the second restart (1,1), (2,2) are a
    pair {1,3} of block 0, and its clearing takes candidate 1 from (0,0). *)
Lemma method_3_cascade_breaks_pair :
  naked_pairs working_cascade = [((0, 0), (0, 5)); ((0, 5), (0, 0))] /\
  candidates working_cascade 0 0 = [1; 2] /\
  candidates working_cascade 0 5 = [1; 2] /\
  (wr_method_3 working_cascade).2 = Ok tt /\
  candidates (wr_method_3 working_cascade).1 0 0 = [2].
Proof. repeat split; vm_compute; reflexivity. Qed.

Lemma same_unitb_spec c1 c2 : same_unitb c1 c2 = true <-> same_unit c1 c2.
Proof.
  unfold same_unitb, same_unit.
  rewrite !orb_true_iff, andb_true_iff, !Nat.eqb_eq. tauto.
Qed.

Lemma in_shared_unitb_spec c c1 c2 :
  in_shared_unitb c c1 c2 = true <-> in_shared_unit c c1 c2.
Proof.
  unfold in_shared_unitb, in_shared_unit.
  rewrite !orb_true_iff, !andb_true_iff, !Nat.eqb_eq. tauto.
Qed.

Lemma cell_eqb_spec c1 c2 : cell_eqb c1 c2 = true <-> c1 = c2.
Proof.
  unfold cell_eqb. rewrite andb_true_iff, !Nat.eqb_eq.
  destruct c1, c2; cbn [fst snd]. split; [intros [-> ->]; done | intros H; by inversion H].
Qed.

Lemma in_two_cells w c : In c (two_cells w) <-> c.1 < 9 /\ c.2 < 9 /\ ncand w c.1 c.2 = 2.
Proof. unfold two_cells. rewrite in_nonzero2, Nat.eqb_eq. tauto. Qed.

Lemma undisturbedb_spec w : undisturbedb w = true -> undisturbed w.
Proof.
  unfold undisturbedb. rewrite forallb_forall. intros H a b n m d
    (Ha1 & Ha2 & Hb1 & Hb2 & Hab & Hu & Hca & Hcb) Hd1 Hd2 Hda Hdb Hsh Hcd.
  destruct (candidates_pair _ _ _ _ _ Hca) as (_ & _ & Hgn & Hgm & Hna).
  destruct (candidates_pair _ _ _ _ _ Hcb) as (_ & _ & _ & _ & Hnb).
  specialize (H a (proj2 (in_two_cells w a) (conj Ha1 (conj Ha2 Hna)))).
  rewrite forallb_forall in H.
  specialize (H b (proj2 (in_two_cells w b) (conj Hb1 (conj Hb2 Hnb)))).
  apply orb_true_iff in H as [H | H].
  - exfalso. apply negb_true_iff in H.
    assert (Hone : negb (cell_eqb a b) = true).
    { apply negb_true_iff, not_true_is_false. by rewrite cell_eqb_spec. }
    assert (Htwo : same_unitb a b = true) by (by apply same_unitb_spec).
    rewrite Hone, Htwo, Hca, Hcb in H. cbn [andb] in H.
    by rewrite bool_decide_eq_true_2 in H.
  - rewrite forallb_forall in H.
    specialize (H d (proj2 (in_two_cells w d) (conj Hd1 (conj Hd2 Hcd)))).
    rewrite !orb_true_iff, !cell_eqb_spec, negb_true_iff in H.
    destruct H as [[[H | H] | H] | H]; try done.
    + apply in_shared_unitb_spec in Hsh. congruence.
    + rewrite forallb_forall, Hca in H. split.
      * apply negb_true_iff, H. by left.
      * apply negb_true_iff, H. right. by left.
Qed.

(** One partner step, entry by entry. *)
Lemma pair_step_digit i j n m w c2 a b k :
  a < 9 -> b < 9 -> k < 10 -> k <> n -> k <> m ->
  get (pair_step i j n m w c2) a b k = get w a b k.
Proof.
  intros Ha Hb Hk Hn Hm.
  destruct (same_unit_dec (i, j) c2) as [Hu | Hu].
  - rewrite (pair_step_shared i j n m w c2 Hu), get_readd by done.
    apply Nat.eqb_neq in Hn, Hm. rewrite Hn, Hm. cbn [orb].
    rewrite andb_false_r. cbn [orb]. apply pair_cleared_other; try done;
      by apply Nat.eqb_neq.
  - by rewrite (pair_step_unshared i j n m w c2 Hu).
Qed.

Lemma pair_step_apart i j n m w c2 a b k :
  a < 9 -> b < 9 -> k < 10 ->
  (a, b) <> (i, j) -> (a, b) <> c2 -> ~ in_shared_unit (a, b) (i, j) c2 ->
  get (pair_step i j n m w c2) a b k = get w a b k.
Proof.
  intros Ha Hb Hk H1 H2 Hsh.
  destruct (same_unit_dec (i, j) c2) as [Hu | Hu].
  - rewrite (pair_step_shared i j n m w c2 Hu), get_readd by done.
    destruct c2 as [i2 j2]. cbn [fst snd].
    assert (Hsel : (a =? i2) && (b =? j2) || (a =? i) && (b =? j) = false).
    { destruct (Nat.eqb_spec a i2), (Nat.eqb_spec b j2), (Nat.eqb_spec a i),
        (Nat.eqb_spec b j); cbn [andb orb]; try done; subst; tauto. }
    rewrite Hsel. cbn [andb orb]. by apply pair_cleared_unshared.
  - by rewrite (pair_step_unshared i j n m w c2 Hu).
Qed.

Lemma pair_step_own i j n m w c2 a b k :
  a < 9 -> b < 9 -> k < 10 -> same_unit (i, j) c2 ->
  (a, b) = (i, j) \/ (a, b) = c2 -> k = n \/ k = m ->
  get (pair_step i j n m w c2) a b k = true.
Proof.
  intros Ha Hb Hk Hu Hab Hnm.
  rewrite (pair_step_shared i j n m w c2 Hu), get_readd by done.
  destruct c2 as [i2 j2]. cbn [fst snd].
  assert (Hsel : (a =? i2) && (b =? j2) || (a =? i) && (b =? j) = true).
  { destruct Hab as [Hab | Hab]; injection Hab as -> ->; rewrite !Nat.eqb_refl;
      cbn [andb orb]; by rewrite ?orb_true_r. }
  assert (Hd : (k =? n) || (k =? m) = true).
  { destruct Hnm as [-> | ->]; rewrite Nat.eqb_refl; by rewrite ?orb_true_r. }
  by rewrite Hsel, Hd.
Qed.

Lemma candidates_get w w' i j :
  candidates w' i j = candidates w i j ->
  forall k, k < 10 -> get w' i j k = get w i j k.
Proof.
  intros H k Hk.
  pose proof (candidates_in w i j k) as H1. pose proof (candidates_in w' i j k) as H2.
  rewrite H in H2.
  destruct (get w i j k), (get w' i j k); try done; intuition (done || lia).
Qed.

Lemma candidates_two w i j :
  ncand w i j = 2 -> exists n m, candidates w i j = [n; m].
Proof.
  rewrite ncand_length. intros H.
  destruct (candidates w i j) as [| n [| m [| ? ?]]]; try done. by exists n, m.
Qed.

Lemma in_shared_unit_sym c a b : in_shared_unit c a b <-> in_shared_unit c b a.
Proof. unfold in_shared_unit. tauto. Qed.

Section Undisturbed.
Variable w : Working.
Hypothesis Hund : undisturbed w.
Variables (c1 c2 : nat * nat) (n m : nat).
Hypothesis Hpair : naked_pair w c1 c2 n m.

(** The cells that Method 3 lists have the candidates they had in [w]. *)
Definition listed_kept (w' : Working) : Prop :=
  forall x, x.1 < 9 -> x.2 < 9 -> ncand w x.1 x.2 = 2 ->
            candidates w' x.1 x.2 = candidates w x.1 x.2.

(** The pair's digits are cleared from the other cells of the units that
    hold both cells. *)
Definition pair_done (w' : Working) : Prop :=
  forall e, e.1 < 9 -> e.2 < 9 -> e <> c1 -> e <> c2 -> in_shared_unit e c1 c2 ->
            get w' e.1 e.2 n = false /\ get w' e.1 e.2 m = false.

Lemma step_listed_kept w' d d' p q :
  listed_kept w' ->
  d.1 < 9 -> d.2 < 9 -> d'.1 < 9 -> d'.2 < 9 -> d <> d' ->
  candidates w d.1 d.2 = [p; q] -> candidates w d'.1 d'.2 = [p; q] ->
  listed_kept (pair_step d.1 d.2 p q w' d').
Proof.
  destruct d as [i j]. cbn [fst snd]. intros Hk Hd1 Hd2 Hd1' Hd2' Hne Hc Hc'.
  destruct (same_unit_dec (i, j) d') as [Hu | Hu];
    [| by rewrite (pair_step_unshared _ _ _ _ _ _ Hu)].
  assert (Hnp : naked_pair w (i, j) d' p q) by (unfold naked_pair; tauto).
  destruct (candidates_pair _ _ _ _ _ Hc) as (Hp & Hq & Hgp & Hgq & Hnd).
  destruct (candidates_pair _ _ _ _ _ Hc') as (_ & _ & Hgp' & Hgq' & Hnd').
  intros [a b] Ha Hb Hx. cbn [fst snd] in *.
  pose proof (Hk (a, b) Ha Hb Hx) as Hkx. cbn [fst snd] in Hkx. rewrite <- Hkx.
  assert (Hsame : forall k, k < 10 -> get w' a b k = get w a b k)
    by (by apply candidates_get).
  unfold candidates. apply filter_ext_in. intros k Hkin. apply in_seq in Hkin.
  assert (Hk10 : k < 10) by lia.
  destruct (decide (k = p \/ k = q)) as [Hpq | Hpq];
    [| apply pair_step_digit; try done; tauto].
  destruct (decide ((a, b) = (i, j) \/ (a, b) = d')) as [Hown | Hown].
  { rewrite pair_step_own by done. rewrite Hsame by done.
    destruct Hown as [Hown | Hown].
    - injection Hown as -> ->. by destruct Hpq as [-> | ->].
    - subst d'. cbn [fst snd] in *. by destruct Hpq as [-> | ->]. }
  destruct (decide (in_shared_unit (a, b) (i, j) d')) as [Hsh | Hsh];
    [| apply pair_step_apart; try done; tauto].
  destruct (Hund (i, j) d' p q (a, b) Hnp) as [Hfp Hfq]; try done; try tauto.
  cbn [fst snd] in Hfp, Hfq.
  assert (Hw' : get w' a b k = false).
  { rewrite Hsame by done. by destruct Hpq as [-> | ->]. }
  rewrite Hw'. apply not_true_is_false. intros Hg.
  apply pair_step_upper in Hg as [Hg | [_ Hg]]; [congruence | tauto].
Qed.

Lemma step_pair_done w' d d' p q :
  listed_kept w' -> pair_done w' ->
  d.1 < 9 -> d.2 < 9 -> d'.1 < 9 -> d'.2 < 9 ->
  candidates w d.1 d.2 = [p; q] -> candidates w d'.1 d'.2 = [p; q] ->
  pair_done (pair_step d.1 d.2 p q w' d').
Proof.
  intros Hk Hdone Hd1 Hd2 Hd1' Hd2' Hc Hc'.
  destruct (candidates_pair _ _ _ _ _ Hc) as (Hp & Hq & Hgp & Hgq & Hnd).
  destruct (candidates_pair _ _ _ _ _ Hc') as (_ & _ & Hgp' & Hgq' & Hnd').
  destruct Hpair as (Hc11 & Hc12 & Hc21 & Hc22 & Hc12ne & Hcu & Hcc1 & Hcc2).
  assert (Hdd : (d.1, d.2) = d) by (by destruct d).
  assert (Hkeep : forall e k, e.1 < 9 -> e.2 < 9 -> e <> c1 -> e <> c2 ->
            in_shared_unit e c1 c2 -> k = n \/ k = m ->
            get w' e.1 e.2 k = false ->
            get (pair_step d.1 d.2 p q w' d') e.1 e.2 k = false).
  { intros e k He1 He2 Hne1 Hne2 Hsh Hknm Hf.
    apply not_true_is_false. intros Hg.
    apply pair_step_upper in Hg as [Hg | [Hkpq Hg]]; [congruence |].
    assert (Hee : (e.1, e.2) = e) by (by destruct e).
    rewrite Hee, Hdd in Hg.
    assert (Hce : candidates w e.1 e.2 = [p; q]) by (destruct Hg as [-> | ->]; done).
    destruct (candidates_pair _ _ _ _ _ Hce) as (_ & _ & Hep & Heq & Hne).
    destruct (Hund c1 c2 n m e) as [Hfn Hfm]; try done.
    destruct Hknm as [-> | ->], Hkpq as [-> | ->]; congruence. }
  intros e He1 He2 Hne1 Hne2 Hsh.
  destruct (Hdone e He1 He2 Hne1 Hne2 Hsh) as [Hfn Hfm].
  split; apply Hkeep; auto.
Qed.

Lemma step_pair_new w' d d' :
  listed_kept w' -> (d = c1 /\ d' = c2) \/ (d = c2 /\ d' = c1) ->
  pair_done (pair_step d.1 d.2 n m w' d').
Proof.
  intros Hk Hdd.
  destruct Hpair as (Hc11 & Hc12 & Hc21 & Hc22 & Hc12ne & Hcu & Hcc1 & Hcc2).
  destruct (candidates_pair _ _ _ _ _ Hcc1) as (_ & _ & _ & _ & Hn1).
  destruct (candidates_pair _ _ _ _ _ Hcc2) as (_ & _ & _ & _ & Hn2).
  pose proof (Hk c1 Hc11 Hc12 Hn1) as Hk1. pose proof (Hk c2 Hc21 Hc22 Hn2) as Hk2.
  rewrite Hcc1 in Hk1. rewrite Hcc2 in Hk2.
  intros e He1 He2 Hne1 Hne2 Hsh.
  destruct Hdd as [[-> ->] | [-> ->]].
  - destruct (pair_step_post w' c1 c2 n m) as (Hd & _); try done.
    by apply (Hd e).
  - destruct (pair_step_post w' c2 c1 n m) as (Hd & _); try done.
    + unfold same_unit in *. lia.
    + apply (Hd e); try done. by apply in_shared_unit_sym.
Qed.

(** The inner loop over the partners of a cell. *)
Lemma partners_fold d p q L w' :
  listed_kept w' ->
  d.1 < 9 -> d.2 < 9 -> candidates w d.1 d.2 = [p; q] ->
  (forall d', In d' L -> d'.1 < 9 /\ d'.2 < 9 /\ d' <> d /\
                         candidates w d'.1 d'.2 = [p; q]) ->
  listed_kept (fold_left (pair_step d.1 d.2 p q) L w') /\
  (pair_done w' -> pair_done (fold_left (pair_step d.1 d.2 p q) L w')) /\
  (forall d', In d' L -> (d = c1 /\ d' = c2) \/ (d = c2 /\ d' = c1) ->
              pair_done (fold_left (pair_step d.1 d.2 p q) L w')).
Proof.
  intros Hk Hd1 Hd2 Hc. revert w' Hk.
  induction L as [| d' L IH]; intros w' Hk HL; cbn [fold_left]; [by split |].
  destruct (HL d') as (Hd1' & Hd2' & Hne & Hc'); [by left |].
  assert (Hk' : listed_kept (pair_step d.1 d.2 p q w' d')).
  { apply step_listed_kept; done. }
  destruct (IH _ Hk') as (IH1 & IH2 & IH3); [intros x Hx; apply HL; by right |].
  split; [done |]. split.
  - intros Hdone. apply IH2. by apply step_pair_done.
  - intros x [<- | Hx] Hcase; [| by apply (IH3 x)].
    apply IH2.
    assert (Hnm : p = n /\ q = m).
    { destruct Hpair as (_ & _ & _ & _ & _ & _ & Hcc1 & Hcc2).
      destruct Hcase as [[-> _] | [-> _]]; split; congruence. }
    destruct Hnm as [-> ->]. by apply step_pair_new.
Qed.

(** The scan over the listed cells: no restart, the listed cells keep
    their candidates, and once both cells of the pair are behind the pair's
    digits are cleared. *)
Lemma m3_scan_undisturbed rest pairs w' :
  NoDup rest ->
  (forall d, In d rest -> d.1 < 9 /\ d.2 < 9 /\ ncand w d.1 d.2 = 2) ->
  listed_kept w' ->
  (forall key L d', pairs !! key = Some L -> In d' L ->
     d'.1 < 9 /\ d'.2 < 9 /\ ~ In d' rest /\
     candidates w d'.1 d'.2 = [key.1; key.2]) ->
  (forall c, c = c1 \/ c = c2 -> In c rest \/ In c (default [] (pairs !! (n, m)))) ->
  (~ In c1 rest -> ~ In c2 rest -> pair_done w') ->
  (m3_scan rest pairs w').2 = false /\
  listed_kept (m3_scan rest pairs w').1 /\ pair_done (m3_scan rest pairs w').1.
Proof.
  revert pairs w'. induction rest as [| d rest IH];
    intros pairs w' Hnd Hrest Hk Hpairs Hboth Hdone; cbn [m3_scan fst snd].
  - split; [done |]. split; [done |]. apply Hdone; by intros [].
  - apply NoDup_cons_iff in Hnd as [Hd Hnd].
    destruct (Hrest d) as (Hd1 & Hd2 & Hdn); [by left |].
    destruct (candidates_two w d.1 d.2 Hdn) as (p & q & Hc).
    rewrite (Hk d Hd1 Hd2 Hdn), Hc.
    assert (HL : forall d', In d' (default [] (pairs !! (p, q))) ->
              d'.1 < 9 /\ d'.2 < 9 /\ d' <> d /\ candidates w d'.1 d'.2 = [p; q]).
    { intros d' Hd'. destruct (pairs !! (p, q)) as [L |] eqn:E; [| done].
      destruct (Hpairs (p, q) L d' E Hd') as (H1 & H2 & H3 & H4).
      repeat split; try done. intros ->. apply H3. by left. }
    destruct (partners_fold d p q (default [] (pairs !! (p, q))) w' Hk Hd1 Hd2 Hc HL)
      as (Hk' & Hkeep & Hnew).
    apply IH; try done.
    + intros x Hx. apply Hrest. by right.
    + intros key L d' Hlook Hd'.
      destruct (decide (key = (p, q))) as [-> | Hkey].
      * rewrite lookup_insert_eq in Hlook. injection Hlook as <-.
        apply in_app_or in Hd' as [Hd' | [<- | []]].
        -- destruct (pairs !! (p, q)) as [L |] eqn:E; [| done].
           destruct (Hpairs (p, q) L d' E Hd') as (H1 & H2 & H3 & H4).
           repeat split; try done. intros Hin. apply H3. by right.
        -- done.
      * rewrite lookup_insert_ne in Hlook by done.
        destruct (Hpairs key L d' Hlook Hd') as (H1 & H2 & H3 & H4).
        repeat split; try done. intros Hin. apply H3. by right.
    + intros c Hcc. destruct (Hboth c Hcc) as [[<- | Hin] | Hin]; [| by left |].
      * right.
        assert (Hnm : (p, q) = (n, m)).
        { destruct Hpair as (_ & _ & _ & _ & _ & _ & Hcc1 & Hcc2).
          destruct Hcc as [-> | ->]; congruence. }
        rewrite <- Hnm, lookup_insert_eq. cbn [default].
        apply in_or_app. right. by left.
      * right. destruct (decide ((n, m) = (p, q))) as [Heq | Hneq].
        -- rewrite Heq, lookup_insert_eq. cbn [default]. rewrite <- Heq.
           apply in_or_app. by left.
        -- by rewrite lookup_insert_ne.
    + intros Hn1 Hn2.
      destruct (decide (d = c1 \/ d = c2)) as [Hdc | Hdc].
      * destruct Hpair as (_ & _ & _ & _ & Hne12 & _ & Hcc1 & Hcc2).
        assert (Hnm : (p, q) = (n, m)) by (destruct Hdc as [-> | ->]; congruence).
        injection Hnm as -> ->.
        destruct Hdc as [-> | ->].
        -- apply (Hnew c2); [| by left].
           destruct (Hboth c2) as [[Heq | Hin] | Hin]; try done; by auto.
        -- apply (Hnew c1); [| by right].
           destruct (Hboth c1) as [[Heq | Hin] | Hin]; try done; by auto.
      * apply Hkeep, Hdone; intros [Heq | Hin]; try done; apply Hdc; auto.
Qed.

Lemma wr_method_3_undisturbed :
  (wr_method_3 w).2 = Ok tt /\
  listed_kept (wr_method_3 w).1 /\ pair_done (wr_method_3 w).1.
Proof.
  destruct Hpair as (Hc11 & Hc12 & Hc21 & Hc22 & Hne12 & Hcu & Hcc1 & Hcc2).
  destruct (candidates_pair _ _ _ _ _ Hcc1) as (_ & _ & _ & _ & Hn1).
  destruct (candidates_pair _ _ _ _ _ Hcc2) as (_ & _ & _ & _ & Hn2).
  destruct (m3_scan_undisturbed (nonzero2 9 9 (fun i j => ncand w i j =? 2)) ∅ w)
    as (Hflag & Hk & Hdone).
  - apply NoDup_filter, NoDup_idx2.
  - intros d Hd. apply in_nonzero2 in Hd as (H1 & H2 & H3).
    by apply Nat.eqb_eq in H3.
  - by intros x _ _ _.
  - intros key L d' Hlook. by rewrite lookup_empty in Hlook.
  - intros c [-> | ->]; left; apply in_nonzero2; by rewrite Nat.eqb_eq.
  - intros Hnot. exfalso. apply Hnot. apply in_nonzero2. by rewrite Nat.eqb_eq.
  - unfold wr_method_3. cbn [wr_method_3_rec].
    destruct (m3_scan _ ∅ w) as [w' flag]. cbn [fst snd] in *. by subst flag.
Qed.

End Undisturbed.

(** C4, amended.  When two cells of one unit have exactly the candidates n
    and m, and no cell with exactly two candidates lies, with one of the
    pair's digits, in a unit that holds both cells of a naked pair of the
    grid (other than the pair's own cells), a call of Method 3 returns,
    clears n and m from every other cell of each unit that holds both
    cells, and leaves both cells with exactly the candidates n and m. *)
Theorem naked_pair_undisturbed w c1 c2 n m :
  naked_pair w c1 c2 n m -> undisturbed w ->
  (wr_method_3 w).2 = Ok tt /\
  (forall d, d.1 < 9 -> d.2 < 9 -> d <> c1 -> d <> c2 -> in_shared_unit d c1 c2 ->
             get (wr_method_3 w).1 d.1 d.2 n = false /\
             get (wr_method_3 w).1 d.1 d.2 m = false) /\
  candidates (wr_method_3 w).1 c1.1 c1.2 = [n; m] /\
  candidates (wr_method_3 w).1 c2.1 c2.2 = [n; m].
Proof.
  intros Hpair Hund.
  destruct (wr_method_3_undisturbed w Hund c1 c2 n m Hpair) as (Hok & Hk & Hdone).
  destruct Hpair as (Hc11 & Hc12 & Hc21 & Hc22 & _ & _ & Hcc1 & Hcc2).
  destruct (candidates_pair _ _ _ _ _ Hcc1) as (_ & _ & _ & _ & Hn1).
  destruct (candidates_pair _ _ _ _ _ Hcc2) as (_ & _ & _ & _ & Hn2).
  split; [done |]. split; [exact Hdone |].
  rewrite (Hk c1 Hc11 Hc12 Hn1), (Hk c2 Hc21 Hc22 Hn2). done.
Qed.

Lemma naked_pair_undisturbed_witness :
  candidates (wr_method_3 working_apart).1 0 0 = [1; 2] /\
  candidates (wr_method_3 working_apart).1 0 5 = [1; 2] /\
  get (wr_method_3 working_apart).1 0 3 1 = false /\
  get (wr_method_3 working_apart).1 0 3 2 = false.
Proof.
  destruct (naked_pair_undisturbed working_apart (0, 0) (0, 5) 1 2)
    as (_ & Hd & Hk1 & Hk2).
  - unfold naked_pair. cbn [fst snd].
    split; [lia |]. split; [lia |]. split; [lia |]. split; [lia |].
    split; [discriminate |]. split; [left; reflexivity |].
    split; vm_compute; reflexivity.
  - apply undisturbedb_spec. vm_compute. reflexivity.
  - split; [exact Hk1 |]. split; [exact Hk2 |].
    apply (Hd (0, 3)); cbn [fst snd]; try lia; try discriminate.
    left. split; reflexivity.
Defined.

(** ** C5 *)

(** A complete board, and a puzzle that it completes. *)
Definition board_full : Board :=
  [[5; 3; 4; 6; 7; 8; 9; 1; 2];
   [6; 7; 2; 1; 9; 5; 3; 4; 8];
   [1; 9; 8; 3; 4; 2; 5; 6; 7];
   [8; 5; 9; 7; 6; 1; 4; 2; 3];
   [4; 2; 6; 8; 5; 3; 7; 9; 1];
   [7; 1; 3; 9; 2; 4; 8; 5; 6];
   [9; 6; 1; 5; 3; 7; 2; 8; 4];
   [2; 8; 7; 4; 1; 9; 6; 3; 5];
   [3; 4; 5; 2; 8; 6; 1; 7; 9]].

Definition board_puzzle : Board :=
  [[5; 3; 0; 0; 7; 0; 0; 0; 0];
   [6; 0; 0; 1; 9; 5; 0; 0; 0];
   [0; 9; 8; 0; 0; 0; 0; 6; 0];
   [8; 0; 0; 0; 6; 0; 0; 0; 3];
   [4; 0; 0; 8; 0; 3; 0; 0; 1];
   [7; 0; 0; 0; 2; 0; 0; 0; 6];
   [0; 6; 0; 0; 0; 0; 2; 8; 0];
   [0; 0; 0; 4; 1; 9; 0; 0; 5];
   [0; 0; 0; 0; 8; 0; 0; 7; 9]].

(** [board_full] with (0,1) changed to 5 and the cells (0,0) and (3,1)
    blanked: no digit is repeated in a unit, and neither blank cell has a
    candidate. *)
Definition board_dead_end : Board :=
  [[0; 5; 4; 6; 7; 8; 9; 1; 2];
   [6; 7; 2; 1; 9; 5; 3; 4; 8];
   [1; 9; 8; 3; 4; 2; 5; 6; 7];
   [8; 0; 9; 7; 6; 1; 4; 2; 3];
   [4; 2; 6; 8; 5; 3; 7; 9; 1];
   [7; 1; 3; 9; 2; 4; 8; 5; 6];
   [9; 6; 1; 5; 3; 7; 2; 8; 4];
   [2; 8; 7; 4; 1; 9; 6; 3; 5];
   [3; 4; 5; 2; 8; 6; 1; 7; 9]].

(** On [board_dead_end] the working array is empty from the start: the loop
    is left at once with sum zero and the board, with its two blank cells,
    is returned. *)
Lemma solved_with_blank_cells :
  (solve_sudoku board_dead_end).2 = Solved /\
  wsum (working (solve_sudoku board_dead_end).1) = 0 /\
  bget (board (solve_sudoku board_dead_end).1) 0 0 = 0 /\
  ~ complete (board (solve_sudoku board_dead_end).1).
Proof.
  split; [vm_compute; reflexivity |]. split; [vm_compute; reflexivity |].
  split; [vm_compute; reflexivity |].
  intros H. apply completeb_spec in H. vm_compute in H. discriminate.
Qed.

(** C5, amended.  When the input grid has a completion [s] (a grid with
    each digit exactly once in every row, column and block that agrees with
    the input on its filled cells) and solve_sudoku leaves its loop with sum
    zero, the board it returns is [s]: every row, column and block holds
    each digit 1 to 9 exactly once. *)
Theorem solved_board_complete b s :
  complete s -> agrees s b -> (solve_sudoku b).2 = Solved ->
  complete (board (solve_sudoku b).1) /\
  forall i j, i < 9 -> j < 9 -> bget (board (solve_sudoku b).1) i j = bget s i j.
Proof.
  intros Hc HA Hsolved.
  assert (Heq : forall i j, i < 9 -> j < 9 ->
            bget (board (solve_sudoku b).1) i j = bget s i j).
  { intros i j Hi Hj. apply solved_is_solution; try done. by apply complete_solution. }
  split; [by apply (complete_ext s) | done].
Qed.

Lemma solved_board_complete_witness :
  complete (board (solve_sudoku board_puzzle).1) /\
  forall i j, i < 9 -> j < 9 ->
    bget (board (solve_sudoku board_puzzle).1) i j = bget board_full i j.
Proof.
  apply (solved_board_complete board_puzzle board_full).
  - apply completeb_spec. vm_compute. reflexivity.
  - apply agreesb_spec. vm_compute. reflexivity.
  - vm_compute. reflexivity.
Defined.

(** * Further properties of [sudoku.py] *)

(** ** check_board *)

(** [set(v) != most_set], with [most_set = set(range(1,10))]. *)
Definition most_set : gset nat := list_to_set (seq 1 9).

Definition not_most_set (v : list nat) : bool :=
  negb (bool_decide (list_to_set v = most_set)).

(** [board[i,:]], [board[:,j]] and [board[3*i:3*i+3,3*j:3*j+3].ravel()]. *)
Definition board_row (b : Board) (i : nat) : list nat :=
  map (fun j => bget b i j) (seq 0 9).
Definition board_col (b : Board) (j : nat) : list nat :=
  map (fun i => bget b i j) (seq 0 9).
Definition board_block (b : Board) (i j : nat) : list nat :=
  map (fun c => bget b (3 * i + c.1) (3 * j + c.2)) (idx2 3 3).

(** [orig_board] is [None] or an array; [board[orig_board_filled]] lists the
    entries of [board] at the positions where [orig_board] is not zero. *)
Definition check_board (board : Board) (orig_board : option Board) : bool :=
  let changed :=
    match orig_board with
    | Some orig =>
        let orig_board_filled :=
          List.filter (fun c => negb (bget orig c.1 c.2 =? 0)) (idx2 9 9) in
        existsb (fun c => negb (bget board c.1 c.2 =? bget orig c.1 c.2))
          orig_board_filled
    | None => false
    end in
  if changed then false
  else if existsb (fun i => not_most_set (board_row board i)) (seq 0 9)
          || existsb (fun j => not_most_set (board_col board j)) (seq 0 9)
          || existsb (fun i => existsb (fun j => not_most_set (board_block board i j))
                                 (seq 0 3)) (seq 0 3)
  then false
  else true.

Lemma not_most_set_spec v :
  not_most_set v = false <-> forall d, In d v <-> 1 <= d <= 9.
Proof.
  unfold not_most_set, most_set. rewrite negb_false_iff, bool_decide_eq_true.
  rewrite set_eq. split; intros H d; specialize (H d).
  - rewrite !elem_of_list_to_set, !list_elem_of_In, in_seq in H.
    rewrite H. lia.
  - rewrite !elem_of_list_to_set, !list_elem_of_In, in_seq.
    rewrite H. lia.
Qed.

(** A unit of nine cells whose values are, as a set, the digits 1 to 9
    holds every digit exactly once. *)
Lemma nine_values_once (v : list nat) :
  length v = 9 ->
  (forall d, In d v <-> 1 <= d <= 9) <->
  (forall d, 1 <= d <= 9 -> count_occ Nat.eq_dec v d = 1).
Proof.
  intros Hlen. split.
  - intros H d Hd.
    assert (Hnd : NoDup v).
    { apply (NoDup_incl_NoDup (l := seq 1 9)).
      - apply seq_NoDup.
      - rewrite Hlen, length_seq. lia.
      - intros x Hx. apply in_seq in Hx. apply H. lia. }
    apply NoDup_count_occ'; [done | by apply H].
  - intros H.
    assert (Hincl : incl (seq 1 9) v).
    { intros d Hd. apply in_seq in Hd.
      apply (count_occ_In Nat.eq_dec). rewrite H; lia. }
    intros d. split.
    + intros Hd.
      assert (Hback : incl v (seq 1 9)).
      { apply NoDup_length_incl; [apply seq_NoDup | | done].
        rewrite Hlen, length_seq. lia. }
      apply Hback, in_seq in Hd. lia.
    + intros Hd. apply Hincl, in_seq. lia.
Qed.

Lemma values_row b i : values b (row_cells i) = board_row b i.
Proof. unfold values, row_cells, board_row. by rewrite map_map. Qed.

Lemma values_col b j : values b (col_cells j) = board_col b j.
Proof. unfold values, col_cells, board_col. by rewrite map_map. Qed.

Lemma values_block b x y : values b (block_cells x y) = board_block b x y.
Proof. unfold values, block_cells, board_block. by rewrite map_map. Qed.

Lemma existsb_false {X} (p : X -> bool) (l : list X) :
  existsb p l = false <-> forall x, In x l -> p x = false.
Proof.
  rewrite <- not_true_iff_false, existsb_exists. split.
  - intros H x Hx. destruct (p x) eqn:Hp; [| done]. exfalso. apply H. by exists x.
  - intros H (x & Hx & Hp). rewrite (H x Hx) in Hp. done.
Qed.

(** The three scans of check_board find nothing exactly on complete boards. *)
Lemma units_scan b :
  existsb (fun i => not_most_set (board_row b i)) (seq 0 9)
  || existsb (fun j => not_most_set (board_col b j)) (seq 0 9)
  || existsb (fun i => existsb (fun j => not_most_set (board_block b i j)) (seq 0 3))
       (seq 0 3) = false
  <-> complete b.
Proof.
  rewrite !orb_false_iff, !existsb_false. unfold complete. split.
  - intros [[Hr Hc] Hb] u Hu.
    assert (Hlen := length_units u Hu).
    apply nine_values_once; [unfold values; by rewrite length_map |].
    unfold units in Hu. rewrite !in_app_iff, !in_map_iff in Hu.
    destruct Hu as [(i & <- & Hi) | [(j & <- & Hj) | ([x y] & <- & Hxy)]].
    + rewrite values_row. by apply not_most_set_spec, Hr.
    + rewrite values_col. by apply not_most_set_spec, Hc.
    + cbn [fst snd]. rewrite values_block. apply not_most_set_spec.
      apply in_idx2 in Hxy as [Hx Hy]. cbn [fst snd] in Hx, Hy.
      assert (Hbx : In x (seq 0 3)) by (apply in_seq; lia).
      specialize (Hb x Hbx). rewrite existsb_false in Hb.
      apply (Hb y). apply in_seq. lia.
  - intros H.
    assert (Hu : forall u, In u units -> not_most_set (values b u) = false).
    { intros u Hu. apply not_most_set_spec, nine_values_once.
      - unfold values. rewrite length_map. by apply length_units.
      - by apply H. }
    split; [split |].
    + intros i Hi. rewrite <- values_row. apply Hu.
      unfold units. apply in_or_app. left. by apply in_map.
    + intros j Hj. rewrite <- values_col. apply Hu.
      unfold units. apply in_or_app. right. apply in_or_app. left. by apply in_map.
    + intros x Hx. apply existsb_false. intros y Hy.
      rewrite <- values_block. apply Hu.
      unfold units. apply in_or_app. right. apply in_or_app. right.
      apply in_map_iff. exists (x, y). split; [done |].
      apply in_seq in Hx, Hy. apply in_idx2. cbn [fst snd]. lia.
Qed.

Lemma check_board_iff b orig :
  check_board b orig = true <->
  complete b /\
  match orig with
  | Some o => forall i j, i < 9 -> j < 9 -> bget o i j <> 0 -> bget b i j = bget o i j
  | None => True
  end.
Proof.
  unfold check_board. cbv zeta.
  assert (Hscan := units_scan b).
  destruct (existsb _ (seq 0 9) || existsb _ (seq 0 9) || existsb _ (seq 0 3)) eqn:Hs.
  - assert (Hnc : ~ complete b) by (intros Hc; apply Hscan in Hc; done).
    split; [| intros [Hc _]; by apply Hnc in Hc].
    destruct orig as [o |]; [destruct (existsb _ (List.filter _ _)) |]; done.
  - assert (Hc : complete b) by (by apply Hscan).
    destruct orig as [o |]; [| tauto].
    destruct (existsb _ (List.filter _ _)) eqn:He.
    + split; [done |]. intros [_ Hk]. exfalso.
      apply existsb_exists in He as ([i j] & Hin & Hne).
      apply filter_In in Hin as [Hin Hf]. apply in_idx2 in Hin as [Hi Hj].
      cbn [fst snd] in *. apply negb_true_iff, Nat.eqb_neq in Hne, Hf.
      apply Hne. by apply Hk.
    + split; [| done]. intros _. split; [done |].
      intros i j Hi Hj Ho. rewrite existsb_false in He.
      specialize (He (i, j)). cbn [fst snd] in He.
      apply Nat.eqb_eq. apply negb_false_iff, He.
      apply filter_In. split; [by apply in_idx2 |].
      cbn [fst snd]. by apply negb_true_iff, Nat.eqb_neq.
Qed.

(** check_board accepts a board exactly when every row, column and block
    holds each digit 1 to 9 exactly once and, with an original board given,
    every cell that is filled there has the same value in the board. *)
Theorem check_board_spec b orig :
  check_board b orig = true <->
  complete b /\
  match orig with
  | Some o => forall i j, i < 9 -> j < 9 -> bget o i j <> 0 -> bget b i j = bget o i j
  | None => True
  end.
Proof. apply check_board_iff. Qed.

(** ** Which calls can raise *)

(** A computation that returns in state [s]. *)
Definition returns {S A} (m : M S A) (s : S) : Prop :=
  wp m (fun _ _ => True) (fun _ _ => False) s.

Lemma returns_ok {S} (m : M S unit) s : returns m s -> (m s).2 = Ok tt.
Proof.
  unfold returns, wp. destruct (m s) as [s' [[] | e]]; done.
Qed.

Lemma returns_some {S A} (m : M S A) s : returns m s -> exists a, (m s).2 = Ok a.
Proof.
  unfold returns, wp. destruct (m s) as [s' [a | e]]; [by exists a | done].
Qed.

(** A postcondition proved up to exceptions holds without them for a
    computation that returns. *)
Lemma wp_returns {S A} (m : M S A) (Q : A -> S -> Prop) E s :
  wp m Q E s -> returns m s -> wp m Q (fun _ _ => False) s.
Proof. unfold returns, wp. destruct (m s) as [s' [a | e]]; done. Qed.

Lemma returns_first_nonzero {S} k p (s : S) :
  cnt (seq 0 k) p <> 0 -> returns (first_nonzero k p) s.
Proof.
  unfold cnt, first_nonzero, returns. intros H.
  by destruct (List.filter p (seq 0 k)).
Qed.

Lemma returns_wr_method_1 w : returns wr_method_1 w.
Proof.
  unfold returns, wr_method_1.
  apply wp_bind, wp_get_state. cbv zeta. apply wp_bind.
  apply (wp_for_each (fun _ => True)); [done | |].
  - intros [j n] w' Hin _. apply in_nonzero2 in Hin as (_ & _ & Hc).
    apply Nat.eqb_eq in Hc. cbn [fst snd] in *. apply wp_bind.
    eapply wp_mono; [apply returns_first_nonzero; lia | | done].
    intros x0 w'' _. by apply wp_modify.
  - intros w1 _. apply wp_bind, wp_get_state.
    apply (wp_for_each (fun _ => True)); [done | | done].
    intros [i n] w' Hin _. apply in_nonzero2 in Hin as (_ & _ & Hc).
    apply Nat.eqb_eq in Hc. cbn [fst snd] in *. apply wp_bind.
    eapply wp_mono; [apply returns_first_nonzero; lia | | done].
    intros y0 w'' _. by apply wp_modify.
Qed.

(** Method 1 reads [flatnonzero(...)[0]] from the same snapshot that its
    list [found] was computed from: it never raises. *)
Theorem wr_method_1_returns w : (wr_method_1 w).2 = Ok tt.
Proof. apply returns_ok, returns_wr_method_1. Qed.

(** More fuel does not change the result of a call that returned. *)
Lemma wr_method_3_rec_more fuel fuel' w :
  (wr_method_3_rec fuel w).2 = Ok tt -> fuel <= fuel' ->
  wr_method_3_rec fuel' w = wr_method_3_rec fuel w.
Proof.
  revert fuel' w. induction fuel as [| fuel IH]; intros fuel' w Hok Hle; [done |].
  destruct fuel' as [| fuel']; [lia |]. cbn [wr_method_3_rec] in *.
  destruct (m3_scan _ ∅ w) as [w' [|]]; cbn [fst snd] in *; [| done].
  apply IH; [done | lia].
Qed.

(** Method 3 returns on every working array: the restarts end within
    sum + 1 nested calls, whatever deeper bound is allowed, and nothing is
    raised. *)
Theorem wr_method_3_returns w fuel :
  wsum w < fuel ->
  (wr_method_3 w).2 = Ok tt /\ wr_method_3_rec fuel w = wr_method_3 w.
Proof.
  intros Hf. destruct (wr_method_3_spec w) as [_ Hok]. split; [done |].
  destruct (wr_method_3_rec_spec fuel w Hf) as [_ Hok'].
  unfold wr_method_3 in *.
  destruct (Nat.le_ge_cases fuel (S (wsum w))) as [Hle | Hle].
  - symmetry. by apply wr_method_3_rec_more.
  - by apply wr_method_3_rec_more.
Qed.

Lemma wr_method_3_returns_witness :
  (wr_method_3 working_two_pairs).2 = Ok tt /\
  wr_method_3_rec 1000 working_two_pairs = wr_method_3 working_two_pairs.
Proof.
  apply (wr_method_3_returns working_two_pairs 1000).
  assert (H : (wsum working_two_pairs <? 1000) = true) by (vm_compute; reflexivity).
  by apply Nat.ltb_lt.
Defined.

(** Fewer than nine cells leave a cell of the line outside. *)
Lemma complement_nonempty (c : list nat) :
  length c < 9 -> List.filter (fun j => negb (among c j)) (seq 0 9) <> [].
Proof.
  intros Hlen Hnil.
  assert (Hincl : incl (seq 0 9) c).
  { intros j Hj. destruct (among c j) eqn:Ha; [by apply among_spec |].
    assert (Hin : In j (List.filter (fun j => negb (among c j)) (seq 0 9))).
    { apply filter_In. by rewrite Ha. }
    rewrite Hnil in Hin. done. }
  pose proof (NoDup_incl_length (seq_NoDup 9 0) Hincl) as H.
  rewrite length_seq in H. lia.
Qed.

Lemma returns_mesh_clear is_ js vals w :
  is_ <> [] -> js <> [] -> returns (mesh_clear is_ js vals) w.
Proof.
  intros Hi Hj. unfold mesh_clear, returns.
  by destruct is_, js.
Qed.

Lemma length_filter_le {X} (p : X -> bool) (l : list X) :
  length (List.filter p l) <= length l.
Proof.
  induction l as [| x l IH]; [done |]. cbn [List.filter].
  destruct (p x); cbn [length]; lia.
Qed.

Lemma returns_wr_method_4 N w : N <> 9 -> returns (wr_method_4 N) w.
Proof.
  intros HN. unfold returns, wr_method_4.
  apply wp_bind, wp_get_state. cbv zeta. apply wp_bind.
  apply (wp_for_each (fun _ => True)); [done | |].
  - intros i w' Hi _.
    destruct (Nat.ltb_spec (length (List.filter
               (fun j => (0 <? ncand w i j) && (ncand w i j <=? N)) (seq 0 9))) N)
      as [Hlt | Hge]; [done |].
    pose proof (length_filter_le
                  (fun j => (0 <? ncand w i j) && (ncand w i j <=? N)) (seq 0 9)) as Hl.
    rewrite length_seq in Hl.
    apply (wp_for_each (fun _ => True)); [done | | done].
    intros c w'' Hc _. apply combinations_spec in Hc as (Hlen & _ & _).
    apply wp_bind, wp_get_state. destruct (_ =? N); [| done].
    apply returns_mesh_clear; [done |]. apply complement_nonempty. lia.
  - intros w1 _.
    apply (wp_for_each (fun _ => True)); [done | | done].
    intros j w' Hj _.
    destruct (Nat.ltb_spec (length (List.filter
               (fun i => (0 <? ncand w i j) && (ncand w i j <=? N)) (seq 0 9))) N)
      as [Hlt | Hge]; [done |].
    pose proof (length_filter_le
                  (fun i => (0 <? ncand w i j) && (ncand w i j <=? N)) (seq 0 9)) as Hl.
    rewrite length_seq in Hl.
    apply (wp_for_each (fun _ => True)); [done | | done].
    intros c w'' Hc _. apply combinations_spec in Hc as (Hlen & _ & _).
    apply wp_bind, wp_get_state. destruct (_ =? N); [| done].
    apply returns_mesh_clear; [| done]. apply complement_nonempty. lia.
Qed.

(** Method 4 with a group size other than nine never raises: with fewer
    than nine cells in a group some cell of the line is left over, and no
    line has ten cells. *)
Theorem wr_method_4_returns N w : N <> 9 -> (wr_method_4 N w).2 = Ok tt.
Proof. intros HN. by apply returns_ok, returns_wr_method_4. Qed.

Lemma wr_method_4_returns_witness :
  (wr_method_4 3 working_two_pairs).2 = Ok tt.
Proof. apply (wr_method_4_returns 3 working_two_pairs). lia. Defined.

(** *** Method 4 with groups of nine cells *)

(** The nine cells of row [i] (column [j]) all have between one and nine
    candidates, and nine values are candidates in the line. *)
Definition nine_row (w : Working) (i : nat) : bool :=
  forallb (fun j => (0 <? ncand w i j) && (ncand w i j <=? 9)) (seq 0 9)
  && (length (List.filter (fun v => existsb (fun j => get w i j v) (seq 0 9))
                (seq 0 10)) =? 9).
Definition nine_col (w : Working) (j : nat) : bool :=
  forallb (fun i => (0 <? ncand w i j) && (ncand w i j <=? 9)) (seq 0 9)
  && (length (List.filter (fun v => existsb (fun i => get w i j v) (seq 0 9))
                (seq 0 10)) =? 9).
Definition nine_line (w : Working) : bool :=
  existsb (nine_row w) (seq 0 9) || existsb (nine_col w) (seq 0 9).

(** A loop whose bodies leave the state [s] as it is. *)
Lemma for_each_fixed {S X} (l : list X) (body : X -> M S unit) (bad : X -> bool) s :
  (forall x, In x l -> body x s = (s, if bad x then Err IndexError else Ok tt)) ->
  for_each l body s = (s, if existsb bad l then Err IndexError else Ok tt).
Proof.
  induction l as [| x l IH]; intros H; cbn [for_each existsb]; [done |].
  unfold bind. rewrite (H x) by (by left).
  destruct (bad x); cbn [orb]; [done |].
  apply IH. intros y Hy. apply H. by right.
Qed.

Lemma filter_all {X} (p : X -> bool) (l : list X) :
  length (List.filter p l) = length l -> List.filter p l = l /\ forallb p l = true.
Proof.
  induction l as [| x l IH]; [done |]. cbn [List.filter forallb].
  pose proof (length_filter_le p l) as Hle.
  destruct (p x); cbn [length andb]; intros Hlen; [| lia].
  destruct IH as [-> ->]; [lia | done].
Qed.

Lemma filter_short {X} (p : X -> bool) (l : list X) :
  length (List.filter p l) < length l -> forallb p l = false.
Proof.
  intros Hlt. destruct (forallb p l) eqn:Hall; [| done].
  rewrite forallb_forall in Hall.
  assert (Heq : List.filter p l = l).
  { clear Hlt. induction l as [| x l IH]; [done |]. cbn [List.filter].
    rewrite (Hall x) by (by left). f_equal. apply IH. intros y Hy. apply Hall. by right. }
  rewrite Heq in Hlt. lia.
Qed.

(** The part of Method 4 that handles one line, for groups of nine: the
    only group is the whole line, and its complement is empty. *)
Lemma nine_group (data : nat -> bool) (vals : Working -> list nat -> list nat)
    (is_ js : list nat -> list nat) (w : Working) :
  (length (is_ (seq 0 9)) =? 0) || (length (js (seq 0 9)) =? 0) = true ->
  (if length (List.filter data (seq 0 9)) <? 9 then ret tt
   else for_each (combinations (List.filter data (seq 0 9)) 9)
          (fun c => w' <- get_state ;;
                    if length (vals w' c) =? 9
                    then mesh_clear (is_ c) (js c) (vals w' c)
                    else ret tt)) w
  = (w, if forallb data (seq 0 9) && (length (vals w (seq 0 9)) =? 9)
        then Err IndexError else Ok tt).
Proof.
  intros Hempty.
  pose proof (length_filter_le data (seq 0 9)) as Hle. rewrite length_seq in Hle.
  destruct (Nat.ltb_spec (length (List.filter data (seq 0 9))) 9) as [Hlt | Hge].
  - rewrite filter_short by (by rewrite length_seq). done.
  - destruct (filter_all data (seq 0 9)) as [-> ->]; [rewrite length_seq; lia |].
    replace (combinations (seq 0 9) 9) with [seq 0 9] by (vm_compute; reflexivity).
    cbn [for_each andb]. unfold bind, get_state.
    destruct (length (vals w (seq 0 9)) =? 9); [| done].
    unfold mesh_clear. rewrite Hempty. done.
Qed.

Lemma wr_method_4_nine_run w :
  wr_method_4 9 w = (w, if nine_line w then Err IndexError else Ok tt).
Proof.
  unfold wr_method_4, nine_line. cbv zeta.
  unfold bind at 1. unfold get_state at 1. cbv iota beta.
  unfold bind at 1.
  rewrite (for_each_fixed _ _ (nine_row w)).
  - destruct (existsb (nine_row w) (seq 0 9)); cbn [orb]; [done |].
    rewrite (for_each_fixed _ _ (nine_col w)); [done |].
    intros j _.
    apply (nine_group (fun i => (0 <? ncand w i j) && (ncand w i j <=? 9))
             (fun w' c => List.filter (fun v => existsb (fun i => get w' i j v) c)
                            (seq 0 10))
             (fun c => List.filter (fun i => negb (among c i)) (seq 0 9))
             (fun _ => [j])).
    vm_compute. reflexivity.
  - intros i _.
    apply (nine_group (fun j => (0 <? ncand w i j) && (ncand w i j <=? 9))
             (fun w' c => List.filter (fun v => existsb (fun j => get w' i j v) c)
                            (seq 0 10))
             (fun _ => [i])
             (fun c => List.filter (fun j => negb (among c j)) (seq 0 9))).
    vm_compute. reflexivity.
Qed.

(** Method 4 with N = 9 never changes the working array.  It raises
    IndexError exactly when some row or column has nine cells with between
    one and nine candidates each and nine candidate values in all: the
    group is then the whole line, and the tuple of the other cells of the
    line is empty.  Otherwise it returns. *)
Theorem wr_method_4_nine w :
  (wr_method_4 9 w).1 = w /\
  ((wr_method_4 9 w).2 = Err IndexError <-> nine_line w = true) /\
  ((wr_method_4 9 w).2 = Ok tt <-> nine_line w = false).
Proof.
  rewrite wr_method_4_nine_run. cbn [fst snd].
  by destruct (nine_line w).
Qed.

(** ** What a call reports *)

Lemma wp_any {S A} (m : M S A) s : wp m (fun _ _ => True) (fun _ _ => True) s.
Proof. unfold wp. by destruct (m s) as [s' [a | e]]. Qed.

(** escalate reports False only with the sum it was entered with. *)
Lemma escalate_false Ns old_rem w :
  wsum w = old_rem ->
  wp (escalate Ns old_rem) (fun r w' => r = false -> wsum w' = old_rem)
     (fun _ _ => True) w.
Proof.
  revert w. induction Ns as [| N Ns IH]; intros w Hw; cbn [escalate].
  - by apply wp_ret.
  - apply wp_bind. eapply wp_mono; [apply wp_any | | done]; cbv beta.
    intros [] w1 _. apply wp_bind, wp_get_state.
    destruct (Nat.eqb_spec (wsum w1) old_rem) as [Heq | Hne]; [by apply IH |].
    by apply wp_ret.
Qed.

(** Once [looped] is set the loop reports True; a loop entered with
    [looped] unset reports False only with the sum unchanged. *)
Lemma rws_loop_result fuel looped rem w :
  wsum w = rem ->
  wp (rws_loop fuel looped rem)
     (fun r w' => if looped then r = true else (r = false -> wsum w' = rem))
     (fun _ _ => True) w.
Proof.
  revert looped rem w. induction fuel as [| fuel IH]; intros looped rem w Hw;
    cbn [rws_loop]; destruct (Nat.eqb_spec rem 0) as [Hz | Hz];
    try (apply wp_ret; by destruct looped); [done |].
  apply wp_bind. eapply wp_mono; [apply wp_any | | done]; cbv beta. intros [] wa _.
  apply wp_bind. eapply wp_mono; [apply wp_any | | done]; cbv beta. intros [] wb _.
  apply wp_bind. eapply wp_mono; [apply wp_any | | done]; cbv beta. intros [] w1 _.
  apply wp_bind, wp_get_state.
  destruct (Nat.eqb_spec (wsum w1) rem) as [Heq | Hne].
  - destruct looped; cbn [negb]; [by apply wp_ret |].
    apply wp_bind. eapply wp_mono; [by apply escalate_false | | done]; cbv beta.
    intros [|] w2 Hp.
    + apply wp_bind, wp_get_state.
      eapply wp_mono; [by apply (IH true) | | done]; cbv beta.
      by intros r w3 ->.
    + apply wp_ret. auto.
  - eapply wp_mono; [by apply (IH true) | | done]; cbv beta.
    intros r w3 ->. by destruct looped.
Qed.

(** reduce_working_space only clears candidates.  When it reports True the
    number of candidates has dropped; when it reports False the working
    array is as it was; the only exception it can raise is IndexError. *)
Theorem reduce_working_space_result w :
  le3 (reduce_working_space w).1 w /\
  match (reduce_working_space w).2 with
  | Ok true => wsum (reduce_working_space w).1 < wsum w
  | Ok false => forall i j n, i < 9 -> j < 9 -> n < 10 ->
                  get (reduce_working_space w).1 i j n = get w i j n
  | Err e => e = IndexError
  end.
Proof.
  pose proof (reduce_working_space_below w) as H1.
  assert (H2 : wp reduce_working_space
                 (fun r w' => r = false -> wsum w' = wsum w) (fun _ _ => True) w).
  { unfold reduce_working_space. apply wp_bind, wp_get_state.
    by apply (rws_loop_result (wsum w) false). }
  unfold wp in H1, H2.
  destruct (reduce_working_space w) as [w' [[|] | e]]; cbn [fst snd].
  - destruct H1 as [Hle Hlt]. auto.
  - destruct H1 as [Hle _]. split; [done |].
    intros i j n Hi Hj Hn. apply wsum_same; auto.
  - tauto.
Qed.

Lemma returns_assign_cell i j n st : returns (assign_cell i j n) st.
Proof. done. Qed.

(** The pass over the blocks has no [[0]] subscript: it never raises. *)
Lemma returns_find_simple_values_in_block st :
  returns find_simple_values_in_block st.
Proof.
  unfold returns, find_simple_values_in_block.
  apply wp_bind, wp_get_state. cbv zeta.
  destruct (_ =? 0); [done |]. apply wp_bind.
  apply (wp_for_each (fun _ => True)); [done | | done].
  intros xyn st' _ _. unfold fsvb_body. apply wp_bind, wp_get_state.
  apply (wp_for_each (fun _ => True)); [done | | done].
  intros ij st'' _ _. apply returns_assign_cell.
Qed.

(** A pass over the columns, rows or cells that reports False has changed
    nothing; one that reports True has lowered the number of candidates; the
    only exception is IndexError.  In each case candidates were only
    cleared. *)
Theorem find_simple_values_result axis st :
  axis <= 2 ->
  le3 (working (find_simple_values axis st).1) (working st) /\
  match (find_simple_values axis st).2 with
  | Ok true => wsum (working (find_simple_values axis st).1) < wsum (working st)
  | Ok false => (find_simple_values axis st).1 = st
  | Err e => e = IndexError
  end.
Proof.
  intros Hax.
  pose proof (find_simple_values_spec (fun _ => True) (working st)
                (fun _ _ _ _ _ _ _ _ _ _ => Logic.I) axis st Hax eq_refl Logic.I) as H.
  unfold wp, finder_err, finder_inv in H.
  assert (Hfalse : (find_simple_values axis st).2 = Ok false ->
                   (find_simple_values axis st).1 = st).
  { unfold find_simple_values, bind, get_state. cbv zeta.
    destruct (_ =? 0); [done |].
    by destruct (for_each _ _ st) as [st' [[] | e]]. }
  destruct (find_simple_values axis st) as [st' [[|] | e]]; cbn [fst snd] in *.
  - destruct H as [[_ Hle] Hlt]. auto.
  - destruct H as [[_ Hle] _]. auto.
  - tauto.
Qed.

Lemma find_simple_values_result_witness :
  (find_simple_values 2 (mkSt board_puzzle (init_working board_puzzle) [])).2 = Ok true /\
  wsum (working (find_simple_values 2
                   (mkSt board_puzzle (init_working board_puzzle) [])).1)
  < wsum (init_working board_puzzle).
Proof.
  assert (Hr : (find_simple_values 2
                  (mkSt board_puzzle (init_working board_puzzle) [])).2 = Ok true)
    by (vm_compute; reflexivity).
  split; [exact Hr |].
  destruct (find_simple_values_result 2
              (mkSt board_puzzle (init_working board_puzzle) [])) as [_ H]; [lia |].
  rewrite Hr in H. exact H.
Defined.

(** The pass over the blocks never raises.  When it reports False it has
    changed nothing; when it reports True it has lowered the number of
    candidates. *)
Theorem find_simple_values_in_block_result st :
  le3 (working (find_simple_values_in_block st).1) (working st) /\
  match (find_simple_values_in_block st).2 with
  | Ok true => wsum (working (find_simple_values_in_block st).1) < wsum (working st)
  | Ok false => (find_simple_values_in_block st).1 = st
  | Err _ => False
  end.
Proof.
  pose proof (find_simple_values_in_block_spec (fun _ => True) (working st)
                (fun _ _ _ _ _ _ _ _ _ _ => Logic.I) st eq_refl Logic.I) as H.
  pose proof (returns_find_simple_values_in_block st) as Hret.
  unfold returns, wp, finder_err, finder_inv in H, Hret.
  assert (Hfalse : (find_simple_values_in_block st).2 = Ok false ->
                   (find_simple_values_in_block st).1 = st).
  { unfold find_simple_values_in_block, bind, get_state. cbv zeta.
    destruct (_ =? 0); [done |].
    by destruct (for_each _ _ st) as [st' [[] | e]]. }
  destruct (find_simple_values_in_block st) as [st' [[|] | e]]; cbn [fst snd] in *.
  - destruct H as [[_ Hle] Hlt]. auto.
  - destruct H as [[_ Hle] _]. auto.
  - done.
Qed.

(** ** Termination of the solver loop *)

Lemma solve_loop_more fuel fuel' nf st :
  (solve_loop fuel nf st).2 <> Timeout -> fuel <= fuel' ->
  solve_loop fuel' nf st = solve_loop fuel nf st.
Proof.
  revert fuel' nf st. induction fuel as [| fuel IH]; intros fuel' nf st Hok Hle.
  - destruct fuel'; cbn [solve_loop] in *; [done |].
    by destruct (wsum (working st) =? 0).
  - destruct fuel' as [| fuel']; [lia |]. cbn [solve_loop] in *.
    destruct (wsum (working st) =? 0); [done |].
    destruct (axes_loop [0; 1; 2; 3] nf st) as [st' [[nf' |] | []]]; try done.
    apply IH; [done | lia].
Qed.

(** solve_sudoku halts on every board: the while loop runs at most as many
    times as the initial working array has candidates, so that any bound
    from that number on gives the same run. *)
Theorem solve_sudoku_terminates b fuel :
  wsum (init_working b) <= fuel ->
  (solve_sudoku b).2 <> Timeout /\
  solve_loop fuel 0 (mkSt b (init_working b) []) = solve_sudoku b.
Proof.
  intros Hf. destruct (solve_sudoku_halts b) as (Ht & _). split; [done |].
  unfold solve_sudoku in *. cbv zeta in *. by apply solve_loop_more.
Qed.

Lemma solve_sudoku_terminates_witness :
  (solve_sudoku board_puzzle).2 <> Timeout /\
  solve_loop 1000 0 (mkSt board_puzzle (init_working board_puzzle) [])
  = solve_sudoku board_puzzle.
Proof.
  apply (solve_sudoku_terminates board_puzzle 1000).
  assert (H : (wsum (init_working board_puzzle) <=? 1000) = true)
    by (vm_compute; reflexivity).
  by apply Nat.leb_le.
Defined.

(** ** Runs on a board that has a completion *)

(** Whatever the run ends with, the state it leaves is consistent with every
    completion [s] of the input: a filled cell of the board holds the digit
    of [s], and a blank cell still has the digit of [s] among its
    candidates. *)
Theorem solve_sudoku_sound b s :
  complete s -> agrees s b ->
  agrees s (board (solve_sudoku b).1) /\
  sound s (board (solve_sudoku b).1) (working (solve_sudoku b).1).
Proof.
  intros Hc HA.
  destruct (solve_sudoku_consistent s (complete_solution s Hc) b HA) as (H1 & H2 & _).
  done.
Qed.

Lemma solve_sudoku_sound_witness :
  agrees board_full (board (solve_sudoku board_puzzle).1) /\
  sound board_full (board (solve_sudoku board_puzzle).1)
    (working (solve_sudoku board_puzzle).1).
Proof.
  apply (solve_sudoku_sound board_puzzle board_full).
  - apply completeb_spec. vm_compute. reflexivity.
  - apply agreesb_spec. vm_compute. reflexivity.
Defined.

(** When the working array that a run leaves has sum zero, the board of
    the run is the completion [s] of the input. *)
Lemma zero_sum_is_solution s b i j :
  solution s -> agrees s b -> wsum (working (solve_sudoku b).1) = 0 ->
  i < 9 -> j < 9 -> bget (board (solve_sudoku b).1) i j = bget s i j.
Proof.
  intros Hs HA Hz Hi Hj.
  destruct (solve_sudoku_consistent s Hs b HA) as (HA' & HS' & _).
  destruct (Nat.eq_dec (bget (board (solve_sudoku b).1) i j) 0) as [H0 | H0];
    [| by apply HA'].
  pose proof (HS' i j Hi Hj H0) as Hg.
  pose proof (s_range s Hs i j Hi Hj) as Hr.
  rewrite (wsum_zero _ i j (bget s i j)) in Hg by (done || lia). done.
Qed.

(** A run that ends with the sum of the working array at zero, whether it
    leaves through the test of the while loop or through [return board],
    proves that the input has at most one completion. *)
Theorem solved_unique b s s' :
  complete s -> complete s' -> agrees s b -> agrees s' b ->
  wsum (working (solve_sudoku b).1) = 0 ->
  forall i j, i < 9 -> j < 9 -> bget s i j = bget s' i j.
Proof.
  intros Hc Hc' HA HA' Hz i j Hi Hj.
  rewrite <- (zero_sum_is_solution s b i j (complete_solution s Hc)) by done.
  by apply zero_sum_is_solution; [apply complete_solution | | | |].
Qed.

Lemma solved_unique_witness :
  bget board_full 0 2 = bget (board (solve_sudoku board_puzzle).1) 0 2.
Proof.
  apply (solved_unique board_puzzle board_full (board (solve_sudoku board_puzzle).1)).
  - apply completeb_spec. vm_compute. reflexivity.
  - apply completeb_spec. vm_compute. reflexivity.
  - apply agreesb_spec. vm_compute. reflexivity.
  - apply agreesb_spec. vm_compute. reflexivity.
  - vm_compute. reflexivity.
  - lia.
  - lia.
Defined.

(** *** No stale snapshot in a consistent state *)

(** The group of entries that a pass over [axis] counts at position
    [(a, b)] of its sum. *)
Definition pass_unit (axis a b : nat) : unit_kind :=
  match axis with
  | 0 => ColDigit a b
  | 1 => RowDigit a b
  | _ => CellAll a b
  end.

Lemma line_count_entries w axis a b :
  line_count w axis a b = cnt (entries (pass_unit axis a b)) (get3 w).
Proof.
  destruct axis as [| [| axis]]; cbn [line_count pass_unit entries];
    by rewrite cnt_map.
Qed.

Lemma pass_unit_inb axis a b :
  a < 9 -> b < (if axis =? 2 then 9 else 10) -> axis <= 2 ->
  unit_inb (pass_unit axis a b).
Proof.
  intros Ha Hb Hax. destruct axis as [| [| [| axis]]]; cbn in *; lia.
Qed.

(** Two groups of one pass that share an entry are the same group. *)
Lemma pass_unit_inj axis a b a' b' e :
  In e (entries (pass_unit axis a b)) -> In e (entries (pass_unit axis a' b')) ->
  (a, b) = (a', b').
Proof.
  destruct axis as [| [| axis]]; cbn [pass_unit entries]; rewrite !in_map_iff;
    intros (x & <- & _) (x' & Heq & _); congruence.
Qed.

Lemma sole_unique w u e e' : sole w u e -> sole w u e' -> e = e'.
Proof. intros (Hin & Hg & _) (_ & _ & Hu). by apply Hu. Qed.

Lemma first_nonzero_sole {S} k p x (s : S) :
  x < k -> p x = true -> (forall y, y < k -> p y = true -> y = x) ->
  first_nonzero k p s = (s, Ok x).
Proof.
  intros Hx Hp Hu. unfold first_nonzero.
  assert (Hin : In x (List.filter p (seq 0 k))).
  { apply filter_In. split; [apply in_seq; lia | done]. }
  destruct (List.filter p (seq 0 k)) as [| y l] eqn:E; [done |].
  assert (Hy : In y (List.filter p (seq 0 k))) by (rewrite E; by left).
  apply filter_In in Hy as [Hy Hpy]. apply in_seq in Hy.
  cbn [first]. unfold ret. f_equal. f_equal. apply Hu; [lia | done].
Qed.

(** When the entry that was alone in its group at the start of the pass is
    still set, the body of the loop assigns it. *)
Lemma fsv_body_sole axis a b w0 st i j n :
  axis <= 2 -> unit_inb (pass_unit axis a b) ->
  sole w0 (pass_unit axis a b) (i, j, n) -> le3 (working st) w0 ->
  get (working st) i j n = true ->
  fsv_body axis (a, b) st = (do_assign i j n st, Ok tt).
Proof.
  intros Hax Hu (Hin & Hg0 & Hsole) Hle Hg.
  destruct (entries_inb _ _ Hu Hin) as (Hi & Hj & Hn). cbn [fst snd] in Hi, Hj, Hn.
  unfold fsv_body, bind, get_state. cbn [fst snd].
  destruct axis as [| [| axis]]; cbn [pass_unit entries] in Hin, Hsole;
    apply in_map_iff in Hin as (x & Heq & Hx); injection Heq as H1 H2 H3.
  - subst i j n. rewrite (first_nonzero_sole 9 _ x); try done.
    intros y Hy Hgy.
    assert (He : (y, a, b) = (x, a, b)); [| congruence].
    apply Hsole; [| by apply Hle].
    apply in_map_iff. exists y. split; [done | apply in_seq; lia].
  - subst i j n. rewrite (first_nonzero_sole 9 _ x); try done.
    intros y Hy Hgy.
    assert (He : (a, y, b) = (a, x, b)); [| congruence].
    apply Hsole; [| by apply Hle].
    apply in_map_iff. exists y. split; [done | apply in_seq; lia].
  - subst i j n. rewrite (first_nonzero_sole 10 _ x); try done.
    intros y Hy Hgy.
    assert (He : (a, b, y) = (a, b, x)); [| congruence].
    apply Hsole; [| by apply Hle].
    apply in_map_iff. exists y. split; [done | apply in_seq; lia].
Qed.

Section Safe.
Variable s : Board.
Hypothesis Hs : solution s.

(** The loop of a pass: the entries of the groups still to come stay set,
    because they are digits of [s] on different cells. *)
Lemma fsv_loop_returns axis w0 found st :
  axis <= 2 -> NoDup found ->
  (forall ab, In ab found ->
     unit_inb (pass_unit axis ab.1 ab.2) /\
     exists e, sole w0 (pass_unit axis ab.1 ab.2) e /\ bget s e.1.1 e.1.2 = e.2) ->
  consistent s st -> le3 (working st) w0 ->
  (forall ab e, In ab found -> sole w0 (pass_unit axis ab.1 ab.2) e ->
                get3 (working st) e = true) ->
  returns (for_each found (fsv_body axis)) st.
Proof.
  intros Hax. revert st.
  induction found as [| [a b] rest IH]; intros st Hnd Htarget Hc Hle Hlive; [done |].
  apply NoDup_cons_iff in Hnd as [Hnotin Hnd].
  destruct (Htarget (a, b)) as (Hu & [[i j] n] & Hsole & Hsn); [by left |].
  cbn [fst snd] in Hu, Hsole, Hsn.
  assert (Hg : get (working st) i j n = true) by (by apply (Hlive (a, b) (i, j, n)); [left |]).
  destruct (entries_inb _ _ Hu (proj1 Hsole)) as (Hi & Hj & Hn).
  cbn [fst snd] in Hi, Hj, Hn.
  unfold returns, wp. cbn [for_each]. unfold bind.
  rewrite (fsv_body_sole axis a b w0 st i j n) by done.
  apply IH; try done.
  - intros ab Hab. apply Htarget. by right.
  - subst n. by apply consistent_assign.
  - rewrite working_do_assign. eapply le3_trans; [apply set_board_value_le3 | done].
  - intros [a' b'] [[i' j'] n'] Hab Hsole'.
    destruct (Htarget (a', b')) as (Hu' & e' & Hsole'' & Hsn'); [by right |].
    cbn [fst snd] in Hu', Hsole', Hsole''.
    pose proof (sole_unique _ _ _ _ Hsole'' Hsole') as ->. cbn [fst snd] in Hsn'.
    destruct (entries_inb _ _ Hu' (proj1 Hsole')) as (Hi' & Hj' & Hn').
    cbn [fst snd] in Hi', Hj', Hn'.
    unfold get3. cbn [fst snd]. rewrite working_do_assign.
    apply get_set_board_value.
    split; [by apply (Hlive (a', b') (i', j', n')); [right |] |].
    assert (Hcell : (i', j') <> (i, j)).
    { intros Heq. injection Heq as -> ->.
      assert (Hnn : n' = n) by congruence. rewrite Hnn in Hsole'.
      apply Hnotin.
      rewrite (pass_unit_inj axis a b a' b' (i, j, n) (proj1 Hsole) (proj1 Hsole')).
      done. }
    assert (Hd : same_unit (i', j') (i, j) -> n' <> n).
    { intros Hsu. rewrite <- Hsn, <- Hsn'.
      by apply (s_distinct s Hs (i', j') (i, j)). }
    unfold same_unit in Hd. cbn [fst snd] in Hd.
    repeat split; try lia; intros Hcl; try (apply Hd; tauto).
    apply Hcell. f_equal; tauto.
Qed.

(** In a state that is consistent with [s], a pass over the columns, rows
    or cells does not raise. *)
Lemma find_simple_values_returns axis st :
  axis <= 2 -> consistent s st -> returns (find_simple_values axis) st.
Proof.
  intros Hax Hc. unfold returns, find_simple_values.
  apply wp_bind, wp_get_state. cbv zeta.
  destruct (_ =? 0); [done |]. apply wp_bind.
  apply wp_mono with (Q := fun _ _ => True) (E := fun _ _ => False);
    [| intros [] st' _; by apply wp_ret | done].
  apply (fsv_loop_returns axis (working st)); try done.
  - apply NoDup_filter, NoDup_idx2.
  - intros [a b] Hin. apply in_nonzero2 in Hin as (Ha & Hb & Hcnt).
    cbn [fst snd] in *. apply Nat.eqb_eq in Hcnt.
    rewrite line_count_entries in Hcnt.
    assert (Hu : unit_inb (pass_unit axis a b)) by (by apply pass_unit_inb).
    split; [done |].
    destruct (cnt_pos_inv (entries (pass_unit axis a b)) (get3 (working st)))
      as ([[i j] n] & Hin & Hg); [lia |].
    exists (i, j, n). pose proof (sole_of_cnt _ _ _ Hcnt Hin Hg) as Hsole.
    split; [done |]. cbn [fst snd].
    apply (sole_is_solution s Hs st (working st) (pass_unit axis a b)); try done.
    apply le3_refl.
  - apply le3_refl.
  - by intros ab e _ (_ & Hg & _).
Qed.

Variable b : Board.
Hypothesis Hagree : agrees s b.

(** A digit that has a position in a block of the snapshot [we] still has
    one in the array [w]: the cell where [s] has it. *)
Lemma block_positions_nonempty we w x y n xi xj :
  tidy b we -> sound_below s b we w -> x < 3 -> y < 3 -> xi < 3 -> xj < 3 ->
  block_get we x y xi xj n = true ->
  block_positions w x y n <> [].
Proof.
  intros Ht [Hle Hsound] Hx Hy Hxi Hxj Hg. unfold block_get in Hg.
  pose proof (proj2 (proj2 Ht) _ _ _ Hg) as Hn.
  destruct (s_block s Hs x y n) as (r & q & Hr9 & Hq9 & Hrx & Hqy & Hsr); try done.
  assert (Hlive : get w r q n = true).
  { apply (solution_cell_live s b Hagree we w (3 * x + xi) (3 * y + xj) n); try done.
    right. right. cbn [fst snd]. lia. }
  assert (Hin : In (r mod 3, q mod 3) (block_positions w x y n)).
  { apply in_nonzero2. cbn [fst snd]. split; [lia |]. split; [lia |].
    unfold block_get. rewrite <- Hlive. f_equal; lia. }
  intros Hnil. rewrite Hnil in Hin. done.
Qed.

Lemma first_map_returns {X Y} (f : X -> Y) (l : list X) (w : Working) :
  l <> [] -> returns (first (map f l)) w.
Proof. by destruct l. Qed.

(** With a sound working array Method 2 does not raise. *)
Lemma wr_method_2_returns we :
  tidy b we -> sound s b we -> returns wr_method_2 we.
Proof.
  intros Ht Hsound. unfold returns.
  assert (H0 : sound_below s b we we) by (split; [apply le3_refl | done]).
  unfold wr_method_2. apply wp_bind, wp_get_state. apply wp_bind.
  apply (wp_for_each (sound_below s b we)); [done | |].
  - intros [[x y] n] w Hin Hw. apply in_nonzero3 in Hin as (Hx & Hy & Hn & Hc).
    apply Nat.eqb_eq in Hc. cbn [fst snd] in *. cbv zeta.
    apply wp_bind, wp_get_state.
    apply (wp_returns _ _ (sound_err s b we)); [by apply method_2_rows_sound |].
    unfold returns. apply wp_bind.
    eapply wp_mono; [| by intros f0 w' _ | intros e w' H; exact H].
    destruct (cnt_pos_inv (seq 0 3) (fun xi =>
                negb (cnt (seq 0 3) (fun xj => block_get we x y xi xj n) =? 0)))
      as (xi & Hxi & Hxi'); [lia |].
    apply cnt_nonzero in Hxi' as (xj & Hxj & Hg). apply in_seq in Hxi, Hxj.
    apply first_map_returns.
    apply (block_positions_nonempty we w x y n xi xj); try done; lia.
  - intros w1 [Hle1 Hs1]. apply wp_bind, wp_get_state.
    assert (Ht1 : tidy b w1) by (by eapply tidy_down).
    apply (wp_for_each (sound_below s b w1)); [split; [apply le3_refl | done] | | done].
    intros [[x y] n] w Hin Hw. apply in_nonzero3 in Hin as (Hx & Hy & Hn & Hc).
    apply Nat.eqb_eq in Hc. cbn [fst snd] in *. cbv zeta.
    apply wp_bind, wp_get_state.
    apply (wp_returns _ _ (sound_err s b w1)); [by apply method_2_cols_sound |].
    unfold returns. apply wp_bind.
    eapply wp_mono; [| by intros f0 w' _ | intros e w' H; exact H].
    destruct (cnt_pos_inv (seq 0 3) (fun xj =>
                negb (cnt (seq 0 3) (fun xi => block_get w1 x y xi xj n) =? 0)))
      as (xj & Hxj & Hxj'); [lia |].
    apply cnt_nonzero in Hxj' as (xi & Hxi & Hg). apply in_seq in Hxi, Hxj.
    apply first_map_returns.
    apply (block_positions_nonempty w1 w x y n xi xj); try done; lia.
Qed.

End Safe.

(** In a state that is consistent with a completion of the board (filled
    cells hold its digits, blank cells have its digit as a candidate, and
    candidates are digits, on blank cells, that the board does not have in
    a unit of the cell), the passes over columns, rows and cells return:
    the entries listed in [found] are still set when the loop reaches
    them. *)
Theorem find_simple_values_safe axis st s :
  complete s -> consistent s st -> axis <= 2 ->
  exists r, (find_simple_values axis st).2 = Ok r.
Proof.
  intros Hc Hcons Hax. apply returns_some.
  by apply (find_simple_values_returns s (complete_solution s Hc)).
Qed.

Lemma find_simple_values_safe_witness :
  exists r, (find_simple_values 0
               (mkSt board_puzzle (init_working board_puzzle) [])).2 = Ok r.
Proof.
  apply (find_simple_values_safe 0 _ board_full).
  - apply completeb_spec. vm_compute. reflexivity.
  - apply consistent_init.
    + apply complete_solution, completeb_spec. vm_compute. reflexivity.
    + apply agreesb_spec. vm_compute. reflexivity.
  - lia.
Defined.

(** On a working array that is sound for a completion [s] of the board [b]
    (and has candidates only for digits, on blank cells, that the board
    does not have in a unit of the cell), Method 2 returns: the block still
    has the digit somewhere when f[0] is read. *)
Theorem wr_method_2_safe b w s :
  complete s -> agrees s b -> tidy b w -> sound s b w ->
  (wr_method_2 w).2 = Ok tt.
Proof.
  intros Hc HA Ht Hsound. apply returns_ok.
  by apply (wr_method_2_returns s (complete_solution s Hc) b HA).
Qed.

Lemma wr_method_2_safe_witness :
  (wr_method_2 (init_working board_puzzle)).2 = Ok tt.
Proof.
  assert (Hc : complete board_full) by (apply completeb_spec; vm_compute; reflexivity).
  assert (HA : agrees board_full board_puzzle)
    by (apply agreesb_spec; vm_compute; reflexivity).
  destruct (consistent_init board_full (complete_solution _ Hc) board_puzzle HA)
    as (_ & Hsound & Ht).
  by apply (wr_method_2_safe board_puzzle _ board_full).
Defined.

(** *** The only exception of a run on a board with a completion *)

Lemma ok_returns {S A} (m : M S A) s a : (m s).2 = Ok a -> returns m s.
Proof. unfold returns, wp. destruct (m s) as [s' [a' | e]]; done. Qed.

Section Raise.
Variable s : Board.
Hypothesis Hs : solution s.

Section RaiseOnBoard.
Variable b : Board.
Hypothesis Hagree : agrees s b.

Definition fit (w : Working) : Prop := tidy b w /\ sound s b w.

Lemma method_fit {A} (m : M Working A) w :
  (forall we, tidy b we -> sound s b we ->
     wp m (fun _ => sound_below s b we) (sound_err s b we) we) ->
  fit w -> returns m w -> wp m (fun _ => fit) (fun _ _ => False) w.
Proof.
  intros Hm [Ht Hsound] Hr.
  apply (wp_returns _ _ (sound_err s b w)); [| done].
  eapply wp_mono; [by apply Hm | | done]; cbv beta.
  intros a w' [Hle Hs']. split; [by eapply tidy_down | done].
Qed.

Lemma wr_method_4_fit N w :
  fit w ->
  wp (wr_method_4 N) (fun _ => fit) (fun _ w' => nine_line w' = true) w.
Proof.
  intros Hfit. destruct (Nat.eq_dec N 9) as [-> | HN].
  - unfold wp. rewrite wr_method_4_nine_run. by destruct (nine_line w) eqn:H9.
  - eapply wp_mono; [apply method_fit; try done | done | done].
    + intros we Ht Hsound. by apply wr_method_4_sound.
    + by apply returns_wr_method_4.
Qed.

Lemma escalate_fit Ns old_rem w :
  fit w ->
  wp (escalate Ns old_rem) (fun _ => fit) (fun _ w' => nine_line w' = true) w.
Proof.
  revert w. induction Ns as [| N Ns IH]; intros w Hfit; cbn [escalate]; [done |].
  apply wp_bind. eapply wp_mono; [by apply wr_method_4_fit | | done]; cbv beta.
  intros [] w1 Hfit1. apply wp_bind, wp_get_state.
  destruct (_ =? old_rem); [by apply IH | done].
Qed.

Lemma rws_loop_fit fuel looped rem w :
  fit w ->
  wp (rws_loop fuel looped rem) (fun _ => fit)
     (fun e w' => e = IndexError -> nine_line w' = true) w.
Proof.
  revert looped rem w. induction fuel as [| fuel IH]; intros looped rem w Hfit;
    cbn [rws_loop]; destruct (rem =? 0); try done.
  apply wp_bind.
  eapply wp_mono; [apply method_fit; try done | | done]; cbv beta.
  { intros we Ht Hsound. by apply wr_method_1_sound. }
  { apply returns_wr_method_1. }
  intros [] wa Hfita. apply wp_bind.
  eapply wp_mono; [apply method_fit; try done | | done]; cbv beta.
  { intros we Ht Hsound. by apply wr_method_2_sound. }
  { destruct Hfita. by apply (wr_method_2_returns s Hs b Hagree). }
  intros [] wb Hfitb. apply wp_bind.
  eapply wp_mono; [apply method_fit; try done | | done]; cbv beta.
  { intros we Ht Hsound. by apply wr_method_3_sound. }
  { apply (ok_returns _ _ tt), wr_method_3_spec. }
  intros [] w1 Hfit1. apply wp_bind, wp_get_state.
  destruct (_ =? rem); [| by apply IH].
  destruct looped; cbn [negb]; [done |].
  apply wp_bind. eapply wp_mono; [by apply escalate_fit | | done]; cbv beta.
  intros [|] w2 Hfit2; [| done].
  apply wp_bind, wp_get_state. by apply IH.
Qed.

Lemma reduce_working_space_fit w :
  fit w ->
  wp reduce_working_space (fun _ => fit)
     (fun e w' => e = IndexError -> nine_line w' = true) w.
Proof.
  intros Hfit. unfold reduce_working_space. apply wp_bind, wp_get_state.
  by apply rws_loop_fit.
Qed.

End RaiseOnBoard.

(** No pass of a finder recorded in the trace has raised. *)
Definition no_pass_raised (st : St) : Prop :=
  forall a, ~ In (EPass a Crashed) (trace st).

Definition steady (st : St) : Prop := consistent s st /\ no_pass_raised st.

(** The state that a raise leaves: no finder pass has raised, the newest
    entry of the trace is the call of reduce_working_space that raised, and
    the working array has a line on which Method 4 with N = 9 raises. *)
Definition raised_at_nine (e : error) (st : St) : Prop :=
  e = IndexError ->
  no_pass_raised st /\
  (exists tr, trace st = EReduce (Err IndexError) :: tr) /\
  nine_line (working st) = true.

Lemma no_pass_raised_log e st :
  (forall a, e <> EPass a Crashed) -> no_pass_raised st -> no_pass_raised (log e st).
Proof.
  intros He Hn a [Heq | Hin]; [by apply (He a) | by apply (Hn a)].
Qed.

Lemma logged_reduce_fit st :
  steady st -> wp logged_reduce (fun _ => steady) raised_at_nine st.
Proof.
  intros [(HA & Hsound & Ht) Hn].
  pose proof (reduce_working_space_fit (board st) HA (working st) (conj Ht Hsound)) as H.
  unfold wp, logged_reduce, on_working in *.
  destruct (reduce_working_space (working st)) as [w' [r | e]]; cbn [fst snd].
  - destruct H as [Ht' Hs']. split; [done |].
    by apply (no_pass_raised_log (EReduce (Ok r)) (mkSt (board st) w' (trace st))).
  - intros ->. split; [| split; [by eexists | by apply H]].
    by apply (no_pass_raised_log (EReduce (Err IndexError))
                (mkSt (board st) w' (trace st))).
Qed.

Lemma steady_I_assign w0 st u i j n :
  steady st -> le3 (working st) w0 -> unit_inb u -> sole w0 u (i, j, n) ->
  get (working st) i j n = true -> steady (do_assign i j n st).
Proof.
  intros [Hc Hn] Hle Hu Hsole Hg. split.
  - pose proof (sole_is_solution s Hs st w0 u i j n Hc Hle Hu Hsole Hg) as <-.
    destruct Hsole as (Hin & _).
    destruct (entries_inb u _ Hu Hin) as (Hi & Hj & _). cbn [fst snd] in Hi, Hj.
    by apply consistent_assign.
  - intros a [Heq | Hin]; [done | by apply (Hn a)].
Qed.

Lemma logged_pass_fit axis st :
  axis <= 3 -> steady st ->
  wp (logged_pass axis) (fun _ => steady) (fun _ _ => False) st.
Proof.
  intros Hax Hc.
  assert (Hr : returns (if axis =? 3 then find_simple_values_in_block
                        else find_simple_values axis) st).
  { destruct (Nat.eqb_spec axis 3).
    - apply returns_find_simple_values_in_block.
    - apply (find_simple_values_returns s Hs); [lia | by destruct Hc]. }
  assert (H : wp (if axis =? 3 then find_simple_values_in_block
                  else find_simple_values axis)
                (fun r st' => finder_inv steady (working st) st' /\
                              (r = true -> wsum (working st') < wsum (working st)))
                (finder_err steady (working st)) st).
  { destruct (Nat.eqb_spec axis 3).
    - apply find_simple_values_in_block_spec; try done. apply steady_I_assign.
    - apply find_simple_values_spec; try done; [apply steady_I_assign | lia]. }
  unfold returns, wp, logged_pass in *.
  destruct ((if axis =? 3 then find_simple_values_in_block
             else find_simple_values axis) st) as [st' [r | e]]; cbn [fst snd] in *;
    [| done].
  destruct H as [[[Hc' Hn'] _] _]. split; [done |].
  apply (no_pass_raised_log _ st'); [| done].
  intros a. by destruct r.
Qed.

Lemma axes_loop_fit axes nf st :
  (forall a, In a axes -> a <= 3) -> steady st ->
  wp (axes_loop axes nf) (fun _ => steady) raised_at_nine st.
Proof.
  revert nf st. induction axes as [| axis axes IH]; intros nf st Hax Hc;
    cbn [axes_loop]; [done |].
  apply wp_bind. eapply wp_mono; [apply logged_pass_fit | | done]; cbv beta.
  - apply Hax. by left.
  - done.
  - intros ok st1 Hc1.
    assert (Hax' : forall a, In a axes -> a <= 3) by (intros a Ha; apply Hax; by right).
    destruct ok; [by apply IH |].
    destruct (_ =? 4); [| by apply IH].
    apply wp_bind. eapply wp_mono; [by apply logged_reduce_fit | | done]; cbv beta.
    by intros [|] st2 Hc2.
Qed.

Lemma solve_loop_fit fuel nf st :
  steady st -> (solve_loop fuel nf st).2 = Raised ->
  no_pass_raised (solve_loop fuel nf st).1 /\
  (exists tr, trace (solve_loop fuel nf st).1 = EReduce (Err IndexError) :: tr) /\
  nine_line (working (solve_loop fuel nf st).1) = true.
Proof.
  revert nf st. induction fuel as [| fuel IH]; intros nf st Hc; cbn [solve_loop];
    destruct (wsum (working st) =? 0); try done.
  assert (H : wp (axes_loop [0; 1; 2; 3] nf) (fun _ => steady) raised_at_nine st).
  { apply axes_loop_fit; [| done]. intros a Ha. cbn [In] in Ha. lia. }
  unfold wp in H.
  destruct (axes_loop [0; 1; 2; 3] nf st) as [st' [[nf' |] | []]]; cbn [fst snd];
    try done.
  - by apply IH.
  - intros _. by apply H.
Qed.

(** A line of nine open cells holds a candidate. *)
Lemma nine_line_sum w : nine_line w = true -> wsum w <> 0.
Proof.
  intros H9 Hz.
  assert (Hpos : exists i j, i < 9 /\ j < 9 /\ 0 < ncand w i j).
  { unfold nine_line in H9. apply orb_true_iff in H9 as [H | H];
      apply existsb_exists in H as (x & Hx & H); apply in_seq in Hx;
      apply andb_true_iff in H as [H _]; rewrite forallb_forall in H;
      specialize (H 0 ltac:(apply in_seq; lia));
      apply andb_true_iff in H as [H _]; apply Nat.ltb_lt in H.
    - exists x, 0. repeat split; lia || done.
    - exists 0, x. repeat split; lia || done. }
  destruct Hpos as (i & j & Hi & Hj & Hpos).
  rewrite ncand_length in Hpos.
  destruct (candidates w i j) as [| n l] eqn:Hcand; [cbn [length] in Hpos; lia |].
  assert (Hin : In n (candidates w i j)) by (rewrite Hcand; by left).
  apply candidates_in in Hin. destruct Hin as (Hn & Hg).
  rewrite (wsum_zero w i j n) in Hg by (done || lia). done.
Qed.

End Raise.

(** On a board that has a completion, a run of solve_sudoku that raises
    ends as follows: no pass of a finder has raised, the newest entry of
    the trace is the call of reduce_working_space that raised IndexError,
    and the working array that the run leaves has a row or a column of
    nine open cells with nine candidate values, on which Method 4 with
    N = 9 raises IndexError and changes nothing. *)
Theorem solve_sudoku_raises_at_nine b s :
  complete s -> agrees s b -> (solve_sudoku b).2 = Raised ->
  (forall a, ~ In (EPass a Crashed) (trace (solve_sudoku b).1)) /\
  (exists tr, trace (solve_sudoku b).1 = EReduce (Err IndexError) :: tr) /\
  nine_line (working (solve_sudoku b).1) = true /\
  wr_method_4 9 (working (solve_sudoku b).1)
  = (working (solve_sudoku b).1, Err IndexError).
Proof.
  intros Hc HA Hr.
  assert (H : no_pass_raised (solve_sudoku b).1 /\
              (exists tr, trace (solve_sudoku b).1 = EReduce (Err IndexError) :: tr) /\
              nine_line (working (solve_sudoku b).1) = true).
  { revert Hr. unfold solve_sudoku. cbv zeta.
    apply (solve_loop_fit s (complete_solution s Hc)).
    split; [apply (consistent_init s (complete_solution s Hc) b HA) |].
    intros a []. }
  destruct H as (Hn & Htr & H9).
  split; [exact Hn |]. split; [exact Htr |]. split; [exact H9 |].
  rewrite wr_method_4_nine_run, H9. done.
Qed.

(** The board with no cell filled in. *)
Definition board_blank : Board := tab2 (fun _ _ => 0).

Lemma solve_sudoku_raises_at_nine_witness :
  nine_line (working (solve_sudoku board_blank).1) = true.
Proof.
  apply (solve_sudoku_raises_at_nine board_blank board_full).
  - apply completeb_spec. vm_compute. reflexivity.
  - apply agreesb_spec. vm_compute. reflexivity.
  - vm_compute. reflexivity.
Defined.

(** For an input with a completion, a run of solve_sudoku that ends with
    the sum of the working array at zero, whether it leaves through the
    test of the while loop or through [return board], returns a board that
    check_board accepts against the input. *)
Theorem solved_board_checks b s :
  complete s -> agrees s b -> wsum (working (solve_sudoku b).1) = 0 ->
  ((solve_sudoku b).2 = Solved \/ (solve_sudoku b).2 = Stuck) /\
  check_board (board (solve_sudoku b).1) (Some b) = true.
Proof.
  intros Hc HA Hz. split.
  - destruct (solve_sudoku_halts b) as (Ht & _).
    destruct (solve_sudoku b).2 eqn:Ho; [by left | by right | | done].
    exfalso. revert Ho Hz. unfold solve_sudoku. cbv zeta. intros Ho Hz.
    destruct (solve_loop_fit s (complete_solution s Hc) _ 0 _
                (conj (consistent_init s (complete_solution s Hc) b HA)
                      (fun a (H : In (EPass a Crashed) []) => H)) Ho)
      as (_ & _ & H9).
    by apply nine_line_sum in H9.
  - apply check_board_iff.
    assert (Heq : forall i j, i < 9 -> j < 9 ->
              bget (board (solve_sudoku b).1) i j = bget s i j).
    { intros i j Hi Hj. apply zero_sum_is_solution; try done.
      by apply complete_solution. }
    split; [by apply (complete_ext s) |].
    intros i j Hi Hj Hb. rewrite Heq by done. symmetry. by apply HA.
Qed.

Lemma solved_board_checks_witness :
  check_board (board (solve_sudoku board_puzzle).1) (Some board_puzzle) = true.
Proof.
  apply (solved_board_checks board_puzzle board_full).
  - apply completeb_spec. vm_compute. reflexivity.
  - apply agreesb_spec. vm_compute. reflexivity.
  - vm_compute. reflexivity.
Defined.

(** ** The assignments of a run *)

(** The calls of set_board_value recorded in the trace, newest first. *)
Definition assignments (st : St) : list (nat * nat * nat) :=
  flat_map (fun e => match e with
                     | EAssign _ i j n => [(i, j, n)]
                     | _ => []
                     end) (trace st).

(** Each cell is assigned at most once, an assigned cell was blank in [b],
    holds the assigned digit and has no candidate left; the other cells are
    as in [b]; candidates are digits on cells that are blank in [b]. *)
Definition assigned_once (b : Board) (st : St) : Prop :=
  NoDup (map fst (assignments st)) /\
  (forall i j n, In (i, j, n) (assignments st) ->
     i < 9 /\ j < 9 /\ 1 <= n <= 9 /\ bget b i j = 0 /\ bget (board st) i j = n /\
     forall k, get (working st) i j k = false) /\
  (forall i j, i < 9 -> j < 9 -> ~ In (i, j) (map fst (assignments st)) ->
     bget (board st) i j = bget b i j) /\
  (forall i j n, get (working st) i j n = true -> bget b i j = 0 /\ 1 <= n <= 9).

Lemma assignments_do_assign i j n st :
  assignments (do_assign i j n st) = (i, j, n) :: assignments st.
Proof. reflexivity. Qed.

Lemma assigned_once_assign b st i j n :
  assigned_once b st -> i < 9 -> j < 9 -> get (working st) i j n = true ->
  assigned_once b (do_assign i j n st).
Proof.
  intros (Hnd & Hin & Hout & Hcand) Hi Hj Hg.
  destruct (Hcand i j n Hg) as [Hblank Hn].
  assert (Hnew : ~ In (i, j) (map fst (assignments st))).
  { intros H. apply in_map_iff in H as ([[i' j'] n'] & Heq & H).
    cbn [fst] in Heq. injection Heq as -> ->.
    destruct (Hin i j n' H) as (_ & _ & _ & _ & _ & Hno). by rewrite Hno in Hg. }
  assert (Hboard : forall a c, a < 9 -> c < 9 ->
            bget (board (do_assign i j n st)) a c =
            if (a =? i) && (c =? j) then n else bget (board st) a c).
  { intros a c Ha Hc. rewrite board_do_assign, board_set_board_value.
    destruct (Nat.ltb_spec a 9), (Nat.ltb_spec c 9); try lia. done. }
  assert (Hclear : forall a c k, get (working (do_assign i j n st)) a c k = true ->
            get (working st) a c k = true /\ (a, c) <> (i, j)).
  { intros a c k H. rewrite working_do_assign in H.
    apply get_set_board_value in H as (H & _ & _ & _ & _ & _ & Hne & _).
    split; [done |]. intros Heq. injection Heq as -> ->. tauto. }
  unfold assigned_once. rewrite assignments_do_assign. split; [| split; [| split]].
  - cbn [map fst]. by constructor.
  - intros a c k [Heq | Hold].
    + injection Heq as <- <- <-. rewrite Hboard by done. rewrite !Nat.eqb_refl.
      repeat split; try done; try lia.
      intros k. destruct (get (working (do_assign i j n st)) i j k) eqn:Hk; [| done].
      apply Hclear in Hk as [_ Hk]. done.
    + destruct (Hin a c k Hold) as (Ha & Hc & Hk & Hb & Hv & Hno).
      assert (Hne : (a, c) <> (i, j)).
      { intros Heq. injection Heq as -> ->. by rewrite Hno in Hg. }
      rewrite Hboard by done.
      destruct (Nat.eqb_spec a i), (Nat.eqb_spec c j); cbn [andb];
        try (exfalso; apply Hne; congruence); repeat split; try done; try lia;
        intros k'; destruct (get (working (do_assign i j n st)) a c k') eqn:Hk';
        try done; apply Hclear in Hk' as [Hk' _]; by rewrite Hno in Hk'.
  - intros a c Ha Hc Hnot. cbn [map fst] in Hnot. rewrite Hboard by done.
    destruct (Nat.eqb_spec a i), (Nat.eqb_spec c j); cbn [andb];
      try (apply Hout; try done; intros H; apply Hnot; by right).
    exfalso. apply Hnot. left. congruence.
  - intros a c k H. apply Hclear in H as [H _]. by apply Hcand.
Qed.

Lemma assigned_once_down b bb tr w w' :
  assigned_once b (mkSt bb w tr) -> le3 w' w -> assigned_once b (mkSt bb w' tr).
Proof.
  intros (Hnd & Hin & Hout & Hcand) Hle. split; [done |]. split; [| split; [done |]].
  - intros i j n H. destruct (Hin i j n H) as (Hi & Hj & Hn & Hb & Hv & Hno).
    repeat split; try done; try lia. intros k. cbn [working] in *.
    destruct (get w' i j k) eqn:Hk; [| done]. apply Hle in Hk. by rewrite Hno in Hk.
  - intros i j n H. cbn [working] in *. apply Hcand. by apply Hle.
Qed.

(** In every run of solve_sudoku no cell is assigned twice; each assignment
    puts a digit 1 to 9 on a cell that is blank in the input, and the board
    that is returned holds that digit there; every cell that was not
    assigned is as in the input. *)
Theorem solve_sudoku_assigns_once b :
  NoDup (map fst (assignments (solve_sudoku b).1)) /\
  (forall i j n, In (i, j, n) (assignments (solve_sudoku b).1) ->
     i < 9 /\ j < 9 /\ 1 <= n <= 9 /\ bget b i j = 0 /\
     bget (board (solve_sudoku b).1) i j = n) /\
  (forall i j, i < 9 -> j < 9 ->
     ~ In (i, j) (map fst (assignments (solve_sudoku b).1)) ->
     bget (board (solve_sudoku b).1) i j = bget b i j).
Proof.
  assert (H : assigned_once b (solve_sudoku b).1).
  { unfold solve_sudoku. cbv zeta.
    apply (solve_loop_spec (assigned_once b)); try done; try lia;
      try (intros bb tr;
           apply (keeps_methods_down_closed (fun w => assigned_once b (mkSt bb w tr)));
           intros w w'; apply assigned_once_down).
    - intros w0 st u i j n H _ Hu [Hin _] Hg.
      destruct (entries_inb u _ Hu Hin) as (Hi & Hj & _). cbn [fst snd] in Hi, Hj.
      by apply assigned_once_assign.
    - intros e st He H. by destruct e.
    - split; [constructor |]. split; [done |]. split; [done |].
      intros i j n Hg. cbn [working] in Hg. apply get_init_working in Hg. tauto. }
  destruct H as (Hnd & Hin & Hout & _). split; [done |]. split; [| done].
  intros i j n Hijn. destruct (Hin i j n Hijn) as (H1 & H2 & H3 & H4 & H5 & _). done.
Qed.

(** ** set_board_value and init_working *)

Lemma tab3_ext f g :
  (forall i j n, i < 9 -> j < 9 -> n < 10 -> f i j n = g i j n) -> tab3 f = tab3 g.
Proof.
  intros H. unfold tab3.
  apply map_ext_in. intros i Hi. apply in_seq in Hi.
  apply map_ext_in. intros j Hj. apply in_seq in Hj.
  apply map_ext_in. intros n Hn. apply in_seq in Hn.
  apply H; lia.
Qed.

Lemma tab2_ext f g :
  (forall i j, i < 9 -> j < 9 -> f i j = g i j) -> tab2 f = tab2 g.
Proof.
  intros H. unfold tab2.
  apply map_ext_in. intros i Hi. apply in_seq in Hi.
  apply map_ext_in. intros j Hj. apply in_seq in Hj.
  apply H; lia.
Qed.

(** Two results of set_board_value with the same entries are the same
    array. *)
Lemma working_ext st1 st2 i j n i' j' n' :
  (forall a c k, a < 9 -> c < 9 -> k < 10 ->
     get (working (set_board_value i j n st1)) a c k =
     get (working (set_board_value i' j' n' st2)) a c k) ->
  working (set_board_value i j n st1) = working (set_board_value i' j' n' st2).
Proof.
  unfold set_board_value. cbn [working]. intros H.
  unfold assign at 1 5. apply tab3_ext. intros a c k Ha Hc Hk.
  specialize (H a c k Ha Hc Hk). rewrite !(get_assign (slice _ _)) in H.
  destruct (Nat.ltb_spec a 9), (Nat.ltb_spec c 9), (Nat.ltb_spec k 10); try lia.
  exact H.
Qed.

(** Two calls of set_board_value leave the same working array in either
    order, and a call repeated at once changes nothing. *)
Theorem set_board_value_commute st i j n i' j' n' :
  i < 9 -> j < 9 -> n < 10 -> i' < 9 -> j' < 9 -> n' < 10 ->
  working (set_board_value i j n (set_board_value i' j' n' st)) =
  working (set_board_value i' j' n' (set_board_value i j n st)) /\
  set_board_value i j n (set_board_value i j n st) = set_board_value i j n st.
Proof.
  intros Hi Hj Hn Hi' Hj' Hn'. split.
  - apply working_ext. intros a c k Ha Hc Hk.
    apply Bool.eq_iff_eq_true. rewrite !get_set_board_value. tauto.
  - assert (Hw : working (set_board_value i j n (set_board_value i j n st))
                 = working (set_board_value i j n st)).
    { apply working_ext. intros a c k Ha Hc Hk.
      apply Bool.eq_iff_eq_true. rewrite !get_set_board_value. tauto. }
    assert (Hb : board (set_board_value i j n (set_board_value i j n st))
                 = board (set_board_value i j n st)).
    { unfold set_board_value. cbn [board]. unfold bset at 1 3.
      apply tab2_ext. intros a c Ha Hc. rewrite bget_bset.
      destruct (Nat.ltb_spec a 9), (Nat.ltb_spec c 9); try lia. cbn [andb].
      by destruct ((a =? i) && (c =? j)). }
    unfold set_board_value in *. cbn [working board trace] in *.
    by rewrite Hw, Hb.
Qed.

Lemma set_board_value_commute_witness :
  working (set_board_value 0 0 1 (set_board_value 4 4 5
             (mkSt board_blank (init_working board_blank) []))) =
  working (set_board_value 4 4 5 (set_board_value 0 0 1
             (mkSt board_blank (init_working board_blank) []))).
Proof.
  apply (set_board_value_commute (mkSt board_blank (init_working board_blank) [])
           0 0 1 4 4 5); lia.
Defined.

(** The filled cells of a board, and the state reached from the blank board
    by calling set_board_value for each of them. *)
Definition givens (b : Board) : list (nat * nat) :=
  List.filter (fun c => negb (bget b c.1 c.2 =? 0)) (idx2 9 9).

Definition enter (b : Board) (st : St) (c : nat * nat) : St :=
  set_board_value c.1 c.2 (bget b c.1 c.2) st.

Definition replay (b : Board) : St :=
  fold_left (enter b) (givens b) (mkSt board_blank (init_working board_blank) []).

Lemma get_fold_enter b l st a c k :
  get (working (fold_left (enter b) l st)) a c k = true <->
  get (working st) a c k = true /\
  forall q, In q l ->
    a < 9 /\ c < 9 /\ k < 10 /\
    ~ (a = q.1 /\ k = bget b q.1 q.2) /\ ~ (c = q.2 /\ k = bget b q.1 q.2) /\
    ~ (a = q.1 /\ c = q.2) /\
    ~ (a / 3 = q.1 / 3 /\ c / 3 = q.2 / 3 /\ k = bget b q.1 q.2).
Proof.
  revert st. induction l as [| q l IH]; intros st; cbn [fold_left].
  - split; [intros H; split; [done | by intros q []] | tauto].
  - rewrite IH. unfold enter. rewrite get_set_board_value. split.
    + intros [(Hg & Hr) Hl]. split; [done |].
      intros q' [<- | Hq']; [tauto | by apply Hl].
    + intros [Hg Hl]. split.
      * split; [done |]. apply Hl. by left.
      * intros q' Hq'. apply Hl. by right.
Qed.

Lemma bget_fold_enter b l st i j :
  i < 9 -> j < 9 ->
  bget (board (fold_left (enter b) l st)) i j =
  if existsb (fun q => (i =? q.1) && (j =? q.2)) l then bget b i j
  else bget (board st) i j.
Proof.
  intros Hi Hj. revert st. induction l as [| q l IH]; intros st;
    cbn [fold_left existsb]; [done |].
  rewrite IH. unfold enter. rewrite board_set_board_value.
  destruct (Nat.ltb_spec i 9), (Nat.ltb_spec j 9); try lia. cbn [andb].
  destruct (existsb _ l); [by rewrite orb_true_r |]. rewrite orb_false_r.
  destruct (Nat.eqb_spec i q.1), (Nat.eqb_spec j q.2); cbn [andb]; congruence.
Qed.

Lemma in_givens b q :
  In q (givens b) <-> q.1 < 9 /\ q.2 < 9 /\ bget b q.1 q.2 <> 0.
Proof.
  unfold givens. rewrite filter_In, in_idx2, negb_true_iff, Nat.eqb_neq. tauto.
Qed.

Lemma get_blank i j n :
  get (init_working board_blank) i j n = true <-> i < 9 /\ j < 9 /\ 1 <= n <= 9.
Proof.
  assert (H0 : forall a c, bget board_blank a c = 0).
  { intros a c. unfold board_blank. rewrite bget_tab2. by destruct (_ && _). }
  rewrite get_init_working. split; [tauto |].
  intros (Hi & Hj & Hn). repeat split; try done; try lia; intros; rewrite H0; lia.
Qed.

(** init_working(board) is the working array obtained from the blank board
    by calling set_board_value for every filled cell of the board, and the
    board obtained in this way is the board itself. *)
Theorem init_working_replay b :
  (forall i j, i < 9 -> j < 9 -> bget b i j <= 9) ->
  (forall i j n, i < 9 -> j < 9 -> n < 10 ->
     get (working (replay b)) i j n = get (init_working b) i j n) /\
  (forall i j, i < 9 -> j < 9 -> bget (board (replay b)) i j = bget b i j).
Proof.
  intros Hrange. split.
  - intros i j n Hi Hj Hn. apply Bool.eq_iff_eq_true. unfold replay.
    rewrite get_fold_enter. cbn [working]. rewrite get_blank, get_init_working.
    split.
    + intros [(_ & _ & Hn1) Hl].
      assert (Hgiven : forall i' j', i' < 9 -> j' < 9 -> bget b i' j' = n ->
                In (i', j') (givens b)).
      { intros i' j' Hi' Hj' Hv. apply in_givens. cbn [fst snd]. lia. }
      repeat split; try done; try lia.
      * destruct (Nat.eq_dec (bget b i j) 0) as [H0 | H0]; [done |].
        assert (Hin : In (i, j) (givens b)) by (by apply in_givens).
        specialize (Hl _ Hin). cbn [fst snd] in Hl. tauto.
      * intros j' Hj' Hv. specialize (Hl _ (Hgiven i j' Hi Hj' Hv)).
        cbn [fst snd] in Hl. intuition congruence.
      * intros i' Hi' Hv. specialize (Hl _ (Hgiven i' j Hi' Hj Hv)).
        cbn [fst snd] in Hl. intuition congruence.
      * intros i' j' Hi' Hj' Hx Hy Hv. specialize (Hl _ (Hgiven i' j' Hi' Hj' Hv)).
        cbn [fst snd] in Hl. destruct Hl as (_ & _ & _ & _ & _ & _ & H4).
        apply H4. repeat split; lia.
    + intros (_ & _ & Hn1 & Hblank & Hrow & Hcol & Hblock).
      split; [done |]. intros [i' j'] Hq. apply in_givens in Hq as (Hi' & Hj' & Hv).
      cbn [fst snd] in *. repeat split; try done.
      * intros [-> Hk]. by apply (Hrow j').
      * intros [-> Hk]. by apply (Hcol i').
      * intros [-> ->]. done.
      * intros (Hx & Hy & Hk). by apply (Hblock i' j').
  - intros i j Hi Hj. unfold replay. rewrite bget_fold_enter by done.
    destruct (existsb _ (givens b)) eqn:He; [done |].
    cbn [board]. unfold board_blank. rewrite bget_tab2.
    destruct (Nat.ltb_spec i 9), (Nat.ltb_spec j 9); try lia. cbn [andb].
    destruct (Nat.eq_dec (bget b i j) 0) as [Hz | Hz]; [done |].
    rewrite existsb_false in He.
    assert (Hin : In (i, j) (givens b)) by (by apply in_givens).
    specialize (He _ Hin). cbn [fst snd] in He. by rewrite !Nat.eqb_refl in He.
Qed.

Lemma init_working_replay_witness :
  (forall i j n, i < 9 -> j < 9 -> n < 10 ->
     get (working (replay board_puzzle)) i j n = get (init_working board_puzzle) i j n) /\
  (forall i j, i < 9 -> j < 9 ->
     bget (board (replay board_puzzle)) i j = bget board_puzzle i j).
Proof.
  apply (init_working_replay board_puzzle). intros i j Hi Hj.
  assert (H : forallb (fun c => bget board_puzzle c.1 c.2 <=? 9) (idx2 9 9) = true)
    by (vm_compute; reflexivity).
  rewrite forallb_forall in H.
  apply Nat.leb_le, (H (i, j)). by apply in_idx2.
Defined.

(** ** print_board *)

From stdpp Require Import strings pretty.
From Stdlib Require Import Ascii List.
Import ListNotations.

(** The text of [board[i,j] or ' ']. *)
Definition cell_text (v : nat) : string :=
  if v =? 0 then " "%string else pretty v.

Definition line : string := "-------------"%string.

(** One row of the board as it is printed: the calls with [end=''] go on
    with the current line of the output, [print('|')] ends it. *)
Definition row_text (board : Board) (i : nat) : string :=
  fold_right (fun j rest =>
                (if j mod 3 =? 0 then "|"%string else EmptyString)
                +:+ cell_text (bget board i j) +:+ rest)
    "|"%string (seq 0 9).

(** The lines that print_board writes to standard output. *)
Definition print_board (board : Board) : list string :=
  flat_map (fun i => (if i mod 3 =? 0 then [line] else []) ++ [row_text board i])
    (seq 0 9)
  ++ [line].

(** The boards whose cells hold 0 to 9. *)
Definition digits (b : Board) : Prop :=
  forall i j, i < 9 -> j < 9 -> bget b i j <= 9.

Definition cell_char (v : nat) : Ascii.ascii :=
  match v with
  | 0 => " " | 1 => "1" | 2 => "2" | 3 => "3" | 4 => "4"
  | 5 => "5" | 6 => "6" | 7 => "7" | 8 => "8" | _ => "9"
  end%char.

Lemma cell_text_digit v : v <= 9 -> cell_text v = String (cell_char v) EmptyString.
Proof.
  intros Hv. do 10 (destruct v as [| v]; [vm_compute; reflexivity |]). lia.
Qed.

Lemma cell_char_inj v v' : v <= 9 -> v' <= 9 -> cell_char v = cell_char v' -> v = v'.
Proof.
  intros Hv Hv' H.
  do 10 (destruct v as [| v]; [do 10 (destruct v' as [| v']; [done |]); lia |]). lia.
Qed.

Lemma row_text_cells b i :
  row_text b i =
  String "|" (cell_text (bget b i 0) +:+ cell_text (bget b i 1) +:+ cell_text (bget b i 2)
  +:+ String "|" (cell_text (bget b i 3) +:+ cell_text (bget b i 4)
  +:+ cell_text (bget b i 5)
  +:+ String "|" (cell_text (bget b i 6) +:+ cell_text (bget b i 7)
  +:+ cell_text (bget b i 8) +:+ String "|" EmptyString))).
Proof. reflexivity. Qed.

Lemma row_text_digits b i :
  digits b -> i < 9 ->
  row_text b i =
  String "|" (String (cell_char (bget b i 0)) (String (cell_char (bget b i 1))
  (String (cell_char (bget b i 2)) (String "|" (String (cell_char (bget b i 3))
  (String (cell_char (bget b i 4)) (String (cell_char (bget b i 5))
  (String "|" (String (cell_char (bget b i 6)) (String (cell_char (bget b i 7))
  (String (cell_char (bget b i 8)) (String "|" EmptyString)))))))))))).
Proof.
  intros Hd Hi. rewrite row_text_cells.
  rewrite !cell_text_digit by (apply Hd; lia). reflexivity.
Qed.

Lemma print_board_rows b :
  print_board b =
  [line; row_text b 0; row_text b 1; row_text b 2;
   line; row_text b 3; row_text b 4; row_text b 5;
   line; row_text b 6; row_text b 7; row_text b 8; line].
Proof. reflexivity. Qed.

(** For a board of digits print_board writes thirteen lines of thirteen
    characters. *)
Theorem print_board_layout b :
  digits b ->
  length (print_board b) = 13 /\
  forall l, In l (print_board b) -> String.length l = 13.
Proof.
  intros Hd. rewrite print_board_rows. split; [reflexivity |].
  intros l Hl. cbn [In] in Hl.
  repeat (destruct Hl as [<- | Hl];
          [first [reflexivity | rewrite row_text_digits by (done || lia); reflexivity] |]).
  done.
Qed.

(** The text determines the board: two boards of digits that are printed
    alike hold the same values (a blank cell is the only one printed as a
    space). *)
Theorem print_board_inj b b' :
  digits b -> digits b' -> print_board b = print_board b' ->
  forall i j, i < 9 -> j < 9 -> bget b i j = bget b' i j.
Proof.
  intros Hd Hd' Heq.
  assert (Hrow : forall i, i < 9 -> row_text b i = row_text b' i).
  { intros i Hi.
    pose proof (f_equal (fun l => nth (i + i / 3 + 1) l EmptyString) Heq) as H.
    rewrite !print_board_rows in H.
    do 9 (destruct i as [| i]; [exact H |]). lia. }
  intros i j Hi Hj. specialize (Hrow i Hi).
  rewrite !row_text_digits in Hrow by done.
  injection Hrow as H0 H1 H2 H3 H4 H5 H6 H7 H8.
  apply cell_char_inj; try by apply Hd || apply Hd'.
  do 9 (destruct j as [| j]; [done |]). lia.
Qed.

Lemma print_board_layout_witness :
  length (print_board board_puzzle) = 13 /\
  forall l, In l (print_board board_puzzle) -> String.length l = 13.
Proof.
  apply (print_board_layout board_puzzle). intros i j Hi Hj.
  assert (H : forallb (fun c => bget board_puzzle c.1 c.2 <=? 9) (idx2 9 9) = true)
    by (vm_compute; reflexivity).
  rewrite forallb_forall in H.
  apply Nat.leb_le, (H (i, j)). by apply in_idx2.
Defined.

Lemma print_board_inj_witness :
  bget board_puzzle 0 0 = bget (bset board_puzzle 0 2 0) 0 0.
Proof.
  assert (Hd : forall b,
            forallb (fun c => bget b c.1 c.2 <=? 9) (idx2 9 9) = true -> digits b).
  { intros b H i j Hi Hj. rewrite forallb_forall in H.
    apply Nat.leb_le, (H (i, j)). by apply in_idx2. }
  apply (print_board_inj board_puzzle (bset board_puzzle 0 2 0)).
  - apply Hd. vm_compute. reflexivity.
  - apply Hd. vm_compute. reflexivity.
  - vm_compute. reflexivity.
  - lia.
  - lia.
Defined.
